(** * pyex: the install pipeline of kdm-python/pyscripts, embedded in Rocq

    The development follows [src/pyex.py].  Python [str] values are Rocq
    strings, [pathlib.Path] values are records of a root and a list of
    components (CPython 3.11, POSIX flavour), the file system is a finite
    map from resolved locations to regular files, and the functions of the
    script are programs of a state-and-exception monad over a world made of
    the file system, the lines printed so far and the process umask.

    Limits of the file-system model, and how the statements keep within
    them:

    - The store holds regular files only.  A location without a file is a
      free path; every directory on the way to a file is taken to exist and
      to be open to the process.  Directories are not stored: [directory]
      recognises the locations above a file of the store and the install
      directory, and a statement about the files a copy leaves unchanged
      asks that the destination names a regular file or a free path.
    - The store has no links and no working directory: a relative path and
      an absolute path are different locations, and [..] components are
      kept as they are written.  [resolved] holds of the locations that do
      not depend on either; statements that compare the original path with
      the destination ask for it.
    - A file holds characters.  [Path.read_text] reads them in text mode
      with universal newlines ([universal_newlines]); decoding is not
      modelled, so statements about the text that is read are about files
      of ASCII characters ([is_ascii]), which every encoding the
      interpreter may choose decodes to themselves.
    - The process runs as an unprivileged user who stands in one permission
      class (owner, group or other) towards each file.  Writing to a file
      keeps its permission bits; the kernel clears the set-user-ID and
      set-group-ID bits on a write, so statements about the bits of a file
      that has been written ask that the script has neither
      ([set_id_bits]). *)

From Stdlib Require Import ZArith Ascii String List Bool Lia DecimalString.
From stdpp Require Import gmap strings list fin_maps.

Local Open Scope Z_scope.

(** ** Python [str] operations used by the script *)

Module Str.

Fixpoint len (s : string) : nat :=
  match s with
  | EmptyString => O
  | String _ s' => S (len s')
  end.

(** [s[n:]] for [0 <= n] *)
Fixpoint drop (n : nat) (s : string) : string :=
  match n, s with
  | O, _ => s
  | S n', String _ s' => drop n' s'
  | S _, EmptyString => EmptyString
  end.

(** [s[:n]] for [0 <= n] *)
Fixpoint take (n : nat) (s : string) : string :=
  match n, s with
  | S n', String a s' => String a (take n' s')
  | _, _ => EmptyString
  end.

(** [s[:-k]] for [0 < k] *)
Definition drop_last (k : nat) (s : string) : string :=
  take (len s - k)%nat s.

(** [s.rfind(c)], [-1] when [c] does not occur *)
Fixpoint rfind (c : ascii) (s : string) : Z :=
  match s with
  | EmptyString => -1
  | String a s' =>
      let i := rfind c s' in
      if 0 <=? i then i + 1
      else if Ascii.eqb a c then 0 else -1
  end.

(** [c in s] *)
Fixpoint contains (c : ascii) (s : string) : bool :=
  match s with
  | EmptyString => false
  | String a s' => Ascii.eqb a c || contains c s'
  end.

(** [s.startswith(c)] *)
Definition startswith (c : ascii) (s : string) : bool :=
  match s with
  | String a _ => Ascii.eqb a c
  | EmptyString => false
  end.

(** [s.endswith(c)] *)
Fixpoint endswith (c : ascii) (s : string) : bool :=
  match s with
  | EmptyString => false
  | String a EmptyString => Ascii.eqb a c
  | String _ s' => endswith c s'
  end.

(** [s.lstrip(c)]: every leading [c] is removed *)
Fixpoint lstrip (c : ascii) (s : string) : string :=
  match s with
  | String a s' => if Ascii.eqb a c then lstrip c s' else s
  | EmptyString => EmptyString
  end.

(** [s.rstrip(c)]: every trailing [c] is removed *)
Fixpoint rstrip (c : ascii) (s : string) : string :=
  match s with
  | EmptyString => EmptyString
  | String a s' =>
      match rstrip c s' with
      | EmptyString => if Ascii.eqb a c then EmptyString else String a EmptyString
      | r => String a r
      end
  end.

(** [s.split(c)]: the pieces between the occurrences of [c]; never empty *)
Fixpoint split (c : ascii) (s : string) : list string :=
  match s with
  | EmptyString => [EmptyString]
  | String a s' =>
      if Ascii.eqb a c then EmptyString :: split c s'
      else match split c s' with
           | piece :: rest => String a piece :: rest
           | [] => [String a EmptyString]
           end
  end.

(** [sep.join(l)] *)
Fixpoint join (sep : string) (l : list string) : string :=
  match l with
  | [] => EmptyString
  | [x] => x
  | x :: rest => x +:+ sep +:+ join sep rest
  end.

(** [c * n] *)
Fixpoint replicate (n : nat) (c : ascii) : string :=
  match n with
  | O => EmptyString
  | S n' => String c (replicate n' c)
  end.

End Str.

Definition dot : ascii := "."%char.
Definition slash : ascii := "/"%char.
Definition newline : ascii := "010"%char.
Definition carriage_return : ascii := "013"%char.
Definition nl : string := String newline EmptyString.

(** What text mode makes of the characters of a file (universal newlines):
    a carriage return followed by a line feed, and a carriage return alone,
    are read as one line feed. *)
Fixpoint universal_newlines (s : string) : string :=
  match s with
  | EmptyString => EmptyString
  | String a s' =>
      if Ascii.eqb a carriage_return
      then String newline
             match s' with
             | String b s'' =>
                 if Ascii.eqb b newline
                 then universal_newlines s''
                 else universal_newlines s'
             | EmptyString => EmptyString
             end
      else String a (universal_newlines s')
  end.

(** Every character of [s] is an ASCII character: such a text is decoded to
    itself in every encoding that extends ASCII. *)
Fixpoint is_ascii (s : string) : bool :=
  match s with
  | EmptyString => true
  | String a s' => (N_of_ascii a <? 128)%N && is_ascii s'
  end.

(** ** Exceptions and results *)

Inductive exn_kind : Type :=
  | FileExtensionError
  | FileNotFoundError
  | PermissionError
  | IsADirectoryError
  | SameFileError
  | OSError
  | ValueError
  | AssertionError
  | IndexError
  | AttributeError
  | KeyError
  | SystemExit (code : Z).

(** An exception with the text [str(e)] prints. *)
Record exn : Type := mkExn { kind : exn_kind; text : string }.

Inductive result (A : Type) : Type :=
  | Ok (a : A)
  | Raise (e : exn).
Arguments Ok {A} a.
Arguments Raise {A} e.

(** ** [pathlib] (CPython 3.11, POSIX flavour) and [posixpath] *)

(** A [PurePosixPath]: [root] is one of [""], ["/"] and ["//"]; [parts] are
    the components after the root (Python keeps the root as the first element
    of [_parts]; see [raw_parts]). *)
Record Path : Type := mkPath { root : string; parts : list string }.

(** [_PosixFlavour.splitroot] *)
Definition splitroot (part : string) : string * string :=
  if Str.startswith slash part then
    let stripped_part := Str.lstrip slash part in
    if (Str.len part - Str.len stripped_part =? 2)%nat
    then ("//"%string, stripped_part)
    else ("/"%string, stripped_part)
  else (EmptyString, part).

(** [x and x != '.'] *)
Definition is_component (x : string) : bool :=
  negb (String.eqb x "") && negb (String.eqb x ".").

(** The loop of [_Flavour.parse_parts] over [reversed(parts)]: the result is
    the root and the list [parsed] before its final reversal. *)
Fixpoint parse_loop (it : list string) : string * list string :=
  match it with
  | [] => (EmptyString, [])
  | part :: it' =>
      if String.eqb part "" then parse_loop it'
      else
        let '(rt, rel) := splitroot part in
        let here :=
          if Str.contains slash rel
          then List.filter is_component (rev (Str.split slash rel))
          else if is_component rel then [rel] else [] in
        if String.eqb rt "" then
          let '(rt', parsed) := parse_loop it' in (rt', here ++ parsed)
        else (rt, here)
  end.

Definition parse_parts (args : list string) : Path :=
  let '(rt, parsed) := parse_loop (rev args) in
  {| root := rt; parts := rev parsed |}.

(** [self._parts] *)
Definition raw_parts (p : Path) : list string :=
  if String.eqb (root p) "" then parts p else root p :: parts p.

(** [Path(s)] for a string and [Path(p)] for a path *)
Definition Path_of_str (s : string) : Path := parse_parts [s].
Definition Path_of_Path (p : Path) : Path := parse_parts (raw_parts p).

(** [str(p)] *)
Definition str (p : Path) : string :=
  let s := root p +:+ Str.join "/" (parts p) in
  if String.eqb s "" then "."%string else s.

(** [p.name] *)
Definition path_name (p : Path) : string := List.last (parts p) EmptyString.

(** The suffix of a file name, as [PurePath.suffix] computes it. *)
Definition name_suffix (nm : string) : string :=
  let i := Str.rfind dot nm in
  if (0 <? i) && (i <? Z.of_nat (Str.len nm) - 1)
  then Str.drop (Z.to_nat i) nm
  else EmptyString.

(** [p.suffix] *)
Definition path_suffix (p : Path) : string := name_suffix (path_name p).

Definition repr (s : string) : string := "'" +:+ s +:+ "'".
Definition path_repr (p : Path) : string := "PosixPath(" +:+ repr (str p) +:+ ")".

(** [p.with_name(name)] *)
Definition with_name (p : Path) (nm : string) : result Path :=
  if String.eqb (path_name p) ""
  then Raise (mkExn ValueError (path_repr p +:+ " has an empty name"))
  else
    let q := parse_parts [nm] in
    if String.eqb nm "" || Str.endswith slash nm
       || negb (String.eqb (root q) "") || negb (length (parts q) =? 1)%nat
    then Raise (mkExn ValueError ("Invalid name " +:+ repr nm))
    else Ok {| root := root p; parts := removelast (parts p) ++ [nm] |}.

(** [p.with_suffix(suffix)] *)
Definition with_suffix (p : Path) (sfx : string) : result Path :=
  if Str.contains slash sfx
  then Raise (mkExn ValueError ("Invalid suffix " +:+ repr sfx))
  else if (negb (String.eqb sfx "") && negb (Str.startswith dot sfx))
          || String.eqb sfx "."
  then Raise (mkExn ValueError ("Invalid suffix " +:+ repr sfx))
  else
    let nm := path_name p in
    if String.eqb nm ""
    then Raise (mkExn ValueError (path_repr p +:+ " has an empty name"))
    else
      let old_suffix := path_suffix p in
      let nm' :=
        if String.eqb old_suffix "" then nm +:+ sfx
        else Str.drop_last (Str.len old_suffix) nm +:+ sfx in
      Ok {| root := root p; parts := removelast (parts p) ++ [nm'] |}.

(** [p / key]: [_make_child] with [join_parsed_parts] *)
Definition truediv (p : Path) (key : string) : Path :=
  let q := parse_parts [key] in
  if negb (String.eqb (root q) "") then q
  else {| root := root p; parts := parts p ++ parts q |}.

(** [os.path.split(p)] *)
Definition os_path_split (p : string) : string * string :=
  let i := Z.to_nat (Str.rfind slash p + 1) in
  let head := Str.take i p in
  let tail := Str.drop i p in
  let head :=
    if negb (String.eqb head "")
       && negb (String.eqb head (Str.replicate (Str.len head) slash))
    then Str.rstrip slash head else head in
  (head, tail).

(** [os.path.join(a, b)] *)
Definition os_path_join (a b : string) : string :=
  if Str.startswith slash b then b
  else if String.eqb a "" || Str.endswith slash a then a +:+ b
  else a +:+ "/" +:+ b.

(** ** The file system and the process *)

(** The permission class in which the process stands towards a file. *)
Inductive cls : Type := Owner | Group | Other.

(** A regular file: its text, its permission bits (the low twelve bits of
    [st_mode]) and the class of the process towards it. *)
Record file : Type := mkFile { content : string; perm : Z; who : cls }.

(** A resolved location: whether the path is absolute, and its components. *)
Abbreviation loc := (bool * list string)%type.

Record world : Type := mkWorld {
  files : gmap loc file;   (* the regular files *)
  out : list string;       (* the lines printed so far, oldest first *)
  umask : Z                (* the process umask *)
}.

Definition set_files (w : world) (fs : gmap loc file) : world :=
  {| files := fs; out := out w; umask := umask w |}.

(** A last component that refers to a directory, not to a file. *)
Definition dir_ref (x : string) : bool :=
  String.eqb x "" || String.eqb x "." || String.eqb x "..".

(** The location a path string refers to, if it can be that of a regular
    file: empty and [.] components are skipped, and a path whose last
    component is empty, [.] or [..] refers to a directory. *)
Definition locate (p : string) : option loc :=
  let comps := Str.split slash p in
  let final := List.last comps EmptyString in
  if dir_ref final
  then None
  else Some (Str.startswith slash p, List.filter is_component comps).

Definition lookup_file (w : world) (p : string) : option file :=
  match locate p with
  | Some l => files w !! l
  | None => None
  end.

Definition S_IFREG : Z := 32768.  (* 0o100000 *)
Definition S_IEXEC : Z := 64.     (* 0o100 *)
Definition S_IMODE (mode : Z) : Z := Z.land mode 4095.  (* mode & 0o7777 *)
Definition set_id_bits : Z := 3072.  (* stat.S_ISUID | stat.S_ISGID, 0o6000 *)

(** The permission bit that class [c] needs for read (8), write (7) or
    execute (6), counted from the owner's bit. *)
Definition class_bit (owner_bit : Z) (c : cls) : Z :=
  match c with
  | Owner => owner_bit
  | Group => owner_bit - 3
  | Other => owner_bit - 6
  end.

Definition readable (f : file) : bool := Z.testbit (perm f) (class_bit 8 (who f)).
Definition writable (f : file) : bool := Z.testbit (perm f) (class_bit 7 (who f)).
Definition executable (f : file) : bool := Z.testbit (perm f) (class_bit 6 (who f)).

(** ** The monad of the script: state and exceptions *)

Definition M (A : Type) : Type := world -> result A * world.

Definition ret {A} (a : A) : M A := fun w => (Ok a, w).

Definition bind {A B} (m : M A) (k : A -> M B) : M B :=
  fun w =>
    match m w with
    | (Ok a, w') => k a w'
    | (Raise e, w') => (Raise e, w')
    end.

Definition raise {A} (k : exn_kind) (msg : string) : M A :=
  fun w => (Raise (mkExn k msg), w).

(** [try: m except <handles>: h] *)
Definition try_except {A} (m : M A) (handles : exn_kind -> bool) (h : exn -> M A) : M A :=
  fun w =>
    match m w with
    | (Raise e, w') => if handles (kind e) then h e w' else (Raise e, w')
    | r => r
    end.

Definition lift {A} (r : result A) : M A := fun w => (r, w).

Declare Scope py_scope.
Delimit Scope py_scope with py.
Notation "x <- m ;; k" := (bind m (fun x => k))
  (at level 100, m at next level, right associativity) : py_scope.
Notation "m ;;; k" := (bind m (fun _ => k))
  (at level 100, right associativity) : py_scope.
Local Open Scope py_scope.

(** [print(s)] *)
Definition print (s : string) : M unit :=
  fun w => (Ok tt, {| files := files w; out := out w ++ [s]; umask := umask w |}).

(** [sys.exit(code)] *)
Definition sys_exit {A} (code : Z) : M A := raise (SystemExit code) EmptyString.

(** [except Exception]: every exception but [SystemExit] *)
Definition is_Exception (k : exn_kind) : bool :=
  match k with SystemExit _ => false | _ => true end.

Definition errno (n : string) (what : string) (p : string) : string :=
  "[Errno " +:+ n +:+ "] " +:+ what +:+ ": " +:+ repr p.

Definition ENOENT {A} (p : string) : M A :=
  raise FileNotFoundError (errno "2" "No such file or directory" p).
Definition EACCES {A} (p : string) : M A :=
  raise PermissionError (errno "13" "Permission denied" p).
Definition EPERM {A} (p : string) : M A :=
  raise PermissionError (errno "1" "Operation not permitted" p).
Definition EISDIR {A} (p : string) : M A :=
  raise IsADirectoryError (errno "21" "Is a directory" p).

(** [os.path.exists(p)] *)
Definition os_path_exists (p : string) : M bool :=
  fun w => (Ok (bool_decide (is_Some (lookup_file w p))), w).

(** [os.access(p, os.X_OK)] *)
Definition os_access_X_OK (p : string) : M bool :=
  fun w => (Ok (match lookup_file w p with
                | Some f => executable f
                | None => false
                end), w).

(** [os.stat(p).st_mode] *)
Definition os_stat_st_mode (p : string) : M Z :=
  fun w =>
    match lookup_file w p with
    | Some f => (Ok (Z.lor S_IFREG (perm f)), w)
    | None => ENOENT p w
    end.

(** [os.chmod(p, mode)]: only the owner may change the bits *)
Definition os_chmod (p : string) (mode : Z) : M unit :=
  fun w =>
    match locate p with
    | None => ENOENT p w
    | Some l =>
        match files w !! l with
        | None => ENOENT p w
        | Some f =>
            match who f with
            | Owner =>
                (Ok tt, set_files w (<[l := {| content := content f;
                                               perm := S_IMODE mode;
                                               who := who f |}]> (files w)))
            | _ => EPERM p w
            end
        end
    end.

(** [open(p, 'rb').read()]: the characters of the file as they are stored
    (text mode is [read_text] below) *)
Definition open_read (p : string) : M string :=
  fun w =>
    match locate p with
    | None => EISDIR p w
    | Some l =>
        match files w !! l with
        | None => ENOENT p w
        | Some f => if readable f then (Ok (content f), w) else EACCES p w
        end
    end.

(** [open(p, 'wb').write(data)]: an existing file is truncated and keeps its
    bits (the set-ID bits, which the kernel clears on a write, are taken to
    be unset); a new one gets [0o666 & ~umask] and belongs to the process. *)
Definition open_write (p : string) (data : string) : M unit :=
  fun w =>
    match locate p with
    | None => EISDIR p w
    | Some l =>
        match files w !! l with
        | None =>
            (Ok tt, set_files w (<[l := {| content := data;
                                           perm := Z.land 438 (Z.lnot (umask w));
                                           who := Owner |}]> (files w)))
        | Some f =>
            if writable f
            then (Ok tt, set_files w (<[l := {| content := data;
                                                perm := perm f;
                                                who := who f |}]> (files w)))
            else EACCES p w
        end
    end.

(** [os.rename(src, dst)]: an existing destination is replaced *)
Definition os_rename (src dst : string) : M unit :=
  fun w =>
    let absent :=
      raise FileNotFoundError
        ("[Errno 2] No such file or directory: " +:+ repr src +:+ " -> " +:+ repr dst) in
    match locate src, locate dst with
    | Some ls, Some ld =>
        match files w !! ls with
        | None => absent w
        | Some f => (Ok tt, set_files w (<[ld := f]> (delete ls (files w))))
        end
    | Some ls, None =>
        match files w !! ls with
        | None => absent w
        | Some _ =>
            raise OSError
              ("[Errno 16] Device or resource busy: " +:+ repr src +:+ " -> " +:+ repr dst) w
        end
    | None, _ => absent w
    end.

(** [os.remove(p)] *)
Definition os_remove (p : string) : M unit :=
  fun w =>
    match locate p with
    | None => EISDIR p w
    | Some l =>
        match files w !! l with
        | None => ENOENT p w
        | Some _ => (Ok tt, set_files w (delete l (files w)))
        end
    end.

(** [shutil.copy(src, dst)] for a [dst] that is not a directory: [copyfile]
    then [copymode] (into a directory the copy would go under the name of
    [src]; the store has no directories) *)
Definition shutil_copy (src dst : string) : M string :=
  same <- (fun w => (Ok (match locate src, locate dst with
                         | Some ls, Some ld =>
                             bool_decide (ls = ld) && bool_decide (is_Some (files w !! ls))
                         | _, _ => false
                         end), w)) ;;
  if same : bool
  then raise SameFileError (repr src +:+ " and " +:+ repr dst +:+ " are the same file")
  else
    data <- open_read src ;;
    open_write dst data ;;;
    st_mode <- os_stat_st_mode src ;;
    os_chmod dst (S_IMODE st_mode) ;;;
    ret dst.

(** [p.read_text()], [p.write_text(data)] and [p.rename(target)]: the text
    is read with universal newlines, and written as it is (the line
    separator of the platform is the line feed) *)
Definition read_text (p : Path) : M string :=
  data <- open_read (str p) ;;
  ret (universal_newlines data).
Definition write_text (p : Path) (data : string) : M unit := open_write (str p) data.
Definition rename (p target : Path) : M Path :=
  os_rename (str p) (str target) ;;;
  ret (Path_of_Path target).

(** ** The script [pyex.py] *)

Definition SCRIPTS_DIR : string := "/home/kyle/bin/".

(** The dict [SHEBANGS], in insertion order. *)
Definition SHEBANGS : list (string * string) :=
  [ (".py", "#!/bin/python3") ; (".sh", "#!/bin/bash") ]%string.

Definition keys (d : list (string * string)) : list string := map fst d.
Definition values (d : list (string * string)) : list string := map snd d.

(** [d[k]] *)
Fixpoint getitem (d : list (string * string)) (k : string) : option string :=
  match d with
  | [] => None
  | (k', v) :: d' => if String.eqb k k' then Some v else getitem d' k
  end.

(** [x in l] *)
Definition in_list (x : string) (l : list string) : bool :=
  existsb (String.eqb x) l.

(** [l[0]] *)
Definition first_item (l : list string) : M string :=
  match l with
  | x :: _ => ret x
  | [] => raise IndexError "list index out of range"
  end.

Record FileStatus : Type := mkFileStatus {
  suffix : string;
  shebang : bool;
  exec : bool
}.

Definition get_file_text (suffix script_path : string) : M string :=
  let path := Path_of_str script_path in
  if negb (String.eqb (path_suffix path) suffix)
  then raise FileExtensionError
         ("The file does not have a " +:+ suffix +:+ " suffix.")
  else
    file_text <- read_text path ;;
    ret file_text.

Definition get_file_status (script_path : string) : M FileStatus :=
  let suffix := path_suffix (Path_of_str script_path) in
  file_text <- get_file_text suffix script_path ;;
  let lines := Str.split newline file_text in
  line0 <- first_item lines ;;
  let shebang := if in_list line0 (values SHEBANGS) then true else false in
  access <- os_access_X_OK script_path ;;
  let executable := if access then true else false in
  let file_status := mkFileStatus suffix shebang executable in
  ret file_status.

(** The message of the assertion of [add_shebang]. *)
Definition injector_message : string :=
  "An invalid suffix was received by the add_shebang() function".

Definition add_shebang (file_text suffix : string) : M (list string) :=
  if negb (in_list suffix (keys SHEBANGS))
  then raise AssertionError injector_message
  else
    let lines := Str.split newline file_text in
    match getitem SHEBANGS suffix with
    | None => raise KeyError (repr suffix)
    | Some shebang_line =>
        line0 <- first_item lines ;;
        if String.eqb line0 shebang_line
        then
          print "File already has correct shebang" ;;;
          ret lines
        else
          let new_lines := [shebang_line; EmptyString] in
          let new_line_list := new_lines ++ lines in
          ret new_line_list
    end.

Definition make_executable (script_path : string) : M Z :=
  present <- os_path_exists script_path ;;
  if negb present
  then raise FileNotFoundError "Specified file path does not exist"
  else
    access <- os_access_X_OK script_path ;;
    if access
    then
      print "File is already executable." ;;;
      ret 1
    else
      st_mode <- os_stat_st_mode script_path ;;
      returned <- try_except
                    (os_chmod script_path (Z.lor st_mode S_IEXEC) ;;; ret None)
                    is_Exception
                    (fun e =>
                       print ("Error making file executable:" +:+ nl +:+ text e) ;;;
                       ret (Some 1)) ;;
      match returned with
      | Some v => ret v
      | None => ret 0
      end.

Definition remove_suffix (file_path : string) : M string :=
  let path := Path_of_str file_path in
  if String.eqb (path_suffix path) ""
  then
    print "File already has no suffix" ;;;
    ret file_path
  else
    target <- lift (with_suffix path "") ;;
    path <- rename path target ;;
    ret (str path).

Definition copy_file (file_path destination_path : string) : M Z :=
  try_except
    (shutil_copy file_path destination_path ;;;
     ret 0)
    is_Exception
    (fun e =>
       match kind e with
       | FileNotFoundError =>
           print ("Source file " +:+ file_path +:+ " not found.") ;;;
           ret 1
       | PermissionError =>
           print ("Permission denied: unable to move " +:+ file_path +:+ ".") ;;;
           ret 1
       | _ =>
           print ("An error occurred while moving the file: " +:+ text e) ;;;
           ret 1
       end).

(** The result of [make_temp_file] is a [Path] or an [int]. *)
Definition make_temp_file (file_path : string) : M (Path + Z) :=
  let original_path := Path_of_str file_path in
  let temp_file_name := "." +:+ path_name original_path in
  temp_file_path <- lift (with_name original_path temp_file_name) ;;
  copy_result <- copy_file (str original_path) (str temp_file_path) ;;
  if negb (copy_result =? 0)
  then
    print "* Error copying file *" ;;;
    ret (inr 1)
  else ret (inl temp_file_path).

(** [not custom_name]: [None] and the empty string are false *)
Definition given (custom_name : option string) : option string :=
  match custom_name with
  | Some c => if String.eqb c "" then None else Some c
  | None => None
  end.

Definition build_final_path (path : string) (custom_name : option string) : Path :=
  match given custom_name with
  | None => Path_of_str path
  | Some custom_name =>
      let '(head, _) := os_path_split path in
      Path_of_str (os_path_join head custom_name)
  end.

(** [str(v)], [v == 0] and [v.suffix] for a value that is a [Path] or an [int] *)
Definition py_str (v : Path + Z) : string :=
  match v with
  | inl p => str p
  | inr n => DecimalString.NilZero.string_of_int (Z.to_int n)
  end.

Definition eq_zero (v : Path + Z) : bool :=
  match v with
  | inl _ => false
  | inr n => n =? 0
  end.

Definition attr_suffix (v : Path + Z) : M string :=
  match v with
  | inl p => ret (path_suffix p)
  | inr _ => raise AttributeError "'int' object has no attribute 'suffix'"
  end.

Definition run_operations (file_path : string) (custom_name : option string) : M unit :=
  temp_file_path <- make_temp_file file_path ;;
  (if eq_zero temp_file_path
   then
     print "* Error creating temp file for editing *" ;;;
     sys_exit 1
   else ret tt) ;;;
  file_status <- get_file_status (py_str temp_file_path) ;;
  file_text <- get_file_text (suffix file_status) (py_str temp_file_path) ;;
  (if negb (exec file_status)
   then
     print "Making file executable..." ;;;
     make_executable (py_str temp_file_path) ;;;
     ret tt
   else print "File already executable, skipping...") ;;;
  new_lines <-
    (if negb (shebang file_status)
     then
       new_lines <- try_except
                      (l <- add_shebang file_text (suffix file_status) ;;
                       ret (Some l))
                      (fun k => match k with AssertionError => true | _ => false end)
                      (fun e =>
                         print (text e) ;;;
                         sys_exit 0) ;;
       print "No shebang found, adding..." ;;;
       ret new_lines
     else
       print "File already has a shebang, skipping..." ;;;
       ret None) ;;
  if in_list (suffix file_status) (keys SHEBANGS)
  then
    sfx <- attr_suffix temp_file_path ;;
    print ("Removing " +:+ sfx +:+ " suffix...") ;;;
    stripped <- remove_suffix (py_str temp_file_path) ;;
    let temp_file_path := Path_of_str stripped in
    let new_file_name := Str.lstrip dot (path_name temp_file_path) in
    let combined_file_path := truediv (Path_of_str SCRIPTS_DIR) new_file_name in
    let final_file_path := build_final_path (str combined_file_path) custom_name in
    shutil_copy (str temp_file_path) (str final_file_path) ;;;
    (match new_lines with
     | Some (l :: ls) => write_text final_file_path (Str.join nl (l :: ls))
     | _ => ret tt
     end) ;;;
    os_remove (str temp_file_path) ;;;
    sys_exit 0
  else
    print (suffix file_status +:+ " files are not currently supported.").

(** The parsed command line. *)
Record Args : Type := mkArgs {
  filepath : string;
  all : bool;
  keepsuffix : bool;
  customname : option string
}.

Definition main (args : Args) : M unit :=
  present <- os_path_exists (filepath args) ;;
  if negb present
  then
    print "Specified file path does not exist" ;;;
    sys_exit 1
  else
    let sfx := path_suffix (Path_of_str (filepath args)) in
    if negb (in_list sfx (keys SHEBANGS))
    then
      print (repr sfx +:+ " is an invalid suffix, must be one of these: ["
             +:+ Str.join ", " (map repr (keys SHEBANGS)) +:+ "].") ;;;
      sys_exit 1
    else
      if all args
      then run_operations (filepath args) (customname args)
      else ret tt.

(** The exit status of the process: the code given to [sys.exit], [1] for an
    exception nobody caught, [0] when the script runs to its end. *)
Definition exit_status {A} (r : result A) : Z :=
  match r with
  | Ok _ => 0
  | Raise e => match kind e with SystemExit code => code | _ => 1 end
  end.

(** ** Well-formed paths and their locations *)

(** A path component as the parser leaves it: not empty, not [.], no slash. *)
Definition good (x : string) : Prop :=
  is_component x = true /\ Str.contains slash x = false.

(** The paths [Path(s)] builds. *)
Definition wf (p : Path) : Prop :=
  (root p = EmptyString \/ root p = "/"%string \/ root p = "//"%string)
  /\ Forall good (parts p).

(** A component that [with_suffix] may leave: not empty, no slash. *)
Definition plain (x : string) : Prop :=
  x <> EmptyString /\ Str.contains slash x = false.

Definition sound (p : Path) : Prop :=
  (root p = EmptyString \/ root p = "/"%string \/ root p = "//"%string)
  /\ Forall plain (parts p).

(** The location a well-formed path stands for. *)
Definition loc_of (p : Path) : loc :=
  (negb (String.eqb (root p) ""), parts p).

(** ** The paths of a run, and what a program may touch *)

(** The staged path [make_temp_file] copies the file to. *)
Definition staged (file_path : string) : Path :=
  let original_path := Path_of_str file_path in
  {| root := root original_path;
     parts := removelast (parts original_path)
              ++ [String dot (path_name original_path)] |}.

(** The path [remove_suffix] renames the staged file to. *)
Definition stripped (temp : Path) : Path :=
  match with_suffix temp EmptyString with
  | Ok q => q
  | Raise _ => temp
  end.

(** The value of [final_file_path] in [run_operations]. *)
Definition destination (temp : Path) (custom_name : option string) : Path :=
  let new_file_name := Str.lstrip dot (path_name (stripped temp)) in
  let combined_file_path := truediv (Path_of_str SCRIPTS_DIR) new_file_name in
  build_final_path (str combined_file_path) custom_name.






(** [w'] differs from [w] at most on the files at the locations [K]. *)
Definition preserves (K : loc -> Prop) (w w' : world) : Prop :=
  (forall k, ~ K k -> files w' !! k = files w !! k) /\ umask w' = umask w.

(** However it ends, [m] touches only files at the locations [K]. *)
Definition frames {A} (K : loc -> Prop) (m : M A) : Prop :=
  forall w r w', m w = (r, w') -> preserves K w w'.

(** [m] never ends the process: whatever it raises, [except Exception]
    catches. *)
Definition no_exit {A} (m : M A) : Prop :=
  forall w e w', m w = (Raise e, w') -> is_Exception (kind e) = true.

(** The locations a path string may refer to. *)
Definition at_path (p : string) : loc -> Prop := fun k => locate p = Some k.
Definition nowhere : loc -> Prop := fun _ => False.

(** [m] prints nothing, however it ends. *)
Definition quiet {A} (m : M A) : Prop :=
  forall w r w', m w = (r, w') -> out w' = out w.

(** [m] ends the process only through [sys.exit(0)]. *)
Definition exits_zero {A} (m : M A) : Prop :=
  forall w e w', m w = (Raise e, w') ->
    is_Exception (kind e) = true \/ e = mkExn (SystemExit 0) EmptyString.

(** ** Values the statements name, and the worlds of the examples *)

(** The mode [make_executable] hands to [os.chmod], as the file keeps it. *)
Definition with_exec (f : file) : file :=
  {| content := content f;
     perm := S_IMODE (Z.lor (Z.lor S_IFREG (perm f)) S_IEXEC);
     who := who f |}.

(** The copy [shutil.copy] makes at a free location: the text and the
    permission bits of the source, owned by the process. *)
Definition copy_of (f : file) : file :=
  {| content := content f; perm := S_IMODE (Z.lor S_IFREG (perm f)); who := Owner |}.

(** The text a run installs for a file with suffix [sfx] that holds [text]:
    the text as it is stored when its first line, as text mode reads it, is
    a directive of the table, and otherwise the directive of [sfx], an empty
    line and the lines text mode reads. *)
Definition installed_text (sfx text : string) : string :=
  let lines := Str.split newline (universal_newlines text) in
  if in_list (hd EmptyString lines) (values SHEBANGS) then text
  else match getitem SHEBANGS sfx with
       | Some directive => Str.join nl (directive :: EmptyString :: lines)
       | None => text
       end.

(** The staged copy of [f] once it is executable: the text of [f], its
    permission bits with the owner's execute bit, owned by the process. *)
Definition made_executable (f : file) : file :=
  {| content := content f;
     perm := Z.lor (Z.land (perm f) 4095) S_IEXEC;
     who := Owner |}.

(** The file a run installs for a script [f] with suffix [sfx] and no
    set-ID bit: the characters of [f] as they are stored when the first line
    that text mode reads is a directive of the table, and otherwise the
    directive of [sfx], an empty line and the text that text mode reads. *)
Definition installed (sfx : string) (f : file) : file :=
  {| content :=
       (if in_list (hd EmptyString
                      (Str.split newline (universal_newlines (content f))))
             (values SHEBANGS)
        then content f
        else match getitem SHEBANGS sfx with
             | Some directive =>
                 directive +:+ nl +:+ nl +:+ universal_newlines (content f)
             | None => content f
             end);
     perm := Z.lor (Z.land (perm f) 4095) S_IEXEC;
     who := Owner |}.

(** No file, nothing printed, umask 022. *)
Definition world_empty : world := {| files := ∅; out := []; umask := 18 |}.

(** The worlds of the examples: files given by their path strings. *)
Definition world_of (l : list (string * file)) : world :=
  {| files := list_to_map
                (omap (fun '(p, f) =>
                         match locate p with
                         | Some k => Some (k, f)
                         | None => None
                         end) l);
     out := [];
     umask := 18 |}.

(** A script that is neither executable nor marked as one. *)
Definition script_644 : file :=
  {| content := "print(1)"; perm := 420; who := Owner |}.
Definition world_script : world := world_of [("/tmp/tool.py"%string, script_644)].

(** A Python file whose first line is the shell directive. *)
Definition world_bash_py : world :=
  world_of [("x.py"%string,
             {| content := "#!/bin/bash" +:+ nl +:+ "echo hi";
                perm := 420; who := Owner |})].

(** A Python file with the shell directive and DOS line ends. *)
(** A script with the line ends of another platform: a carriage return
    and a line feed. *)
Definition crlf : string := String carriage_return nl.
Definition world_crlf : world :=
  world_of [("x.py"%string,
             {| content := "#!/bin/bash" +:+ crlf +:+ "echo hi" +:+ crlf;
                perm := 420; who := Owner |})].

(** A script without directive whose lines end in a carriage return and a
    line feed. *)
Definition script_crlf : file :=
  {| content := "print(1)" +:+ crlf +:+ "print(2)" +:+ crlf; perm := 420; who := Owner |}.
Definition world_script_crlf : world :=
  world_of [("/tmp/tool.py"%string, script_crlf)].

(** A text file with a suffix the table does not have. *)
Definition world_notes : world :=
  world_of [("notes.txt"%string,
             {| content := "remember the milk"; perm := 420; who := Owner |})].

(** A script that cannot be read, next to a file named [1]. *)
Definition world_locked : world :=
  world_of [("a.py"%string, {| content := "print(1)"; perm := 0; who := Owner |});
            ("1"%string, {| content := "hello"; perm := 420; who := Owner |})].

(** A script named with a leading [./]. *)
Definition world_dot_slash : world :=
  world_of [("./a.py"%string, script_644)].



(** A script that belongs to another user, who lets everyone read it. *)
Definition world_foreign : world :=
  world_of [("/tmp/tool.py"%string,
             {| content := "print(1)"; perm := 420; who := Other |})].


(** A script next to a file of another user that the process may write. *)
Definition world_shared : world :=
  world_of [("a.py"%string, script_644);
            ("b"%string, {| content := "old"; perm := 436; who := Group |})].

(** A text file whose first line is the shell directive. *)
Definition world_directive_txt : world :=
  world_of [("notes.txt"%string,
             {| content := "#!/bin/bash" +:+ nl +:+ "echo hi";
                perm := 420; who := Owner |})].

(** * Properties *)

(** ** Strings *)

Module StrFacts.
Import Str.

#[local] Arguments String.app !_ _ / : simpl nomatch.

Lemma len_app s t : len (s +:+ t) = (len s + len t)%nat.
Proof. induction s as [|a s IH]; simpl; [reflexivity | now rewrite IH]. Qed.

Lemma append_nil_r s : s +:+ "" = s.
Proof. induction s as [|a s IH]; simpl; [reflexivity | now rewrite IH]. Qed.

Lemma append_assoc s t u : (s +:+ t) +:+ u = s +:+ t +:+ u.
Proof. induction s as [|a s IH]; simpl; [reflexivity | now rewrite IH]. Qed.

Lemma take_drop n s : take n s +:+ drop n s = s.
Proof.
  revert s; induction n as [|n IH]; intros [|a s]; simpl; try reflexivity.
  now rewrite IH.
Qed.

Lemma len_drop n s : len (drop n s) = (len s - n)%nat.
Proof.
  revert s; induction n as [|n IH]; intros [|a s]; simpl; try reflexivity.
  apply IH.
Qed.

Lemma len_take n s : (n <= len s)%nat -> len (take n s) = n.
Proof.
  revert s; induction n as [|n IH]; intros [|a s]; simpl; intros H;
    try reflexivity; try lia.
  rewrite IH; lia.
Qed.

Lemma take_app s t : take (len s) (s +:+ t) = s.
Proof. induction s as [|a s IH]; simpl; [now destruct t | now rewrite IH]. Qed.

Lemma len_0 s : len s = O -> s = "".
Proof. now destruct s. Qed.

Lemma contains_app c s t : contains c (s +:+ t) = contains c s || contains c t.
Proof.
  induction s as [|a s IH]; simpl; [reflexivity|].
  now rewrite IH, orb_assoc.
Qed.

Lemma contains_take c n s : contains c s = false -> contains c (take n s) = false.
Proof.
  intros H. rewrite <- (take_drop n s), contains_app in H.
  now apply orb_false_iff in H.
Qed.

Lemma contains_drop c n s : contains c s = false -> contains c (drop n s) = false.
Proof.
  intros H. rewrite <- (take_drop n s), contains_app in H.
  now apply orb_false_iff in H.
Qed.

Lemma startswith_contains c s : startswith c s = true -> contains c s = true.
Proof. destruct s as [|a s]; simpl; [discriminate | now intros ->]. Qed.

(** [rfind] *)

Lemma rfind_bounds c s : -1 <= rfind c s < Z.of_nat (len s).
Proof.
  induction s as [|a s IH]; simpl len; simpl rfind; [lia|].
  destruct (0 <=? rfind c s) eqn:E; [apply Z.leb_le in E; lia|].
  destruct (Ascii.eqb a c); lia.
Qed.

Lemma rfind_none c s : rfind c s = -1 <-> contains c s = false.
Proof.
  induction s as [|a s IH]; simpl; [tauto|].
  pose proof (rfind_bounds c s) as B.
  destruct (0 <=? rfind c s) eqn:E.
  - apply Z.leb_le in E. split; [lia|].
    intros H. apply orb_false_iff in H. destruct H as [_ H].
    apply IH in H. lia.
  - apply Z.leb_gt in E. assert (rfind c s = -1) as R by lia.
    apply IH in R. rewrite R, orb_false_r.
    destruct (Ascii.eqb a c); split; intros; try reflexivity; try discriminate; lia.
Qed.

(** The text after the last [c] has no [c]. *)
Lemma rfind_drop c s :
  0 <= rfind c s -> contains c (drop (S (Z.to_nat (rfind c s))) s) = false.
Proof.
  induction s as [|a s IH]; simpl rfind; [lia|].
  pose proof (rfind_bounds c s) as B.
  destruct (0 <=? rfind c s) eqn:E.
  - apply Z.leb_le in E. intros _.
    replace (Z.to_nat (rfind c s + 1)) with (S (Z.to_nat (rfind c s))) by lia.
    simpl. now apply IH.
  - apply Z.leb_gt in E. assert (rfind c s = -1) as R by lia.
    apply rfind_none in R.
    destruct (Ascii.eqb a c); [intros _; simpl; now destruct s | lia].
Qed.

(** [s[i:]] starts with [c] when [i] is the last occurrence of [c]. *)
Lemma rfind_startswith c s :
  0 <= rfind c s -> startswith c (drop (Z.to_nat (rfind c s)) s) = true.
Proof.
  induction s as [|a s IH]; simpl rfind; [lia|].
  destruct (0 <=? rfind c s) eqn:E.
  - apply Z.leb_le in E. intros _.
    replace (Z.to_nat (rfind c s + 1)) with (S (Z.to_nat (rfind c s))) by lia.
    simpl. now apply IH.
  - destruct (Ascii.eqb a c) eqn:A; [intros _; simpl; exact A | lia].
Qed.

(** [lstrip] *)

Lemma lstrip_not_startswith c s : startswith c (lstrip c s) = false.
Proof.
  induction s as [|a s IH]; simpl; [reflexivity|].
  destruct (Ascii.eqb a c) eqn:A; [exact IH | simpl; exact A].
Qed.

Lemma lstrip_id c s : startswith c s = false -> lstrip c s = s.
Proof. destruct s as [|a s]; simpl; [reflexivity | now intros ->]. Qed.

Lemma lstrip_len c s : (len (lstrip c s) <= len s)%nat.
Proof.
  induction s as [|a s IH]; simpl; [lia|].
  destruct (Ascii.eqb a c); simpl; lia.
Qed.

Lemma lstrip_replicate c n s :
  startswith c s = false -> lstrip c (replicate n c +:+ s) = s.
Proof.
  intros H. induction n as [|n IH]; simpl.
  - now apply lstrip_id.
  - now rewrite Ascii.eqb_refl.
Qed.

(** A string is some copies of [c] followed by its [lstrip]. *)
Lemma lstrip_split c s :
  s = replicate (len s - len (lstrip c s)) c +:+ lstrip c s.
Proof.
  induction s as [|a s IH]; simpl; [reflexivity|].
  pose proof (lstrip_len c s) as L.
  destruct (Ascii.eqb a c) eqn:A.
  - apply Ascii.eqb_eq in A; subst a.
    replace (S (len s) - len (lstrip c s))%nat
      with (S (len s - len (lstrip c s))) by lia.
    simpl. now rewrite <- IH.
  - simpl. now rewrite Nat.sub_diag.
Qed.

(** [split] and [join] *)

Lemma split_not_nil c s : split c s <> [].
Proof.
  destruct s as [|a s]; simpl; [discriminate|].
  destruct (Ascii.eqb a c); [discriminate|].
  destruct (split c s); discriminate.
Qed.

Lemma split_cons c s : exists x l, split c s = x :: l.
Proof.
  pose proof (split_not_nil c s) as H.
  destruct (split c s) as [|x l]; [congruence | eauto].
Qed.

Lemma split_no_sep c s : contains c s = false -> split c s = [s].
Proof.
  induction s as [|a s IH]; simpl; [reflexivity|].
  intros H. apply orb_false_iff in H. destruct H as [A H].
  rewrite A, (IH H). reflexivity.
Qed.

Lemma split_pieces c s : Forall (fun x => contains c x = false) (split c s).
Proof.
  induction s as [|a s IH]; simpl; [repeat constructor|].
  destruct (Ascii.eqb a c) eqn:A; [constructor; [reflexivity | exact IH]|].
  destruct (split c s) as [|x l]; [repeat constructor; simpl; now rewrite A|].
  inversion IH; subst. constructor; [simpl; now rewrite A | assumption].
Qed.

Lemma split_app_sep c s t :
  contains c s = false -> split c (s +:+ String c t) = s :: split c t.
Proof.
  induction s as [|a s IH]; simpl.
  - intros _. now rewrite Ascii.eqb_refl.
  - intros H. apply orb_false_iff in H. destruct H as [A H].
    rewrite A, (IH H). reflexivity.
Qed.

Lemma split_join c l :
  l <> [] -> Forall (fun x => contains c x = false) l ->
  split c (join (String c "") l) = l.
Proof.
  induction l as [|x l IH]; [congruence|].
  intros _ H. inversion H as [|? ? Hx Hl]; subst.
  destruct l as [|y l].
  - simpl. now apply split_no_sep.
  - change (join (String c "") (x :: y :: l))
      with (x +:+ String c (join (String c "") (y :: l))).
    rewrite split_app_sep by assumption.
    f_equal. apply IH; [discriminate | assumption].
Qed.

Lemma split_replicate c n s :
  split c (replicate n c +:+ s) = List.repeat "" n ++ split c s.
Proof.
  induction n as [|n IH]; simpl; [reflexivity|].
  now rewrite Ascii.eqb_refl, IH.
Qed.

Lemma join_snoc sep l x y :
  join sep (l ++ [x]) +:+ y = join sep (l ++ [x +:+ y]).
Proof.
  induction l as [|z l IH]; simpl; [reflexivity|].
  destruct (l ++ [x]) as [|u l1] eqn:E1; [now destruct l|].
  destruct (l ++ [x +:+ y]) as [|v l2] eqn:E2; [now destruct l|].
  rewrite !append_assoc. now rewrite IH.
Qed.

Lemma join_cons sep x y l :
  join sep (x :: y :: l) = x +:+ sep +:+ join sep (y :: l).
Proof. reflexivity. Qed.

Lemma startswith_app c s t :
  s <> "" -> startswith c (s +:+ t) = startswith c s.
Proof. destruct s; [congruence | reflexivity]. Qed.

Lemma startswith_join c sep x l :
  x <> "" -> startswith c (join sep (x :: l)) = startswith c x.
Proof.
  intros H. destruct l; [reflexivity|].
  rewrite join_cons. now apply startswith_app.
Qed.

End StrFacts.

(** ** Paths *)

Module PathFacts.
Import Str StrFacts.

#[local] Arguments String.app !_ _ / : simpl nomatch.

Lemma filter_repeat_empty n l :
  List.filter is_component (List.repeat "" n ++ l) = List.filter is_component l.
Proof. induction n as [|n IH]; simpl; [reflexivity | exact IH]. Qed.

Lemma filter_good l : Forall good l -> List.filter is_component l = l.
Proof.
  induction 1 as [|x l [Hx _] _ IH]; simpl; [reflexivity|].
  now rewrite Hx, IH.
Qed.

Lemma good_filter_split s : Forall good (List.filter is_component (split slash s)).
Proof.
  pose proof (split_pieces slash s) as H.
  induction H as [|x l Hx _ IH]; simpl; [constructor|].
  destruct (is_component x) eqn:E; [constructor; [split|]|]; assumption.
Qed.

Lemma good_not_startswith x : good x -> startswith slash x = false.
Proof.
  intros [_ H]. destruct (startswith slash x) eqn:E; [|reflexivity].
  apply startswith_contains in E. congruence.
Qed.

Lemma good_not_empty x : good x -> x <> "".
Proof. intros [H _] ->. discriminate. Qed.

Lemma good_not_dot x : good x -> x <> ".".
Proof. intros [H _] ->. discriminate. Qed.

(** What [Path(s)] holds. *)

Lemma splitroot_rel s :
  s = replicate (len s - len (snd (splitroot s))) slash +:+ snd (splitroot s)
  /\ startswith slash (snd (splitroot s)) = false.
Proof.
  unfold splitroot. destruct (startswith slash s) eqn:E.
  - assert (snd (if (len s - len (lstrip slash s) =? 2)%nat
                 then ("//", lstrip slash s) else ("/", lstrip slash s))
            = lstrip slash s) as -> by now destruct (_ =? _)%nat.
    split; [apply lstrip_split | apply lstrip_not_startswith].
  - simpl. rewrite Nat.sub_diag. split; [reflexivity | exact E].
Qed.

Lemma parts_of_str s :
  parts (Path_of_str s) = List.filter is_component (split slash s).
Proof.
  unfold Path_of_str, parse_parts. simpl rev. simpl parse_loop.
  destruct (String.eqb s "") eqn:Es.
  - apply String.eqb_eq in Es; subst s. reflexivity.
  - destruct (splitroot_rel s) as [Hs _].
    destruct (splitroot s) as [rt rel] eqn:Er. simpl snd in Hs.
    rewrite Hs at 1. rewrite split_replicate, filter_repeat_empty.
    assert (rev (if contains slash rel
                 then List.filter is_component (rev (split slash rel))
                 else if is_component rel then [rel] else [])
            = List.filter is_component (split slash rel)) as Hhere.
    { destruct (contains slash rel) eqn:Ec.
      - rewrite List.filter_rev, rev_involutive. reflexivity.
      - rewrite (split_no_sep _ _ Ec). simpl.
        destruct (is_component rel); reflexivity. }
    destruct (String.eqb rt ""); simpl; rewrite ?app_nil_r; exact Hhere.
Qed.

Lemma root_of_str s : root (Path_of_str s) = fst (splitroot s).
Proof.
  unfold Path_of_str, parse_parts. simpl rev. simpl parse_loop.
  destruct (String.eqb s "") eqn:Es.
  - apply String.eqb_eq in Es; subst s. reflexivity.
  - destruct (splitroot s) as [rt rel] eqn:Er.
    destruct (String.eqb rt "") eqn:Ert; simpl; [|reflexivity].
    now apply String.eqb_eq in Ert.
Qed.

Lemma splitroot_root s :
  (fst (splitroot s) = "" /\ startswith slash s = false)
  \/ ((fst (splitroot s) = "/" \/ fst (splitroot s) = "//")
      /\ startswith slash s = true).
Proof.
  unfold splitroot. destruct (startswith slash s); [right | left; now split].
  split; [|reflexivity]. destruct (_ =? _)%nat; simpl; auto.
Qed.

Lemma root_empty_iff s :
  String.eqb (root (Path_of_str s)) "" = negb (startswith slash s).
Proof.
  rewrite root_of_str.
  destruct (splitroot_root s) as [[-> ->]|[[-> | ->] ->]]; reflexivity.
Qed.

Lemma wf_of_str s : wf (Path_of_str s).
Proof.
  split.
  - rewrite root_of_str.
    destruct (splitroot_root s) as [[-> _]|[[-> | ->] _]]; auto.
  - rewrite parts_of_str. apply good_filter_split.
Qed.

Lemma loc_of_str s :
  loc_of (Path_of_str s)
  = (startswith slash s, List.filter is_component (split slash s)).
Proof.
  unfold loc_of. rewrite root_empty_iff, negb_involutive, parts_of_str.
  reflexivity.
Qed.

(** What [str(p)] is, and how it reads back. *)

Lemma join_not_empty x l : x <> "" -> join "/" (x :: l) <> "".
Proof.
  intros Hx. destruct l; simpl; [exact Hx|].
  destruct x; [congruence | discriminate].
Qed.

Lemma good_plain x : good x -> plain x.
Proof. intros Hx. split; [now apply good_not_empty | apply Hx]. Qed.

Lemma wf_sound p : wf p -> sound p.
Proof.
  intros [Hr Hg]. split; [exact Hr|].
  eapply Forall_impl; [exact Hg | apply good_plain].
Qed.

Lemma plain_not_startswith x : plain x -> startswith slash x = false.
Proof.
  intros [_ H]. destruct (startswith slash x) eqn:E; [|reflexivity].
  apply startswith_contains in E. congruence.
Qed.

Lemma str_parts p x l :
  parts p = x :: l -> plain x -> str p = root p +:+ join "/" (x :: l).
Proof.
  intros Hp Hx. unfold str. rewrite Hp.
  destruct (String.eqb (root p +:+ join "/" (x :: l)) "") eqn:E; [|reflexivity].
  apply String.eqb_eq in E. exfalso.
  apply (join_not_empty x l (proj1 Hx)).
  destruct (root p); [exact E | discriminate].
Qed.

Lemma read_str p x l :
  sound p -> parts p = x :: l ->
  exists n,
    split slash (str p) = List.repeat "" n ++ parts p
    /\ startswith slash (str p) = negb (String.eqb (root p) "")
    /\ fst (splitroot (str p)) = root p.
Proof.
  intros [Hr Hg] Hp. rewrite Hp in Hg.
  assert (plain x) as Hx by now inversion Hg.
  rewrite (str_parts p x l Hp Hx), Hp.
  assert (Forall (fun y => contains slash y = false) (x :: l)) as Hns.
  { eapply Forall_impl; [exact Hg|]. now intros y [_ Hy]. }
  assert (startswith slash (join "/" (x :: l)) = false) as Hsw.
  { rewrite startswith_join by apply Hx.
    now apply plain_not_startswith. }
  pose proof (split_join slash (x :: l) ltac:(discriminate) Hns) as Hsj.
  change (String slash "") with "/"%string in Hsj.
  destruct Hr as [-> | [-> | ->]].
  - change ("" +:+ join "/" (x :: l)) with (join "/" (x :: l)).
    exists O. rewrite Hsj. repeat split; [exact Hsw|].
    unfold splitroot. now rewrite Hsw.
  - exists 1%nat. set (J := join "/" (x :: l)) in *.
    change ("/" +:+ J) with (replicate 1 slash +:+ J).
    rewrite split_replicate, Hsj. repeat split.
    unfold splitroot. rewrite (lstrip_replicate slash 1 J Hsw), len_app.
    simpl. replace (S (len J) - len J)%nat with 1%nat by lia. reflexivity.
  - exists 2%nat. set (J := join "/" (x :: l)) in *.
    change ("//" +:+ J) with (replicate 2 slash +:+ J).
    rewrite split_replicate, Hsj. repeat split.
    unfold splitroot. rewrite (lstrip_replicate slash 2 J Hsw), len_app.
    simpl. replace (S (S (len J)) - len J)%nat with 2%nat by lia. reflexivity.
Qed.

Lemma path_ext p q : root p = root q -> parts p = parts q -> p = q.
Proof. destruct p, q; simpl; now intros -> ->. Qed.

(** [Path(str(p)) == p] *)
Lemma Path_of_str_str p : wf p -> Path_of_str (str p) = p.
Proof.
  intros Hwf. destruct (parts p) as [|x l] eqn:Hp.
  - destruct Hwf as [Hr _]. destruct p as [r ps]; simpl in *; subst ps.
    destruct Hr as [-> | [-> | ->]]; reflexivity.
  - destruct (read_str p x l (wf_sound p Hwf) Hp) as (n & Hs & _ & Hrt).
    apply path_ext.
    + now rewrite root_of_str.
    + rewrite parts_of_str, Hs, filter_repeat_empty.
      apply filter_good, Hwf.
Qed.

(** [str(Path(s))] is a fixed point of the normalisation. *)
Lemma str_normal s : str (Path_of_str (str (Path_of_str s))) = str (Path_of_str s).
Proof. now rewrite Path_of_str_str by apply wf_of_str. Qed.

Lemma parse_loop_good l :
  Forall good l -> parse_loop l = ("", l).
Proof.
  induction 1 as [|x l Hx _ IH]; [reflexivity|].
  simpl. destruct (String.eqb x "") eqn:E.
  { apply String.eqb_eq in E. now apply good_not_empty in Hx. }
  unfold splitroot. rewrite (good_not_startswith _ Hx).
  destruct Hx as [Hc Hs]. rewrite Hs, Hc, IH. reflexivity.
Qed.

Lemma parse_loop_app l1 l2 :
  Forall good l1 ->
  parse_loop (l1 ++ l2) = (fst (parse_loop l2), l1 ++ snd (parse_loop l2)).
Proof.
  induction 1 as [|x l Hx _ IH]; simpl.
  { now destruct (parse_loop l2). }
  destruct (String.eqb x "") eqn:E.
  { apply String.eqb_eq in E. now apply good_not_empty in Hx. }
  unfold splitroot. rewrite (good_not_startswith _ Hx).
  destruct Hx as [Hc Hs]. rewrite Hs, Hc, IH. reflexivity.
Qed.

(** [Path(p) == p] *)
Lemma Path_of_Path_id p : wf p -> Path_of_Path p = p.
Proof.
  intros [Hr Hg]. unfold Path_of_Path, parse_parts, raw_parts.
  assert (Forall good (rev (parts p))) as Hrev.
  { now apply List.Forall_rev. }
  destruct p as [r ps]; simpl in *.
  destruct Hr as [-> | [-> | ->]].
  - simpl. rewrite (parse_loop_good _ Hrev), rev_involutive. reflexivity.
  - simpl String.eqb. cbv iota. simpl rev.
    rewrite (parse_loop_app _ _ Hrev). simpl.
    now rewrite List.app_nil_r, rev_involutive.
  - simpl String.eqb. cbv iota. simpl rev.
    rewrite (parse_loop_app _ _ Hrev). simpl.
    now rewrite List.app_nil_r, rev_involutive.
Qed.

(** The location of [str(p)]. *)

Lemma last_repeat_app n (l : list string) d :
  l <> [] -> List.last (List.repeat "" n ++ l) d = List.last l d.
Proof.
  intros Hl. induction n as [|n IH]; [reflexivity|].
  simpl. destruct (List.repeat "" n ++ l) eqn:E; [|exact IH].
  destruct n; simpl in E; [congruence | discriminate].
Qed.

Lemma good_name p : wf p -> parts p <> [] -> good (path_name p).
Proof.
  intros [_ Hg] Hne. unfold path_name.
  destruct (exists_last Hne) as (l & a & E). rewrite E in *.
  rewrite last_last. apply Forall_app in Hg. destruct Hg as [_ Hg].
  now inversion Hg.
Qed.

Lemma locate_sound p :
  sound p -> parts p <> [] ->
  locate (str p)
  = if dir_ref (path_name p) then None
    else Some (negb (String.eqb (root p) ""), List.filter is_component (parts p)).
Proof.
  intros Hs Hne. destruct (parts p) as [|x l] eqn:Hp; [congruence|].
  destruct (read_str p x l Hs Hp) as (n & Hsp & Hsw & _).
  unfold locate. rewrite Hsp, Hsw, filter_repeat_empty.
  rewrite last_repeat_app by (rewrite Hp; discriminate).
  unfold dir_ref, path_name. rewrite Hp. reflexivity.
Qed.

Lemma locate_str p :
  wf p -> parts p <> [] -> path_name p <> ".." ->
  locate (str p) = Some (loc_of p).
Proof.
  intros Hwf Hne Hdd. rewrite (locate_sound p (wf_sound p Hwf) Hne).
  pose proof (good_name p Hwf Hne) as Hl. unfold dir_ref.
  destruct (String.eqb (path_name p) "") eqn:E1.
  { apply String.eqb_eq in E1. now apply good_not_empty in Hl. }
  destruct (String.eqb (path_name p) ".") eqn:E2.
  { apply String.eqb_eq in E2. now apply good_not_dot in Hl. }
  destruct (String.eqb (path_name p) "..") eqn:E3.
  { apply String.eqb_eq in E3. congruence. }
  simpl. unfold loc_of. now rewrite (filter_good _ (proj2 Hwf)).
Qed.

(** A path string that names a file names the same file after
    normalisation by [Path]. *)
Lemma locate_normal s l :
  locate s = Some l ->
  l = loc_of (Path_of_str s) /\ locate (str (Path_of_str s)) = Some l.
Proof.
  unfold locate, dir_ref. intros H.
  destruct (String.eqb (List.last (split slash s) "") "") eqn:E1; [discriminate|].
  destruct (String.eqb (List.last (split slash s) "") ".") eqn:E2; [discriminate|].
  destruct (String.eqb (List.last (split slash s) "") "..") eqn:E3; [discriminate|].
  simpl in H. injection H as <-.
  rewrite <- loc_of_str.
  assert (List.last (parts (Path_of_str s)) "" = List.last (split slash s) "") as Hlast.
  { rewrite parts_of_str.
    destruct (split_cons slash s) as (x & l & Hxl). rewrite Hxl in *.
    assert (x :: l <> []) as Hne by discriminate.
    destruct (exists_last Hne) as (l' & a & Ha). rewrite Ha in *.
    rewrite last_last in *. rewrite List.filter_app. simpl.
    unfold is_component. rewrite E1, E2. simpl. now rewrite last_last. }
  split; [reflexivity|].
  fold (locate (str (Path_of_str s))).
  apply locate_str.
  - apply wf_of_str.
  - intros Hnil. rewrite Hnil in Hlast. simpl in Hlast.
    rewrite <- Hlast in E1. discriminate.
  - unfold path_name. rewrite Hlast. intros Hdd. rewrite Hdd in E3. discriminate.
Qed.
(** File names, suffixes and the staged name. *)

Lemma endswith_contains c s : endswith c s = true -> contains c s = true.
Proof.
  induction s as [|a s IH]; simpl; [discriminate|].
  destruct s as [|b s]; [now intros -> | intros H].
  rewrite (IH H). apply orb_true_r.
Qed.

Lemma Path_of_str_good y : good y -> Path_of_str y = {| root := ""; parts := [y] |}.
Proof.
  intros Hy. apply path_ext; simpl.
  - rewrite root_of_str. unfold splitroot.
    now rewrite (good_not_startswith _ Hy).
  - rewrite parts_of_str, (split_no_sep _ _ (proj2 Hy)). simpl.
    now rewrite (proj1 Hy).
Qed.


Lemma good_dot n : good n -> good (String dot n).
Proof.
  intros Hn. pose proof (good_not_empty _ Hn) as Hne.
  destruct Hn as [_ Hs]. split; [|exact Hs].
  destruct n; [congruence | reflexivity].
Qed.

Lemma parts_removelast p : parts p <> [] -> parts p = removelast (parts p) ++ [path_name p].
Proof. intros H. unfold path_name. now apply app_removelast_last. Qed.

Lemma good_removelast l : Forall good l -> Forall good (removelast l).
Proof.
  intros H. destruct l as [|x l] using rev_ind; [constructor|].
  rewrite removelast_last. apply Forall_app in H. tauto.
Qed.

(** The staged path: the same directory, the name with a dot before it. *)
Lemma with_name_dot p :
  wf p -> parts p <> [] ->
  with_name p ("." +:+ path_name p)
  = Ok {| root := root p;
          parts := removelast (parts p) ++ [String dot (path_name p)] |}.
Proof.
  intros Hwf Hne. pose proof (good_name p Hwf Hne) as Hn.
  pose proof (good_dot _ Hn) as Hd.
  unfold with_name.
  destruct (String.eqb (path_name p) "") eqn:E.
  { apply String.eqb_eq in E. now apply good_not_empty in Hn. }
  change ("." +:+ path_name p) with (String dot (path_name p)).
  fold (Path_of_str (String dot (path_name p))).
  rewrite (Path_of_str_good _ Hd).
  assert (endswith slash (String dot (path_name p)) = false) as Ee.
  { destruct (endswith slash (String dot (path_name p))) eqn:Ee; [|reflexivity].
    apply endswith_contains in Ee. destruct Hd as [_ Hd]. congruence. }
  rewrite Ee. reflexivity.
Qed.

Lemma wf_snoc p x :
  wf p -> good x -> wf {| root := root p; parts := removelast (parts p) ++ [x] |}.
Proof.
  intros [Hr Hg] Hx. split; [exact Hr|]. simpl.
  apply Forall_app. split; [now apply good_removelast | now constructor].
Qed.

Lemma name_snoc r l x : path_name {| root := r; parts := l ++ [x] |} = x.
Proof. unfold path_name. simpl. apply last_last. Qed.

(** The suffix of a name and what is left of it. *)
Lemma name_suffix_split nm :
  name_suffix nm <> "" ->
  let i := Z.to_nat (rfind dot nm) in
  (0 < i)%nat /\ (2 <= len (name_suffix nm))%nat
  /\ name_suffix nm = drop i nm
  /\ drop_last (len (name_suffix nm)) nm = take i nm
  /\ take i nm +:+ name_suffix nm = nm
  /\ take i nm <> "".
Proof.
  unfold name_suffix. pose proof (rfind_bounds dot nm) as B.
  destruct ((0 <? rfind dot nm) && (rfind dot nm <? Z.of_nat (len nm) - 1)) eqn:E;
    [|congruence].
  apply andb_true_iff in E. destruct E as [E1 E2].
  apply Z.ltb_lt in E1. apply Z.ltb_lt in E2. intros _.
  set (i := Z.to_nat (rfind dot nm)).
  assert (0 < i < len nm - 1)%nat as Hi by (unfold i; lia).
  unfold drop_last. rewrite !len_drop.
  replace (len nm - (len nm - i))%nat with i by lia.
  repeat split; try lia.
  - apply take_drop.
  - intros Hz. apply (f_equal len) in Hz. rewrite len_take in Hz by lia.
    simpl in Hz. lia.
Qed.

(** A dot before a name that has a suffix leaves the suffix as it is. *)
Lemma name_suffix_dot nm :
  name_suffix nm <> "" ->
  name_suffix (String dot nm) = name_suffix nm
  /\ take (Z.to_nat (rfind dot (String dot nm))) (String dot nm)
     = String dot (take (Z.to_nat (rfind dot nm)) nm).
Proof.
  intros H. unfold name_suffix in *. pose proof (rfind_bounds dot nm) as B.
  destruct ((0 <? rfind dot nm) && (rfind dot nm <? Z.of_nat (len nm) - 1)) eqn:E;
    [|congruence].
  apply andb_true_iff in E. destruct E as [E1 E2].
  apply Z.ltb_lt in E1. apply Z.ltb_lt in E2.
  assert (rfind dot (String dot nm) = rfind dot nm + 1) as R.
  { simpl. destruct (0 <=? rfind dot nm) eqn:E0; [reflexivity|].
    apply Z.leb_gt in E0. lia. }
  rewrite R. simpl len.
  replace ((0 <? rfind dot nm + 1)
           && (rfind dot nm + 1 <? Z.of_nat (S (len nm)) - 1)) with true
    by (symmetry; apply andb_true_iff; split; apply Z.ltb_lt; lia).
  replace (Z.to_nat (rfind dot nm + 1)) with (S (Z.to_nat (rfind dot nm))) by lia.
  split; reflexivity.
Qed.

End PathFacts.

(** ** The Directive Injector and the Status Inspector *)

Lemma getitem_keys d k v : getitem d k = Some v -> in_list k (keys d) = true.
Proof.
  induction d as [|[k' v'] d IH]; simpl; [discriminate|].
  destruct (String.eqb k k'); [reflexivity | exact IH].
Qed.

Lemma in_list_In x l : in_list x l = true <-> In x l.
Proof.
  unfold in_list. rewrite existsb_exists. split.
  - intros (y & Hy & E). apply String.eqb_eq in E. now subst.
  - intros H. exists x. split; [exact H | apply String.eqb_refl].
Qed.

Lemma first_item_split s w :
  first_item (Str.split newline s) w = (Ok (hd EmptyString (Str.split newline s)), w).
Proof.
  destruct (StrFacts.split_cons newline s) as (x & l & ->). reflexivity.
Qed.

(** C2: for a suffix of the table, [add_shebang] returns the lines of the
    text unchanged (and says so) when the first line is the suffix's
    directive, and otherwise the directive, one empty line and then the lines
    of the text as they were; it touches no file. *)
Theorem add_shebang_spec (file_text sfx directive : string) (w : world) :
  getitem SHEBANGS sfx = Some directive ->
  let lines := Str.split newline file_text in
  (hd EmptyString lines = directive ->
   add_shebang file_text sfx w
   = (Ok lines, {| files := files w;
                   out := out w ++ ["File already has correct shebang"%string];
                   umask := umask w |}))
  /\ (hd EmptyString lines <> directive ->
      add_shebang file_text sfx w = (Ok (directive :: EmptyString :: lines), w)).
Proof.
  intros Hget lines. subst lines. unfold add_shebang.
  rewrite (getitem_keys _ _ _ Hget), Hget.
  cbv beta iota zeta delta [negb bind]. rewrite first_item_split. split; intros H.
  - apply String.eqb_eq in H. rewrite H. reflexivity.
  - apply String.eqb_neq in H. rewrite H. reflexivity.
Qed.

Lemma add_shebang_spec_witness :
  add_shebang "print(1)" ".py" world_empty
  = (Ok ["#!/bin/python3"; EmptyString; "print(1)"]%string, world_empty).
Proof.
  apply (add_shebang_spec "print(1)" ".py" "#!/bin/python3" world_empty).
  - reflexivity.
  - discriminate.
Defined.

(** ** Running monadic code *)

Lemma bind_ok {A B} (m : M A) (k : A -> M B) w a w' :
  m w = (Ok a, w') -> bind m k w = k a w'.
Proof. unfold bind. now intros ->. Qed.

Lemma bind_raise {A B} (m : M A) (k : A -> M B) w e w' :
  m w = (Raise e, w') -> bind m k w = (Raise e, w').
Proof. unfold bind. now intros ->. Qed.

Lemma bind_inv {A B} (m : M A) (k : A -> M B) w r w' :
  bind m k w = (r, w') ->
  (exists a w1, m w = (Ok a, w1) /\ k a w1 = (r, w'))
  \/ (exists e, m w = (Raise e, w') /\ r = Raise e).
Proof.
  unfold bind. destruct (m w) as [[a|e] w1]; intros H.
  - left. eauto.
  - right. injection H as <- <-. eauto.
Qed.

Lemma bind_ret_r {A} (m : M A) w : bind m ret w = m w.
Proof. unfold bind, ret. now destruct (m w) as [[a|e] w1]. Qed.

Lemma lookup_file_normal w p f :
  lookup_file w p = Some f -> lookup_file w (str (Path_of_str p)) = Some f.
Proof.
  unfold lookup_file. destruct (locate p) as [l|] eqn:E; [|discriminate].
  destruct (PathFacts.locate_normal _ _ E) as [_ ->]. auto.
Qed.

Lemma open_read_ok w p f :
  lookup_file w p = Some f -> readable f = true ->
  open_read p w = (Ok (content f), w).
Proof.
  unfold lookup_file, open_read. destruct (locate p); [|discriminate].
  now intros -> ->.
Qed.

Lemma read_text_ok w p f :
  lookup_file w (str p) = Some f -> readable f = true ->
  read_text p w = (Ok (universal_newlines (content f)), w).
Proof.
  intros Hf Hr. unfold read_text.
  now rewrite (bind_ok _ _ _ _ _ (open_read_ok w _ f Hf Hr)).
Qed.

Lemma read_text_raise p w e w' :
  read_text p w = (Raise e, w') -> open_read (str p) w = (Raise e, w').
Proof.
  unfold read_text. intros H. apply bind_inv in H.
  destruct H as [(? & ? & _ & ?) | (e' & H & E)]; [discriminate|].
  now injection E as ->.
Qed.

Lemma get_file_text_own p w :
  get_file_text (path_suffix (Path_of_str p)) p w
  = read_text (Path_of_str p) w.
Proof.
  unfold get_file_text. rewrite String.eqb_refl.
  cbv beta iota zeta delta [negb]. apply bind_ret_r.
Qed.

(** [get_file_text] rejects a file only when it is asked for another suffix
    than the file's own. *)
Lemma get_file_text_error sfx p w e w' :
  get_file_text sfx p w = (Raise e, w') ->
  kind e = FileExtensionError -> sfx <> path_suffix (Path_of_str p).
Proof.
  intros H K ->. rewrite get_file_text_own in H. apply read_text_raise in H.
  unfold open_read, ENOENT, EACCES, EISDIR, raise in H.
  destruct (locate _); [destruct (files w !! _) as [f|]; [destruct (readable f)|]|];
    inversion H; subst; discriminate.
Qed.

Lemma values_SHEBANGS v :
  in_list v (values SHEBANGS) = true <-> exists k, getitem SHEBANGS k = Some v.
Proof.
  rewrite in_list_In. simpl. split.
  - intros [<- | [<- | []]]; [exists ".py"%string | exists ".sh"%string]; reflexivity.
  - intros (k & H). simpl in H.
    destruct (String.eqb k ".py"); [injection H; auto|].
    destruct (String.eqb k ".sh"); [injection H; auto | discriminate].
Qed.

(** What the Status Inspector returns for a readable file. *)
Lemma get_file_status_ok p w f :
  lookup_file w p = Some f -> readable f = true ->
  get_file_status p w
  = (Ok {| suffix := path_suffix (Path_of_str p);
           shebang := in_list (hd EmptyString
                                 (Str.split newline (universal_newlines (content f))))
                        (values SHEBANGS);
           exec := executable f |}, w).
Proof.
  intros Hf Hr. unfold get_file_status. cbv zeta.
  rewrite (bind_ok _ _ w (universal_newlines (content f)) w).
  2:{ rewrite get_file_text_own.
      apply read_text_ok; [now apply lookup_file_normal | exact Hr]. }
  rewrite (bind_ok _ _ _ _ _ (first_item_split _ _)).
  unfold bind, os_access_X_OK, ret. rewrite Hf.
  destruct (in_list _ _), (executable f); reflexivity.
Qed.

(** C3, as stated, fails: the first line of [x.py] is the directive of
    [.sh], not the one the table assigns to [.py], and the inspector still
    reports a directive. *)
Lemma get_file_status_foreign_directive :
  fst (get_file_status "x.py" world_bash_py)
  = Ok {| suffix := ".py"; shebang := true; exec := false |}
  /\ getitem SHEBANGS ".py"
     <> Some (hd EmptyString (Str.split newline ("#!/bin/bash" +:+ nl +:+ "echo hi"))).
Proof. split; [vm_compute; reflexivity | discriminate]. Qed.

(** C3 (amended): for a file the process may read, with ASCII characters,
    the inspector sets [shebang] exactly when the first line of the file, as
    text mode reads it (a carriage return, alone or before a line feed, ends
    the line like a line feed), is the directive the table assigns to some
    suffix, whichever suffix the file itself has. *)
Theorem get_file_status_shebang (p : string) (w : world) (f : file) :
  lookup_file w p = Some f -> readable f = true -> is_ascii (content f) = true ->
  exists st,
    get_file_status p w = (Ok st, w)
    /\ suffix st = path_suffix (Path_of_str p)
    /\ (shebang st = true
        <-> exists sfx,
              getitem SHEBANGS sfx
              = Some (hd EmptyString
                        (Str.split newline (universal_newlines (content f))))).
Proof.
  intros Hf Hr _. eexists. split; [exact (get_file_status_ok p w f Hf Hr)|].
  split; [reflexivity|]. cbn [shebang]. apply values_SHEBANGS.
Qed.

Lemma get_file_status_shebang_witness :
  exists st,
    get_file_status "x.py" world_crlf = (Ok st, world_crlf)
    /\ suffix st = path_suffix (Path_of_str "x.py")
    /\ (shebang st = true
        <-> exists sfx,
              getitem SHEBANGS sfx
              = Some (hd EmptyString
                        (Str.split newline
                           (universal_newlines
                              ("#!/bin/bash" +:+ crlf +:+ "echo hi" +:+ crlf))))).
Proof.
  apply (get_file_status_shebang "x.py" world_crlf
           {| content := "#!/bin/bash" +:+ crlf +:+ "echo hi" +:+ crlf;
              perm := 420; who := Owner |}).
  - vm_compute. reflexivity.
  - vm_compute. reflexivity.
  - vm_compute. reflexivity.
Defined.

(** C4, as stated, fails: [.txt] is not a key of the table and the
    inspector returns a status for [notes.txt]. *)
Lemma get_file_status_notes_txt :
  in_list (path_suffix (Path_of_str "notes.txt")) (keys SHEBANGS) = false
  /\ get_file_status "notes.txt" world_notes
     = (Ok {| suffix := ".txt"; shebang := false; exec := false |}, world_notes).
Proof. split; vm_compute; reflexivity. Qed.

Lemma get_file_status_error p w e w' :
  get_file_status p w = (Raise e, w') -> kind e <> FileExtensionError.
Proof.
  unfold get_file_status. cbv zeta. intros H K.
  apply bind_inv in H. destruct H as [(t & w1 & Ht & H) | (e' & Ht & E)].
  - rewrite (bind_ok _ _ _ _ _ (first_item_split _ _)) in H.
    unfold bind, os_access_X_OK, ret in H. discriminate.
  - injection E as <-.
    now apply (get_file_text_error _ _ _ _ _ Ht K).
Qed.

(** C4 (amended): for a path whose suffix is not a key of the table the
    inspector never raises the suffix error, and it returns a status carrying
    that suffix when the file can be read; it is [main] that rejects the
    suffix, with exit status 1 and no file touched. *)
Theorem get_file_status_unsupported (p : string) (w : world) :
  in_list (path_suffix (Path_of_str p)) (keys SHEBANGS) = false ->
  (forall e w', get_file_status p w = (Raise e, w') -> kind e <> FileExtensionError)
  /\ (forall f, lookup_file w p = Some f -> readable f = true ->
        exists st, get_file_status p w = (Ok st, w)
                   /\ suffix st = path_suffix (Path_of_str p))
  /\ (forall a k c, is_Some (lookup_file w p) ->
        exists r w',
          main {| filepath := p; all := a; keepsuffix := k; customname := c |} w
          = (r, w')
          /\ exit_status r = 1 /\ files w' = files w).
Proof.
  intros Hk. split; [|split].
  - intros e w'. apply get_file_status_error.
  - intros f Hf Hr. eexists. split; [exact (get_file_status_ok p w f Hf Hr)|].
    reflexivity.
  - intros a k c Hex. unfold main. cbn [filepath all customname].
    unfold bind at 1. unfold os_path_exists at 1.
    rewrite (bool_decide_eq_true_2 _ Hex). cbv beta iota zeta delta [negb].
    rewrite Hk. cbv beta iota zeta delta [negb].
    eexists _, _. split; [reflexivity|]. split; reflexivity.
Qed.

Lemma get_file_status_unsupported_witness :
  (forall e w', get_file_status "notes.txt" world_notes = (Raise e, w') ->
                kind e <> FileExtensionError)
  /\ (forall f, lookup_file world_notes "notes.txt" = Some f -> readable f = true ->
        exists st, get_file_status "notes.txt" world_notes = (Ok st, world_notes)
                   /\ suffix st = path_suffix (Path_of_str "notes.txt"))
  /\ (forall a k c, is_Some (lookup_file world_notes "notes.txt") ->
        exists r w',
          main {| filepath := "notes.txt"; all := a; keepsuffix := k;
                  customname := c |} world_notes
          = (r, w')
          /\ exit_status r = 1 /\ files w' = files world_notes).
Proof.
  apply (get_file_status_unsupported "notes.txt" world_notes).
  vm_compute. reflexivity.
Defined.

(** ** The Permission Setter *)

Lemma with_exec_bits m i :
  0 <= i < 12 ->
  Z.testbit (S_IMODE (Z.lor (Z.lor S_IFREG m) S_IEXEC)) i
  = Z.testbit m i || (i =? 6).
Proof.
  intros Hi. unfold S_IMODE, S_IFREG, S_IEXEC.
  change 4095 with (Z.ones 12). rewrite Z.land_ones by lia.
  rewrite Z.mod_pow2_bits_low by lia. rewrite !Z.lor_spec.
  change 32768 with (2 ^ 15). change 64 with (2 ^ 6).
  rewrite !Z.pow2_bits_eqb by lia.
  replace (15 =? i) with false by (symmetry; apply Z.eqb_neq; lia).
  rewrite (Z.eqb_sym 6 i). reflexivity.
Qed.

(** The system calls, one equation for each way they end. *)

Lemma os_path_exists_eq p w :
  os_path_exists p w = (Ok (bool_decide (is_Some (lookup_file w p))), w).
Proof. reflexivity. Qed.

Lemma os_path_exists_true p w f :
  lookup_file w p = Some f -> os_path_exists p w = (Ok true, w).
Proof.
  intros H. unfold os_path_exists.
  rewrite bool_decide_eq_true_2; [reflexivity | rewrite H; eauto].
Qed.

Lemma os_path_exists_false p w :
  lookup_file w p = None -> os_path_exists p w = (Ok false, w).
Proof.
  intros H. unfold os_path_exists.
  rewrite bool_decide_eq_false_2; [reflexivity | rewrite H; now intros [? ?]].
Qed.

Lemma os_access_some p w f :
  lookup_file w p = Some f -> os_access_X_OK p w = (Ok (executable f), w).
Proof. intros H. unfold os_access_X_OK. now rewrite H. Qed.

Lemma os_stat_ok p w f :
  lookup_file w p = Some f ->
  os_stat_st_mode p w = (Ok (Z.lor S_IFREG (perm f)), w).
Proof. intros H. unfold os_stat_st_mode. now rewrite H. Qed.

Lemma os_chmod_ok p m w l f :
  locate p = Some l -> files w !! l = Some f -> who f = Owner ->
  os_chmod p m w
  = (Ok tt, set_files w (<[l := {| content := content f; perm := S_IMODE m;
                                   who := who f |}]> (files w))).
Proof. intros Hl Hf Ho. unfold os_chmod. now rewrite Hl, Hf, Ho. Qed.

Lemma os_chmod_rejected p m w f :
  lookup_file w p = Some f -> who f <> Owner ->
  os_chmod p m w
  = (Raise (mkExn PermissionError (errno "1" "Operation not permitted" p)), w).
Proof.
  unfold lookup_file, os_chmod. destruct (locate p); [|discriminate].
  intros -> Ho. destruct (who f); [congruence | reflexivity | reflexivity].
Qed.

(** One step of a program: the first action of a [bind] is replaced by its
    outcome [H]. *)
Ltac run H :=
  first [ rewrite (bind_ok _ _ _ _ _ H) | rewrite (bind_raise _ _ _ _ _ H) ];
  cbv beta; cbn [negb].

Lemma make_executable_absent p w :
  lookup_file w p = None ->
  make_executable p w
  = (Raise (mkExn FileNotFoundError "Specified file path does not exist"), w).
Proof.
  intros H. unfold make_executable.
  run (os_path_exists_false p w H). reflexivity.
Qed.

Lemma make_executable_already p w f :
  lookup_file w p = Some f -> executable f = true ->
  make_executable p w
  = (Ok 1, {| files := files w;
              out := out w ++ ["File is already executable."%string];
              umask := umask w |}).
Proof.
  intros H Hx. unfold make_executable.
  run (os_path_exists_true p w f H). run (os_access_some p w f H).
  rewrite Hx. reflexivity.
Qed.

Lemma make_executable_changes p w l f :
  locate p = Some l -> files w !! l = Some f ->
  executable f = false -> who f = Owner ->
  make_executable p w
  = (Ok 0, set_files w (<[l := with_exec f]> (files w))).
Proof.
  intros Hl Hf Hx Ho.
  assert (lookup_file w p = Some f) as H by (unfold lookup_file; now rewrite Hl).
  unfold make_executable.
  run (os_path_exists_true p w f H). run (os_access_some p w f H).
  rewrite Hx. run (os_stat_ok p w f H).
  unfold bind at 1, try_except.
  run (os_chmod_ok p (Z.lor (Z.lor S_IFREG (perm f)) S_IEXEC) w l f Hl Hf Ho).
  reflexivity.
Qed.

Lemma make_executable_rejected p w f :
  lookup_file w p = Some f -> executable f = false -> who f <> Owner ->
  make_executable p w
  = (Ok 1, {| files := files w;
              out := out w ++ ["Error making file executable:" +:+ nl
                               +:+ errno "1" "Operation not permitted" p];
              umask := umask w |}).
Proof.
  intros H Hx Ho. unfold make_executable.
  run (os_path_exists_true p w f H). run (os_access_some p w f H).
  rewrite Hx. run (os_stat_ok p w f H).
  unfold bind at 1, try_except.
  run (os_chmod_rejected p (Z.lor (Z.lor S_IFREG (perm f)) S_IEXEC) w f H Ho).
  reflexivity.
Qed.

(** C7, as stated, fails: the script belongs to another user, so the change
    of mode is rejected; the second call finds the file still not executable,
    asks for the change again and reports the rejection a second time,
    instead of reporting that the file is already executable.  The
    permission bits are the same after both calls. *)
Lemma make_executable_twice_rejected :
  fst (make_executable "/tmp/tool.py" world_foreign) = Ok 1
  /\ fst (make_executable "/tmp/tool.py"
            (snd (make_executable "/tmp/tool.py" world_foreign))) = Ok 1
  /\ out (snd (make_executable "/tmp/tool.py"
                 (snd (make_executable "/tmp/tool.py" world_foreign))))
     = [ "Error making file executable:" +:+ nl
         +:+ "[Errno 1] Operation not permitted: '/tmp/tool.py'";
         "Error making file executable:" +:+ nl
         +:+ "[Errno 1] Operation not permitted: '/tmp/tool.py'" ]%string
  /\ lookup_file (snd (make_executable "/tmp/tool.py"
                         (snd (make_executable "/tmp/tool.py" world_foreign))))
       "/tmp/tool.py"
     = Some {| content := "print(1)"; perm := 420; who := Other |}.
Proof. repeat split; vm_compute; reflexivity. Qed.

(** C7 (amended): on a file, a second call of [make_executable] right after
    a first one changes nothing in the store and returns 1; it reports that
    the file is already executable whenever the first call found or made it
    so, and when the change of mode was rejected it asks for it and reports
    the rejection again, the store staying as it was before the first call;
    when the first call sets the owner's execute bit the file keeps its
    text, its class and every other permission bit, and no other file
    changes. *)
Theorem make_executable_twice (p : string) (w : world) (f : file) :
  lookup_file w p = Some f ->
  let first := make_executable p w in
  let second := make_executable p (snd first) in
  files (snd second) = files (snd first)
  /\ fst second = Ok 1
  /\ (executable f = true \/ who f = Owner ->
      out (snd second)
      = out (snd first) ++ ["File is already executable."%string])
  /\ (executable f = false -> who f <> Owner ->
      fst first = Ok 1
      /\ files (snd first) = files w
      /\ out (snd second)
         = out (snd first)
           ++ ["Error making file executable:" +:+ nl
               +:+ errno "1" "Operation not permitted" p])
  /\ (executable f = false -> who f = Owner ->
      fst first = Ok 0
      /\ exists l f',
           locate p = Some l
           /\ files (snd first) = <[l := f']> (files w)
           /\ content f' = content f /\ who f' = who f
           /\ Z.testbit (perm f') 6 = true
           /\ forall i, 0 <= i < 12 -> i <> 6 ->
                        Z.testbit (perm f') i = Z.testbit (perm f) i).
Proof.
  intros H first second. subst first second.
  destruct (executable f) eqn:Hx.
  - rewrite (make_executable_already p w f H Hx). cbn [snd].
    erewrite make_executable_already; [|exact H|exact Hx].
    cbn [fst snd files out].
    split; [reflexivity|]. split; [reflexivity|].
    split; [intros _; reflexivity|].
    split; intros ?; discriminate.
  - destruct (who f) eqn:Ho.
    + pose proof H as H'. unfold lookup_file in H'.
      destruct (locate p) as [l|] eqn:Hl; [|discriminate].
      rewrite (make_executable_changes p w l f Hl H' Hx Ho). cbn [snd fst].
      assert (executable (with_exec f) = true) as Hx'.
      { unfold executable, with_exec. cbn [perm who]. rewrite Ho. cbn [class_bit].
        rewrite with_exec_bits by lia. apply orb_true_r. }
      erewrite make_executable_already; [|unfold lookup_file; rewrite Hl; cbn [files set_files];
                                           apply lookup_insert_eq | exact Hx'].
      cbn [fst snd files out set_files].
      split; [reflexivity|]. split; [reflexivity|]. split; [intros _; reflexivity|].
      split; [intros _ Hne; now contradiction Hne|].
      intros _ _. split; [reflexivity|]. exists l, (with_exec f).
      split; [reflexivity|]. split; [reflexivity|]. split; [reflexivity|].
      split; [exact Ho|]. split.
      * unfold with_exec. cbn [perm]. rewrite with_exec_bits by lia. apply orb_true_r.
      * intros i Hi Hne. unfold with_exec. cbn [perm]. rewrite with_exec_bits by lia.
        replace (i =? 6) with false by (symmetry; apply Z.eqb_neq; lia).
        apply orb_false_r.
    + rewrite (make_executable_rejected p w f H Hx) by congruence. cbn [snd].
      erewrite make_executable_rejected; [|exact H|exact Hx|congruence].
      cbn [fst snd files out].
      split; [reflexivity|]. split; [reflexivity|].
      split; [intros [?|?]; discriminate|].
      split; [intros _ _; repeat split | intros _ ?; discriminate].
    + rewrite (make_executable_rejected p w f H Hx) by congruence. cbn [snd].
      erewrite make_executable_rejected; [|exact H|exact Hx|congruence].
      cbn [fst snd files out].
      split; [reflexivity|]. split; [reflexivity|].
      split; [intros [?|?]; discriminate|].
      split; [intros _ _; repeat split | intros _ ?; discriminate].
Qed.

Lemma make_executable_twice_witness :
  let first := make_executable "/tmp/tool.py" world_script in
  let second := make_executable "/tmp/tool.py" (snd first) in
  files (snd second) = files (snd first)
  /\ fst second = Ok 1
  /\ (executable script_644 = true \/ who script_644 = Owner ->
      out (snd second)
      = out (snd first) ++ ["File is already executable."%string])
  /\ (executable script_644 = false -> who script_644 <> Owner ->
      fst first = Ok 1
      /\ files (snd first) = files world_script
      /\ out (snd second)
         = out (snd first)
           ++ ["Error making file executable:" +:+ nl
               +:+ errno "1" "Operation not permitted" "/tmp/tool.py"])
  /\ (executable script_644 = false -> who script_644 = Owner ->
      fst first = Ok 0
      /\ exists l f',
           locate "/tmp/tool.py" = Some l
           /\ files (snd first) = <[l := f']> (files world_script)
           /\ content f' = content script_644 /\ who f' = who script_644
           /\ Z.testbit (perm f') 6 = true
           /\ forall i, 0 <= i < 12 -> i <> 6 ->
                        Z.testbit (perm f') i = Z.testbit (perm script_644) i).
Proof.
  apply (make_executable_twice "/tmp/tool.py" world_script script_644).
  vm_compute. reflexivity.
Defined.

(** ** What each program may touch *)

Lemma preserves_refl K w : preserves K w w.
Proof. split; [intros; reflexivity | reflexivity]. Qed.

Lemma preserves_trans K w1 w2 w3 :
  preserves K w1 w2 -> preserves K w2 w3 -> preserves K w1 w3.
Proof.
  intros [H1 U1] [H2 U2]. split; [|congruence].
  intros k Hk. rewrite (H2 k Hk). now apply H1.
Qed.

Lemma frames_mono {A} (K K' : loc -> Prop) (m : M A) :
  (forall k, K k -> K' k) -> frames K m -> frames K' m.
Proof.
  intros HK H w r w' E. destruct (H w r w' E) as [Hf Hu].
  split; [|exact Hu]. intros k Hk. apply Hf. intros Hk'. apply Hk, HK, Hk'.
Qed.

Lemma frames_ret {A} K (a : A) : frames K (ret a).
Proof. intros w r w' E. injection E as <- <-. apply preserves_refl. Qed.

Lemma frames_raise {A} K k msg : frames K (@raise A k msg).
Proof. intros w r w' E. injection E as <- <-. apply preserves_refl. Qed.


Lemma frames_print K s : frames K (print s).
Proof.
  intros w r w' E. injection E as <- <-.
  split; [intros; reflexivity | reflexivity].
Qed.


(** The continuation may rely on the first action having returned its value. *)
Lemma frames_bind_dep {A B} K (m : M A) (k : A -> M B) :
  frames K m ->
  (forall w a w1, m w = (Ok a, w1) -> frames K (k a)) ->
  frames K (bind m k).
Proof.
  intros Hm Hk w r w' E. apply bind_inv in E.
  destruct E as [(a & w1 & E1 & E2) | (e & E1 & _)].
  - eapply preserves_trans; [exact (Hm _ _ _ E1) | exact (Hk _ _ _ E1 _ _ _ E2)].
  - exact (Hm _ _ _ E1).
Qed.

Lemma frames_bind {A B} K (m : M A) (k : A -> M B) :
  frames K m -> (forall a, frames K (k a)) -> frames K (bind m k).
Proof. intros Hm Hk. apply frames_bind_dep; auto. Qed.

Lemma frames_try {A} K (m : M A) handles h :
  frames K m -> (forall e, frames K (h e)) -> frames K (try_except m handles h).
Proof.
  intros Hm Hh w r w' E. unfold try_except in E.
  destruct (m w) as [[a|e] w1] eqn:E1.
  - injection E as <- <-. exact (Hm _ _ _ E1).
  - destruct (handles (kind e)).
    + eapply preserves_trans; [exact (Hm _ _ _ E1) | exact (Hh _ _ _ _ E)].
    + injection E as <- <-. exact (Hm _ _ _ E1).
Qed.

Lemma preserves_insert K w l f :
  K l -> preserves K w (set_files w (<[l := f]> (files w))).
Proof.
  intros Hl. split; [|reflexivity]. intros k Hk. cbn [files set_files].
  apply lookup_insert_ne. intros ->. contradiction.
Qed.


(** The system calls. *)



Lemma frames_os_stat K p : frames K (os_stat_st_mode p).
Proof.
  intros w r w' E. unfold os_stat_st_mode, ENOENT, raise in E.
  destruct (lookup_file w p); injection E as <- <-; apply preserves_refl.
Qed.

Lemma frames_open_read K p : frames K (open_read p).
Proof.
  intros w r w' E. unfold open_read, ENOENT, EACCES, EISDIR, raise in E.
  destruct (locate p); [destruct (files w !! _) as [f|]; [destruct (readable f)|]|];
    injection E as <- <-; apply preserves_refl.
Qed.

Lemma frames_os_chmod p mode : frames (at_path p) (os_chmod p mode).
Proof.
  intros w r w' E. unfold os_chmod, ENOENT, EPERM, raise in E.
  destruct (locate p) as [l|] eqn:Hl;
    [destruct (files w !! l) as [f|]; [destruct (who f)|]|];
    injection E as <- <-; try apply preserves_refl.
  now apply preserves_insert.
Qed.

Lemma frames_open_write p data : frames (at_path p) (open_write p data).
Proof.
  intros w r w' E. unfold open_write, EACCES, EISDIR, raise in E.
  destruct (locate p) as [l|] eqn:Hl;
    [destruct (files w !! l) as [f|]; [destruct (writable f)|]|];
    injection E as <- <-; try apply preserves_refl;
    now apply preserves_insert.
Qed.



Lemma frames_shutil_copy src dst : frames (at_path dst) (shutil_copy src dst).
Proof.
  unfold shutil_copy. apply frames_bind.
  { intros w r w' E. injection E as <- <-. apply preserves_refl. }
  intros [|]; [apply frames_raise|].
  apply frames_bind; [apply frames_open_read|]. intros data.
  apply frames_bind; [apply frames_open_write|]. intros _.
  apply frames_bind; [apply frames_os_stat|]. intros st_mode.
  apply frames_bind; [apply frames_os_chmod|]. intros _.
  apply frames_ret.
Qed.

(** The functions of the script. *)







Lemma frames_copy_file src dst : frames (at_path dst) (copy_file src dst).
Proof.
  unfold copy_file. apply frames_try.
  - apply frames_bind; [apply frames_shutil_copy | intros; apply frames_ret].
  - intros e. destruct (kind e);
      (apply frames_bind; [apply frames_print | intros; apply frames_ret]).
Qed.

(** ** Staging *)

Lemma no_exit_bind {A B} (m : M A) (k : A -> M B) :
  no_exit m -> (forall a, no_exit (k a)) -> no_exit (bind m k).
Proof.
  intros Hm Hk w e w' H. apply bind_inv in H.
  destruct H as [(a & w1 & _ & H) | (e' & H & E)].
  - exact (Hk _ _ _ _ H).
  - injection E as ->. exact (Hm _ _ _ H).
Qed.

Lemma no_exit_ret {A} (a : A) : no_exit (ret a).
Proof. intros w e w' H. discriminate. Qed.

Lemma no_exit_open_read p : no_exit (open_read p).
Proof.
  intros w e w' H. unfold open_read, ENOENT, EACCES, EISDIR, raise in H.
  destruct (locate p); [destruct (files w !! _) as [f|]; [destruct (readable f)|]|];
    inversion H; reflexivity.
Qed.

Lemma no_exit_open_write p data : no_exit (open_write p data).
Proof.
  intros w e w' H. unfold open_write, EACCES, EISDIR, raise in H.
  destruct (locate p); [destruct (files w !! _) as [f|]; [destruct (writable f)|]|];
    inversion H; reflexivity.
Qed.

Lemma no_exit_os_stat p : no_exit (os_stat_st_mode p).
Proof.
  intros w e w' H. unfold os_stat_st_mode, ENOENT, raise in H.
  destruct (lookup_file w p); inversion H; reflexivity.
Qed.

Lemma no_exit_os_chmod p mode : no_exit (os_chmod p mode).
Proof.
  intros w e w' H. unfold os_chmod, ENOENT, EPERM, raise in H.
  destruct (locate p); [destruct (files w !! _) as [f|]; [destruct (who f)|]|];
    inversion H; reflexivity.
Qed.

Lemma shutil_copy_no_exit src dst : no_exit (shutil_copy src dst).
Proof.
  unfold shutil_copy. apply no_exit_bind.
  { intros w e w' H. discriminate. }
  intros [|]; [intros w e w' H; inversion H; reflexivity|].
  apply no_exit_bind; [apply no_exit_open_read|]. intros data.
  apply no_exit_bind; [apply no_exit_open_write|]. intros _.
  apply no_exit_bind; [apply no_exit_os_stat|]. intros st_mode.
  apply no_exit_bind; [apply no_exit_os_chmod|]. intros _.
  apply no_exit_ret.
Qed.

Lemma shutil_copy_exception src dst w e w' :
  shutil_copy src dst w = (Raise e, w') -> is_Exception (kind e) = true.
Proof. apply shutil_copy_no_exit. Qed.

Lemma shutil_copy_returns src dst w d w' :
  shutil_copy src dst w = (Ok d, w') -> d = dst.
Proof.
  unfold shutil_copy. intros H.
  apply bind_inv in H. destruct H as [(same & w1 & _ & H) | (? & _ & ?)]; [|discriminate].
  destruct same; [discriminate|].
  repeat (apply bind_inv in H;
          destruct H as [(? & ? & _ & H) | (? & _ & ?)]; [|discriminate]).
  now injection H.
Qed.

Lemma with_name_staged fp :
  parts (Path_of_str fp) <> [] ->
  with_name (Path_of_str fp) ("." +:+ path_name (Path_of_str fp)) = Ok (staged fp).
Proof. intros H. apply PathFacts.with_name_dot; [apply PathFacts.wf_of_str | exact H]. Qed.

Lemma wf_staged fp : parts (Path_of_str fp) <> [] -> wf (staged fp).
Proof.
  intros H. apply PathFacts.wf_snoc; [apply PathFacts.wf_of_str|].
  apply PathFacts.good_dot, PathFacts.good_name; [apply PathFacts.wf_of_str | exact H].
Qed.

Lemma name_staged fp : path_name (staged fp) = String dot (path_name (Path_of_str fp)).
Proof. apply PathFacts.name_snoc. Qed.

Lemma parts_staged fp : parts (staged fp) <> [].
Proof. unfold staged. simpl. now destruct (removelast _). Qed.

(** The two ways [make_temp_file] returns: the staged path after a copy that
    succeeded, or the integer 1 after a copy that failed. *)
Lemma make_temp_file_inv fp w v w1 :
  make_temp_file fp w = (Ok v, w1) ->
  parts (Path_of_str fp) <> []
  /\ ((v = inl (staged fp)
       /\ shutil_copy (str (Path_of_str fp)) (str (staged fp)) w
          = (Ok (str (staged fp)), w1))
      \/ (v = inr 1
          /\ exists e w0,
               shutil_copy (str (Path_of_str fp)) (str (staged fp)) w = (Raise e, w0)
               /\ files w1 = files w0 /\ umask w1 = umask w0
               /\ List.last (out w1) EmptyString = "* Error copying file *"%string)).
Proof.
  unfold make_temp_file. cbv zeta. intros H.
  destruct (parts (Path_of_str fp)) as [|x l] eqn:Hp.
  { unfold with_name, path_name in H. rewrite Hp in H. simpl in H. discriminate. }
  assert (parts (Path_of_str fp) <> []) as Hne by (rewrite Hp; discriminate).
  rewrite <- Hp. split; [exact Hne|].
  rewrite (with_name_staged fp Hne) in H. unfold lift in H.
  rewrite (bind_ok _ _ w (staged fp) w eq_refl) in H.
  unfold bind at 1 in H. unfold copy_file, try_except in H.
  destruct (shutil_copy _ _ w) as [[d|e] w0] eqn:Hc.
  - assert (d = str (staged fp)) as -> by exact (shutil_copy_returns _ _ _ _ _ Hc).
    rewrite (bind_ok _ _ w (str (staged fp)) w0 Hc) in H.
    cbv beta iota zeta delta [ret negb Z.eqb] in H.
    injection H as <- <-. left. split; reflexivity.
  - rewrite (bind_raise _ _ w e w0 Hc) in H.
    rewrite (shutil_copy_exception _ _ _ _ _ Hc) in H.
    right. destruct (kind e);
      cbv beta iota zeta delta [bind ret print negb Z.eqb Pos.eqb] in H;
      injection H as <- <-; (split; [reflexivity|]); exists e, w0;
      (split; [reflexivity|]); cbn [files out umask];
      rewrite ?last_last; repeat split; reflexivity.
Qed.

(** The comparison of the staging result with 0 never holds: a failed copy is
    reported as 1. *)
Lemma make_temp_file_never_zero fp w v w1 :
  make_temp_file fp w = (Ok v, w1) -> eq_zero v = false.
Proof.
  intros H. apply make_temp_file_inv in H.
  destruct H as [_ [[-> _] | [-> _]]]; reflexivity.
Qed.


(** ** The orchestrator *)

Lemma open_read_inv p w t w' :
  open_read p w = (Ok t, w') ->
  w' = w /\ exists f, lookup_file w p = Some f /\ readable f = true /\ t = content f.
Proof.
  unfold open_read, lookup_file, ENOENT, EACCES, EISDIR, raise.
  destruct (locate p); [|discriminate].
  destruct (files w !! _) as [f|]; [|discriminate].
  destruct (readable f) eqn:Hr; [|discriminate].
  intros H. injection H as <- <-. eauto.
Qed.

Lemma read_text_inv p w t w' :
  read_text p w = (Ok t, w') ->
  w' = w
  /\ exists f, lookup_file w (str p) = Some f /\ readable f = true
               /\ t = universal_newlines (content f).
Proof.
  unfold read_text. intros H. apply bind_inv in H.
  destruct H as [(data & w1 & H & E) | (? & _ & ?)]; [|discriminate].
  apply open_read_inv in H. destruct H as (-> & f & Hf & Hr & ->).
  injection E as <- <-. eauto.
Qed.

Lemma get_file_status_inv p w st w' :
  get_file_status p w = (Ok st, w') ->
  w' = w
  /\ suffix st = path_suffix (Path_of_str p)
  /\ exists f,
       lookup_file w (str (Path_of_str p)) = Some f /\ readable f = true
       /\ shebang st = in_list (hd EmptyString
                                  (Str.split newline (universal_newlines (content f))))
                         (values SHEBANGS)
       /\ get_file_text (suffix st) p w = (Ok (universal_newlines (content f)), w).
Proof.
  unfold get_file_status. cbv zeta. intros H.
  apply bind_inv in H. destruct H as [(t & w1 & Ht & H) | (? & _ & ?)]; [|discriminate].
  pose proof Ht as Ht'. rewrite get_file_text_own in Ht'.
  apply read_text_inv in Ht'. destruct Ht' as (-> & f & Hf & Hr & ->).
  rewrite (bind_ok _ _ _ _ _ (first_item_split _ _)) in H.
  unfold bind, os_access_X_OK, ret in H. injection H as <- <-.
  split; [reflexivity|]. split; [reflexivity|]. exists f.
  cbn [suffix shebang]. repeat split; try assumption.
  cbv [in_list values SHEBANGS existsb map snd].
  now destruct (_ || _)%bool.
Qed.

Lemma make_executable_total p w f :
  lookup_file w p = Some f -> exists n w', make_executable p w = (Ok n, w').
Proof.
  intros H. destruct (executable f) eqn:Hx.
  - rewrite (make_executable_already p w f H Hx). eauto.
  - destruct (who f) eqn:Ho.
    + pose proof H as H'. unfold lookup_file in H'.
      destruct (locate p) as [l|] eqn:Hl; [|discriminate].
      rewrite (make_executable_changes p w l f Hl H' Hx Ho). eauto.
    + rewrite (make_executable_rejected p w f H Hx) by congruence. eauto.
    + rewrite (make_executable_rejected p w f H Hx) by congruence. eauto.
Qed.

Lemma py_str_normal fp w v w1 :
  make_temp_file fp w = (Ok v, w1) -> str (Path_of_str (py_str v)) = py_str v.
Proof.
  intros H. apply make_temp_file_inv in H.
  destruct H as [Hne [[-> _] | [-> _]]]; [|reflexivity].
  cbn [py_str]. now rewrite PathFacts.Path_of_str_str by now apply wf_staged.
Qed.

(** The step of [run_operations] that ensures the execute permission. *)
Lemma ensure_executable_step p (x : bool) w f :
  lookup_file w p = Some f ->
  exists w',
    (if negb x
     then bind (print "Making file executable...")
            (fun _ => bind (make_executable p) (fun _ => ret tt))
     else print "File already executable, skipping...") w = (Ok tt, w').
Proof.
  intros H. destruct x; cbn [negb]; [eexists; reflexivity|].
  unfold bind at 1. cbn [print].
  destruct (make_executable_total p
              {| files := files w;
                 out := out w ++ ["Making file executable..."%string];
                 umask := umask w |} f H) as (n & w' & E).
  exists w'. now rewrite (bind_ok _ _ _ _ _ E).
Qed.

(** C9 (amended): when the inspector has reported no directive for a file
    whose suffix is not in the table, [run_operations] calls the injector
    with that suffix, the injector's assertion fails, and the script prints
    the assertion's message and ends with exit status 0. *)
Theorem run_operations_injector_misuse
    (fp : string) (c : option string) (w w1 w2 : world)
    (v : Path + Z) (st : FileStatus) :
  make_temp_file fp w = (Ok v, w1) ->
  get_file_status (py_str v) w1 = (Ok st, w2) ->
  shebang st = false ->
  in_list (suffix st) (keys SHEBANGS) = false ->
  exists w',
    run_operations fp c w = (Raise (mkExn (SystemExit 0) EmptyString), w')
    /\ exit_status (fst (run_operations fp c w)) = 0
    /\ List.last (out w') EmptyString = injector_message.
Proof.
  intros Hstage Hstatus Hsheb Hkey.
  destruct (get_file_status_inv _ _ _ _ Hstatus) as (-> & Hsfx & f & Hf & Hr & _ & Htext).
  rewrite (py_str_normal _ _ _ _ Hstage) in Hf.
  destruct (ensure_executable_step (py_str v) (exec st) w1 f Hf) as (w3 & Hexec).
  assert (run_operations fp c w
          = (Raise (mkExn (SystemExit 0) EmptyString),
             {| files := files w3; out := out w3 ++ [injector_message];
                umask := umask w3 |})) as E.
  { unfold run_operations. run Hstage.
    rewrite (make_temp_file_never_zero _ _ _ _ Hstage).
    unfold bind at 1. cbn [ret]. run Hstatus. run Htext. run Hexec.
    rewrite Hsheb. cbn [negb].
    unfold bind at 1. unfold bind at 1. unfold try_except, bind at 1.
    unfold add_shebang. rewrite Hkey. reflexivity. }
  eexists. split; [exact E|]. rewrite E. split; [reflexivity|].
  cbn [out]. apply last_last.
Qed.

Lemma run_operations_injector_misuse_witness :
  exists w',
    run_operations "notes.txt" None world_notes
    = (Raise (mkExn (SystemExit 0) EmptyString), w')
    /\ exit_status (fst (run_operations "notes.txt" None world_notes)) = 0
    /\ List.last (out w') EmptyString = injector_message.
Proof.
  eapply (run_operations_injector_misuse "notes.txt" None world_notes).
  - vm_compute. reflexivity.
  - vm_compute. reflexivity.
  - reflexivity.
  - reflexivity.
Defined.

(** C9, as stated, fails: on [notes.txt] the injector's assertion fails
    (its message is the last line printed) and the exit status is 0, not 1;
    the same happens through [main] when staging fails next to a file named
    [1]. *)
Lemma injector_misuse_exit_status :
  (List.last (out (snd (run_operations "notes.txt" None world_notes))) EmptyString
   = injector_message
   /\ exit_status (fst (run_operations "notes.txt" None world_notes)) = 0)
  /\ (List.last
        (out (snd (main {| filepath := "a.py"; all := true; keepsuffix := false;
                           customname := None |} world_locked))) EmptyString
      = injector_message
      /\ exit_status
           (fst (main {| filepath := "a.py"; all := true; keepsuffix := false;
                         customname := None |} world_locked)) = 0).
Proof. repeat split; vm_compute; reflexivity. Qed.

(** C1 (the code, which does not do what the claim says): whatever
    [make_temp_file] returns, the test [temp_file_path == 0] of
    [run_operations] is false, so the branch that reports a staging failure
    and exits with status 1 never runs.  At the failing input the copy of
    [a.py] fails and [make_temp_file] returns 1, yet [run_operations] goes
    on: it never prints its abort message, it inspects the file named [1]
    and makes it executable, and the exit status is 0. *)
Theorem run_operations_staging_failure :
  (forall fp w v w1, make_temp_file fp w = (Ok v, w1) -> eq_zero v = false)
  /\ fst (make_temp_file "a.py" world_locked) = Ok (inr 1)
  /\ exit_status (fst (run_operations "a.py" None world_locked)) = 0
  /\ lookup_file world_locked "1"
     = Some {| content := "hello"; perm := 420; who := Owner |}
  /\ lookup_file (snd (run_operations "a.py" None world_locked)) "1"
     = Some {| content := "hello"; perm := 484; who := Owner |}
  /\ out (snd (run_operations "a.py" None world_locked))
     = [ "Permission denied: unable to move a.py.";
         "* Error copying file *";
         "Making file executable...";
         injector_message ]%string.
Proof.
  split; [exact make_temp_file_never_zero|].
  repeat split; vm_compute; reflexivity.
Qed.

(** ** The Name/Path Resolver: [remove_suffix] *)

Lemma join_snoc_not_empty l x : x <> EmptyString -> Str.join "/" (l ++ [x]) <> EmptyString.
Proof.
  intros Hx. destruct l as [|z l]; simpl; [exact Hx|].
  destruct (l ++ [x]) eqn:E; [now destruct l|].
  destruct z; discriminate.
Qed.

Lemma str_snoc_eq r l x :
  x <> EmptyString ->
  str {| root := r; parts := l ++ [x] |} = r +:+ Str.join "/" (l ++ [x]).
Proof.
  intros Hx. unfold str. cbn [root parts].
  destruct (String.eqb (r +:+ Str.join "/" (l ++ [x])) "") eqn:E; [|reflexivity].
  apply String.eqb_eq in E. exfalso. apply (join_snoc_not_empty l x Hx).
  destruct r; [exact E | discriminate].
Qed.

(** Appending to the string of a path appends to its last component. *)
Lemma str_snoc_app r l x y :
  x <> EmptyString ->
  str {| root := r; parts := l ++ [x] |} +:+ y
  = str {| root := r; parts := l ++ [x +:+ y] |}.
Proof.
  intros Hx. rewrite !str_snoc_eq; [|now destruct x|exact Hx].
  rewrite StrFacts.append_assoc. now rewrite StrFacts.join_snoc.
Qed.

(** What [with_suffix(p, "")] returns for a path with a name: the name
    without its suffix, in the same directory. *)
Lemma with_suffix_strip p :
  path_name p <> EmptyString ->
  exists x,
    with_suffix p EmptyString
    = Ok {| root := root p; parts := removelast (parts p) ++ [x] |}
    /\ x +:+ path_suffix p = path_name p
    /\ x <> EmptyString
    /\ (Str.len x + Str.len (path_suffix p) = Str.len (path_name p))%nat.
Proof.
  intros Hn. unfold with_suffix. cbn [Str.contains negb String.eqb andb orb].
  destruct (String.eqb (path_name p) "") eqn:E.
  { apply String.eqb_eq in E. congruence. }
  destruct (String.eqb (path_suffix p) "") eqn:Es.
  - apply String.eqb_eq in Es. exists (path_name p).
    rewrite Es, !StrFacts.append_nil_r. simpl. repeat split; auto.
  - apply String.eqb_neq in Es. unfold path_suffix in *.
    destruct (PathFacts.name_suffix_split _ Es) as (Hi & Hl & Hd & Hdl & Htd & Hne).
    exists (Str.take (Z.to_nat (Str.rfind dot (path_name p))) (path_name p)).
    rewrite Hdl, StrFacts.append_nil_r. repeat split; auto.
    rewrite <- StrFacts.len_app. now rewrite Htd.
Qed.

Lemma stripped_eq p x :
  with_suffix p EmptyString
  = Ok {| root := root p; parts := removelast (parts p) ++ [x] |} ->
  stripped p = {| root := root p; parts := removelast (parts p) ++ [x] |}.
Proof. unfold stripped. now intros ->. Qed.

Lemma suffix_name_not_empty p : path_suffix p <> EmptyString -> path_name p <> EmptyString.
Proof. unfold path_suffix. intros H E. rewrite E in H. now apply H. Qed.

Lemma os_rename_inv src dst w w' :
  os_rename src dst w = (Ok tt, w') ->
  exists ls ld f,
    locate src = Some ls /\ locate dst = Some ld /\ files w !! ls = Some f
    /\ w' = set_files w (<[ld := f]> (delete ls (files w))).
Proof.
  unfold os_rename, ENOENT, raise.
  destruct (locate src) as [ls|]; [|discriminate].
  destruct (locate dst) as [ld|]; destruct (files w !! ls) as [f|] eqn:Hf;
    try discriminate.
  intros H. injection H as <-. exists ls, ld, f. repeat split. exact Hf.
Qed.

(** A path that [os.rename] accepted as its target is well formed. *)
Lemma wf_located p x k :
  wf p -> plain x ->
  locate (str {| root := root p; parts := removelast (parts p) ++ [x] |}) = Some k ->
  wf {| root := root p; parts := removelast (parts p) ++ [x] |}
  /\ k = loc_of {| root := root p; parts := removelast (parts p) ++ [x] |}
  /\ dir_ref x = false.
Proof.
  intros Hwf Hx Hloc.
  set (q := {| root := root p; parts := removelast (parts p) ++ [x] |}) in *.
  assert (sound q) as Hs.
  { split; [apply Hwf|]. unfold q. cbn [parts]. apply Forall_app. split.
    - eapply Forall_impl; [apply PathFacts.good_removelast, Hwf | apply PathFacts.good_plain].
    - now constructor. }
  assert (parts q <> []) as Hne by (unfold q; cbn [parts]; now destruct (removelast _)).
  rewrite (PathFacts.locate_sound q Hs Hne) in Hloc.
  assert (path_name q = x) as Hq by apply PathFacts.name_snoc.
  rewrite Hq in Hloc. destruct (dir_ref x) eqn:Hd; [discriminate|].
  assert (good x) as Hg.
  { split; [|apply Hx]. unfold dir_ref in Hd. unfold is_component.
    destruct (String.eqb x ""); [discriminate|].
    destruct (String.eqb x "."); [discriminate | reflexivity]. }
  assert (wf q) as Hq'.
  { unfold q. now apply PathFacts.wf_snoc. }
  split; [exact Hq'|]. split; [|reflexivity].
  injection Hloc as <-. unfold loc_of.
  change (removelast (parts p) ++ [x]) with (parts q).
  now rewrite (PathFacts.filter_good _ (proj2 Hq')).
Qed.

Lemma plain_stem p x :
  wf p -> parts p <> [] -> x +:+ path_suffix p = path_name p -> x <> EmptyString ->
  plain x.
Proof.
  intros Hwf Hne Hx Hx0. split; [exact Hx0|].
  pose proof (PathFacts.good_name p Hwf Hne) as [_ Hc].
  rewrite <- Hx, StrFacts.contains_app in Hc.
  now apply orb_false_iff in Hc.
Qed.

Lemma parts_not_nil p : path_name p <> EmptyString -> parts p <> [].
Proof. unfold path_name. intros H E. rewrite E in H. now apply H. Qed.

(** What [remove_suffix] returns when the name has a suffix, for a path in
    normal form [p]: the string of [stripped p], and the file under that name. *)
Lemma remove_suffix_inv p w s w' :
  wf p -> path_suffix p <> EmptyString ->
  remove_suffix (str p) w = (Ok s, w') ->
  wf (stripped p)
  /\ s = str (stripped p)
  /\ s +:+ path_suffix p = str p
  /\ dir_ref (path_name (stripped p)) = false
  /\ exists f,
       files w !! loc_of p = Some f
       /\ w' = set_files w (<[loc_of (stripped p) := f]> (delete (loc_of p) (files w))).
Proof.
  intros Hwf Hs H. unfold remove_suffix in H.
  rewrite (PathFacts.Path_of_str_str p Hwf) in H.
  apply String.eqb_neq in Hs. rewrite Hs in H. apply String.eqb_neq in Hs.
  pose proof (suffix_name_not_empty p Hs) as Hn.
  pose proof (parts_not_nil p Hn) as Hne.
  destruct (with_suffix_strip p Hn) as (x & Hw & Hx & Hx0 & _).
  rewrite (stripped_eq p x Hw). rewrite Hw in H. unfold lift in H.
  rewrite (bind_ok _ _ w _ w eq_refl) in H.
  apply bind_inv in H. destruct H as [(q & w1 & Hr & H) | (? & _ & ?)]; [|discriminate].
  injection H as <- <-.
  unfold rename in Hr.
  apply bind_inv in Hr. destruct Hr as [([] & w2 & Hr & H) | (? & _ & ?)]; [|discriminate].
  injection H as <- <-.
  apply os_rename_inv in Hr. destruct Hr as (ls & ld & f & Hls & Hld & Hf & ->).
  pose proof (plain_stem p x Hwf Hne Hx Hx0) as Hpl.
  destruct (wf_located p x ld Hwf Hpl Hld) as (Hq & -> & Hd).
  rewrite (PathFacts.Path_of_Path_id _ Hq).
  assert (path_name p <> "..") as Hdd.
  { intros E. unfold path_suffix in Hs. rewrite E in Hs. now apply Hs. }
  rewrite (PathFacts.locate_str p Hwf Hne Hdd) in Hls. injection Hls as <-.
  split; [exact Hq|]. split; [reflexivity|]. split.
  - rewrite str_snoc_app by exact Hx0. rewrite Hx.
    rewrite <- (PathFacts.parts_removelast p Hne). now destruct p.
  - split; [now rewrite PathFacts.name_snoc|]. eauto.
Qed.

Lemma remove_suffix_normal fp w :
  path_suffix (Path_of_str fp) <> EmptyString ->
  remove_suffix fp w = remove_suffix (str (Path_of_str fp)) w.
Proof.
  intros Hs. unfold remove_suffix.
  rewrite (PathFacts.Path_of_str_str _ (PathFacts.wf_of_str fp)).
  apply String.eqb_neq in Hs. now rewrite Hs.
Qed.

Lemma key_suffix_not_empty sfx :
  in_list sfx (keys SHEBANGS) = true -> sfx <> EmptyString.
Proof. intros H ->. discriminate. Qed.

Lemma remove_suffix_ok p w f :
  wf p -> path_suffix p <> EmptyString ->
  files w !! loc_of p = Some f ->
  dir_ref (path_name (stripped p)) = false ->
  remove_suffix (str p) w
  = (Ok (str (stripped p)),
     set_files w (<[loc_of (stripped p) := f]> (delete (loc_of p) (files w)))).
Proof.
  intros Hwf Hs Hf Hd. unfold remove_suffix.
  rewrite (PathFacts.Path_of_str_str p Hwf).
  apply String.eqb_neq in Hs. rewrite Hs. apply String.eqb_neq in Hs.
  pose proof (suffix_name_not_empty p Hs) as Hn.
  pose proof (parts_not_nil p Hn) as Hne.
  destruct (with_suffix_strip p Hn) as (x & Hw & Hx & Hx0 & _).
  rewrite (stripped_eq p x Hw) in *. rewrite Hw. unfold lift.
  rewrite (bind_ok _ _ w _ w eq_refl).
  rewrite PathFacts.name_snoc in Hd.
  pose proof (plain_stem p x Hwf Hne Hx Hx0) as Hpl.
  assert (good x) as Hg.
  { split; [|apply Hpl]. unfold dir_ref in Hd. unfold is_component.
    destruct (String.eqb x ""); [discriminate|].
    destruct (String.eqb x "."); [discriminate | reflexivity]. }
  set (q := {| root := root p; parts := removelast (parts p) ++ [x] |}) in *.
  assert (wf q) as Hq by (unfold q; now apply PathFacts.wf_snoc).
  assert (path_name p <> "..") as Hdd.
  { intros E. unfold path_suffix in Hs. rewrite E in Hs. now apply Hs. }
  assert (locate (str q) = Some (loc_of q)) as Hlq.
  { apply PathFacts.locate_str; [exact Hq | unfold q; cbn [parts]; now destruct (removelast _)|].
    unfold q. rewrite PathFacts.name_snoc. intros ->. discriminate. }
  unfold rename, bind, os_rename.
  rewrite (PathFacts.locate_str p Hwf Hne Hdd), Hlq, Hf.
  cbn [ret]. now rewrite (PathFacts.Path_of_Path_id _ Hq).
Qed.

(** C6, as stated, fails: for [./a.py] the string returned is [a], and [a]
    with the suffix appended is [a.py], not the original string. *)
Lemma remove_suffix_dot_slash :
  in_list (path_suffix (Path_of_str "./a.py")) (keys SHEBANGS) = true
  /\ fst (remove_suffix "./a.py" world_dot_slash) = Ok "a"%string
  /\ ("a" +:+ path_suffix (Path_of_str "./a.py") = "a.py")%string
  /\ ("a" +:+ path_suffix (Path_of_str "./a.py"))%string <> "./a.py"%string.
Proof. repeat split; try (vm_compute; reflexivity). discriminate. Qed.

Lemma snoc_loc_ne (r : string) (l : list string) (x y : string) :
  x <> y ->
  loc_of {| root := r; parts := l ++ [x] |} <> loc_of {| root := r; parts := l ++ [y] |}.
Proof.
  intros Hxy E. unfold loc_of in E. cbn [root parts] in E.
  injection E as E. apply app_inj_tail in E. now destruct E.
Qed.

Lemma stripped_loc_ne p :
  path_suffix p <> EmptyString -> loc_of (stripped p) <> loc_of p.
Proof.
  intros Hs. pose proof (suffix_name_not_empty p Hs) as Hn.
  pose proof (parts_not_nil p Hn) as Hne.
  destruct (with_suffix_strip p Hn) as (x & Hw & Hx & Hx0 & Hlen).
  rewrite (stripped_eq p x Hw).
  assert (loc_of p
          = loc_of {| root := root p;
                      parts := removelast (parts p) ++ [path_name p] |}) as Ep.
  { unfold loc_of. cbn [root parts]. now rewrite <- (PathFacts.parts_removelast p Hne). }
  rewrite Ep. apply snoc_loc_ne. intros E. rewrite E in Hlen.
  assert (Str.len (path_suffix p) = 0%nat) as H0 by lia.
  apply StrFacts.len_0 in H0. contradiction.
Qed.

(** C6 (amended): [remove_suffix] works on the path in [pathlib]'s normal
    form.  For a path whose name has a suffix of the table, the string it
    returns followed by the suffix is the normal form of the original path
    string (the original string itself when that is already in normal form),
    and the file is then under the returned name and no longer under the old
    one; it does return whenever the file exists and the name without its
    suffix is neither [.] nor [..].  For a path whose name has no suffix it
    returns the string it was given and renames nothing. *)
Theorem remove_suffix_round_trip (fp : string) (w : world) :
  let p := Path_of_str fp in
  (path_suffix p = EmptyString ->
   remove_suffix fp w
   = (Ok fp, {| files := files w;
                out := out w ++ ["File already has no suffix"%string];
                umask := umask w |}))
  /\ (in_list (path_suffix p) (keys SHEBANGS) = true ->
      (forall s w',
         remove_suffix fp w = (Ok s, w') ->
         s +:+ path_suffix p = str p
         /\ (str p = fp -> s +:+ path_suffix p = fp)
         /\ exists f,
              lookup_file w (str p) = Some f
              /\ lookup_file w' s = Some f
              /\ lookup_file w' (str p) = None)
      /\ (forall f,
            lookup_file w (str p) = Some f ->
            dir_ref (path_name (stripped p)) = false ->
            exists s w', remove_suffix fp w = (Ok s, w'))).
Proof.
  intros p0. subst p0. split.
  - intros Hs. unfold remove_suffix. rewrite Hs. reflexivity.
  - intros Hk. pose proof (key_suffix_not_empty _ Hk) as Hs.
    rewrite (remove_suffix_normal fp w Hs).
    pose proof (PathFacts.wf_of_str fp) as Hwf.
    remember (Path_of_str fp) as p eqn:Ep. clear Ep.
    pose proof (suffix_name_not_empty p Hs) as Hn.
    pose proof (parts_not_nil p Hn) as Hne.
    assert (path_name p <> "..") as Hdd.
    { intros E. unfold path_suffix in Hs. rewrite E in Hs. now apply Hs. }
    pose proof (PathFacts.locate_str p Hwf Hne Hdd) as Hlp.
    split.
    + intros s w' H.
      destruct (remove_suffix_inv p w s w' Hwf Hs H) as (Hq & -> & Hrt & Hd & f & Hf & ->).
      split; [exact Hrt|]. split; [now intros <-|]. exists f.
      unfold lookup_file. rewrite Hlp. split; [exact Hf|].
      assert (locate (str (stripped p)) = Some (loc_of (stripped p))) as Hlq.
      { apply PathFacts.locate_str; [exact Hq| |].
        - intros E. unfold path_name in Hd. rewrite E in Hd. discriminate.
        - intros E. rewrite E in Hd. discriminate. }
      rewrite Hlq. cbn [files set_files]. split; [apply lookup_insert_eq|].
      rewrite lookup_insert_ne by now apply stripped_loc_ne.
      apply lookup_delete_eq.
    + intros f Hf Hd. unfold lookup_file in Hf. rewrite Hlp in Hf.
      rewrite (remove_suffix_ok p w f Hwf Hs Hf Hd). eauto.
Qed.

Lemma remove_suffix_round_trip_witness :
  fst (remove_suffix "/tmp/tool.py" world_script) = Ok "/tmp/tool"%string
  /\ ("/tmp/tool" +:+ path_suffix (Path_of_str "/tmp/tool.py")
      = str (Path_of_str "/tmp/tool.py"))%string
  /\ ("/tmp/tool" +:+ ".py" = "/tmp/tool.py")%string.
Proof.
  assert (remove_suffix "/tmp/tool.py" world_script
          = (Ok "/tmp/tool"%string, snd (remove_suffix "/tmp/tool.py" world_script)))
    as Hrun by (vm_compute; reflexivity).
  split; [vm_compute; reflexivity|].
  split; [|reflexivity].
  exact (proj1 (proj1 (proj2 (remove_suffix_round_trip "/tmp/tool.py" world_script)
                         eq_refl) _ _ Hrun)).
Defined.

(** ** The Name/Path Resolver: the destination *)

Module JoinFacts.
Import Str StrFacts PathFacts.

#[local] Arguments String.app !_ _ / : simpl nomatch.

Lemma split_app c s t :
  split c (s +:+ String c t) = split c s ++ split c t.
Proof.
  induction s as [|a s IH]; simpl.
  - now rewrite Ascii.eqb_refl.
  - rewrite IH. destruct (Ascii.eqb a c); [reflexivity|].
    destruct (split_cons c s) as (x & l & ->). reflexivity.
Qed.

Lemma rfind_app_sep c s t :
  contains c t = false -> rfind c (s +:+ String c t) = Z.of_nat (len s).
Proof.
  intros Ht. induction s as [|a s IH].
  - simpl "+:+". simpl rfind. apply rfind_none in Ht. rewrite Ht.
    simpl. now rewrite Ascii.eqb_refl.
  - change (String a s +:+ String c t) with (String a (s +:+ String c t)).
    simpl rfind. rewrite IH.
    replace (0 <=? Z.of_nat (len s)) with true by (symmetry; apply Z.leb_le; lia).
    simpl len. lia.
Qed.

Lemma drop_app s t : drop (len s) (s +:+ t) = t.
Proof. induction s as [|a s IH]; simpl; [reflexivity | exact IH]. Qed.

Lemma endswith_no c x : contains c x = false -> endswith c x = false.
Proof.
  intros H. destruct (endswith c x) eqn:E; [|reflexivity].
  apply endswith_contains in E. congruence.
Qed.

Lemma endswith_app c s t : t <> "" -> endswith c (s +:+ t) = endswith c t.
Proof.
  intros Ht. induction s as [|a s IH]; [reflexivity|].
  change (String a s +:+ t) with (String a (s +:+ t)).
  simpl endswith. destruct (s +:+ t) eqn:E; [|exact IH].
  destruct s; simpl in E; [congruence | discriminate].
Qed.

Lemma rstrip_app_sep c s :
  s <> "" -> endswith c s = false -> rstrip c (s +:+ String c "") = s.
Proof.
  induction s as [|a s IH]; [congruence|]. intros _ He.
  change (String a s +:+ String c "") with (String a (s +:+ String c "")).
  simpl rstrip. destruct s as [|b s].
  - simpl in *. rewrite Ascii.eqb_refl, He. reflexivity.
  - rewrite IH; [reflexivity | discriminate | exact He].
Qed.

Lemma join_app_snoc l x :
  l <> [] -> join "/" (l ++ [x]) = join "/" l +:+ String slash x.
Proof.
  induction l as [|y l IH]; [congruence|]. intros _.
  destruct l as [|z l]; [reflexivity|].
  change (join "/" ((y :: z :: l) ++ [x]))
    with (y +:+ "/" +:+ join "/" ((z :: l) ++ [x])).
  rewrite IH by discriminate.
  change (join "/" (y :: z :: l)) with (y +:+ "/" +:+ join "/" (z :: l)).
  now rewrite !append_assoc.
Qed.

Lemma join_good_end l :
  l <> [] -> Forall good l ->
  join "/" l <> "" /\ endswith slash (join "/" l) = false
  /\ startswith slash (join "/" l) = false.
Proof.
  intros Hne Hg. destruct (exists_last Hne) as (l' & y & ->).
  apply Forall_app in Hg. destruct Hg as [Hl Hy]. inversion Hy as [|? ? Hy' _]; subst.
  split; [now apply join_snoc_not_empty, good_not_empty|]. split.
  - destruct l' as [|z l']; [now apply endswith_no, Hy'|].
    rewrite join_app_snoc by discriminate.
    rewrite endswith_app by discriminate.
    simpl. destruct y; [now apply good_not_empty in Hy'|].
    now apply (endswith_no slash (String a y)), Hy'.
  - destruct l' as [|z l'].
    + now apply good_not_startswith.
    + inversion Hl; subst. simpl app.
      rewrite startswith_join by now apply good_not_empty.
      now apply good_not_startswith.
Qed.

(** [Path(r + t)] for a root [r] and a text [t] that starts with no slash. *)
Lemma Path_of_str_rooted r t :
  r = "" \/ r = "/" \/ r = "//" -> startswith slash t = false ->
  Path_of_str (r +:+ t)
  = {| root := r; parts := List.filter is_component (split slash t) |}.
Proof.
  intros Hr Ht. apply path_ext; cbn [root parts].
  - rewrite root_of_str. unfold splitroot.
    destruct Hr as [-> | [-> | ->]].
    + simpl "+:+". now rewrite Ht.
    + change ("/" +:+ t) with (replicate 1 slash +:+ t).
      rewrite (lstrip_replicate slash 1 t Ht), len_app. simpl.
      replace (S (len t) - len t)%nat with 1%nat by lia. reflexivity.
    + change ("//" +:+ t) with (replicate 2 slash +:+ t).
      rewrite (lstrip_replicate slash 2 t Ht), len_app. simpl.
      replace (S (S (len t)) - len t)%nat with 2%nat by lia. reflexivity.
  - rewrite parts_of_str.
    destruct Hr as [-> | [-> | ->]].
    + reflexivity.
    + change ("/" +:+ t) with (replicate 1 slash +:+ t).
      now rewrite split_replicate, filter_repeat_empty.
    + change ("//" +:+ t) with (replicate 2 slash +:+ t).
      now rewrite split_replicate, filter_repeat_empty.
Qed.

(** [os.path.split] of the string of a path: the string of its parent (the
    bare root when the parent has no component) and its name. *)
Lemma os_path_split_snoc r l x :
  r = "" \/ r = "/" \/ r = "//" -> Forall good l -> good x ->
  os_path_split (r +:+ join "/" (l ++ [x]))
  = (match l with [] => r | _ :: _ => r +:+ join "/" l end, x).
Proof.
  intros Hr Hl Hx. destruct l as [|y l].
  - simpl app. simpl join. destruct Hx as [_ Hx]. unfold os_path_split.
    destruct Hr as [-> | [-> | ->]].
    + simpl "+:+". apply rfind_none in Hx. rewrite Hx. reflexivity.
    + change ("/" +:+ x) with ("" +:+ String slash x).
      rewrite (rfind_app_sep slash "" x Hx). reflexivity.
    + change ("//" +:+ x) with ("/" +:+ String slash x).
      rewrite (rfind_app_sep slash "/" x Hx). reflexivity.
  - destruct (join_good_end (y :: l) ltac:(discriminate) Hl) as (Hj0 & Hje & Hjs).
    set (J := join "/" (y :: l)) in *.
    rewrite join_app_snoc by discriminate. fold J.
    rewrite <- append_assoc. unfold os_path_split.
    rewrite (rfind_app_sep slash (r +:+ J) x (proj2 Hx)).
    replace (Z.to_nat (Z.of_nat (len (r +:+ J)) + 1)) with (len ((r +:+ J) +:+ "/")).
    2:{ rewrite len_app. simpl. lia. }
    change (String slash x) with ("/" +:+ x). rewrite <- (append_assoc (r +:+ J) "/" x).
    rewrite take_app, drop_app.
    assert (r +:+ J <> "") as Hne.
    { destruct r; [exact Hj0 | discriminate]. }
    assert (endswith slash (r +:+ J) = false) as He.
    { now rewrite endswith_app. }
    assert (String.eqb ((r +:+ J) +:+ "/") "" = false) as E1.
    { apply String.eqb_neq. destruct (r +:+ J); discriminate. }
    assert (String.eqb ((r +:+ J) +:+ "/")
              (replicate (len ((r +:+ J) +:+ "/")) slash) = false) as E2.
    { apply String.eqb_neq. intros E. apply (f_equal (lstrip slash)) in E.
      rewrite <- (append_nil_r (replicate _ slash)) in E.
      rewrite (lstrip_replicate slash _ "" eq_refl) in E.
      rewrite append_assoc in E.
      assert (lstrip slash (r +:+ J +:+ "/") = J +:+ "/") as El.
      { assert (startswith slash (J +:+ "/") = false) as Hs'.
        { now rewrite startswith_app. }
        destruct Hr as [-> | [-> | ->]].
        - simpl "+:+" at 1. now apply lstrip_id.
        - apply (lstrip_replicate slash 1 _ Hs').
        - apply (lstrip_replicate slash 2 _ Hs'). }
      rewrite El in E. destruct J; [congruence | discriminate]. }
    rewrite E1, E2. cbn [negb andb].
    change "/"%string with (String slash ""). now rewrite rstrip_app_sep.
Qed.

End JoinFacts.

Lemma truediv_name p x :
  good x -> truediv p x = {| root := root p; parts := parts p ++ [x] |}.
Proof.
  intros Hx. unfold truediv. fold (Path_of_str x).
  now rewrite (PathFacts.Path_of_str_good x Hx).
Qed.

Lemma wf_truediv_name p x :
  wf p -> good x -> wf {| root := root p; parts := parts p ++ [x] |}.
Proof.
  intros [Hr Hg] Hx. split; [exact Hr|]. cbn [parts].
  apply Forall_app. split; [exact Hg | now constructor].
Qed.

Lemma truediv_str p c :
  truediv p c
  = if Str.startswith slash c then Path_of_str c
    else {| root := root p; parts := parts p ++ parts (Path_of_str c) |}.
Proof.
  unfold truediv. fold (Path_of_str c). rewrite PathFacts.root_empty_iff.
  now destruct (Str.startswith slash c).
Qed.

(** [Path(os.path.join(head, c))] for the head [os.path.split] gives. *)
Lemma Path_of_joined p c :
  wf p -> c <> EmptyString ->
  Path_of_str
    (os_path_join (match parts p with
                   | [] => root p
                   | _ :: _ => root p +:+ Str.join "/" (parts p)
                   end) c)
  = truediv p c.
Proof.
  intros [Hr Hg] Hc. rewrite truediv_str. unfold os_path_join.
  destruct (Str.startswith slash c) eqn:Hs; [reflexivity|].
  destruct (parts p) as [|y l] eqn:Hp.
  - simpl app.
    destruct Hr as [-> | [-> | ->]]; simpl orb; cbv iota.
    + change ("" +:+ c) with c. apply PathFacts.path_ext; [|reflexivity].
      cbn [root]. pose proof (PathFacts.root_empty_iff c) as E.
      rewrite Hs in E. now apply String.eqb_eq in E.
    + rewrite (JoinFacts.Path_of_str_rooted "/" c) by auto.
      now rewrite PathFacts.parts_of_str.
    + rewrite (JoinFacts.Path_of_str_rooted "//" c) by auto.
      now rewrite PathFacts.parts_of_str.
  - destruct (JoinFacts.join_good_end (y :: l) ltac:(discriminate) Hg) as (Hj0 & Hje & Hjs).
    set (J := Str.join "/" (y :: l)) in *.
    assert (String.eqb (root p +:+ J) "" = false) as E1.
    { apply String.eqb_neq. destruct (root p); [exact Hj0 | discriminate]. }
    assert (Str.endswith slash (root p +:+ J) = false) as E2.
    { now rewrite JoinFacts.endswith_app. }
    rewrite E1, E2. cbn [orb]. cbv iota.
    rewrite StrFacts.append_assoc.
    rewrite JoinFacts.Path_of_str_rooted; [|exact Hr|].
    2:{ now rewrite StrFacts.startswith_app. }
    f_equal. change ("/" +:+ c) with (String slash c).
    rewrite JoinFacts.split_app, List.filter_app. f_equal.
    + unfold J. change "/"%string with (String slash "").
      rewrite StrFacts.split_join; [now apply PathFacts.filter_good | discriminate|].
      eapply Forall_impl; [exact Hg|]. now intros z [_ Hz].
    + now rewrite PathFacts.parts_of_str.
Qed.

(** C8, as stated, fails: a custom name that begins with a slash is the
    destination itself, outside the install directory (a run with the custom
    name [/tmp/out] installs there), and with an empty custom name the
    destination is the one the stripped name gives, not the install
    directory. *)
Lemma build_final_path_leaves_install_dir :
  build_final_path (str (truediv (Path_of_str SCRIPTS_DIR) "tool"))
    (Some "/etc/tool"%string)
  = {| root := "/"; parts := ["etc"; "tool"]%string |}
  /\ build_final_path (str (truediv (Path_of_str SCRIPTS_DIR) "tool"))
       (Some EmptyString)
     = {| root := "/"; parts := ["home"; "kyle"; "bin"; "tool"]%string |}
  /\ (let run := run_operations "/tmp/tool.py" (Some "/tmp/out"%string) world_script in
      exit_status (fst run) = 0
      /\ lookup_file (snd run) "/tmp/out"
         = Some {| content := "#!/bin/python3" +:+ nl +:+ nl +:+ "print(1)";
                   perm := 484; who := Owner |}
      /\ lookup_file (snd run) "/home/kyle/bin/out" = None).
Proof. repeat split; vm_compute; reflexivity. Qed.

(** C8 (amended): for an install directory and a stripped name that is a
    file name, the destination is the install directory joined with the
    stripped name when no custom name is given or the custom name is empty;
    for a custom name that is not empty it is the install directory joined
    with the custom name by [pathlib]'s [/], the stripped name taking no
    part in it: the custom name as last component under the install
    directory when it is a file name, and the custom name alone, whatever
    the install directory, when it begins with a slash.  Installing
    [tool.py] as [mytool] puts the file at [/home/kyle/bin/mytool] and
    nothing at [/home/kyle/bin/tool]. *)
Theorem build_final_path_destination
    (install_dir stripped_name : string) :
  good stripped_name ->
  let combined := truediv (Path_of_str install_dir) stripped_name in
  build_final_path (str combined) None = combined
  /\ build_final_path (str combined) (Some EmptyString) = combined
  /\ (forall custom_name,
        custom_name <> EmptyString ->
        build_final_path (str combined) (Some custom_name)
        = truediv (Path_of_str install_dir) custom_name)
  /\ (forall custom_name,
        good custom_name ->
        build_final_path (str combined) (Some custom_name)
        = {| root := root (Path_of_str install_dir);
             parts := parts (Path_of_str install_dir) ++ [custom_name] |})
  /\ (forall custom_name,
        Str.startswith slash custom_name = true ->
        build_final_path (str combined) (Some custom_name)
        = Path_of_str custom_name)
  /\ (let run := run_operations "/tmp/tool.py" (Some "mytool"%string) world_script in
      exit_status (fst run) = 0
      /\ lookup_file (snd run) "/home/kyle/bin/mytool"
         = Some {| content := "#!/bin/python3" +:+ nl +:+ nl +:+ "print(1)";
                   perm := 484; who := Owner |}
      /\ lookup_file (snd run) "/home/kyle/bin/tool" = None).
Proof.
  intros Hx combined. subst combined.
  pose proof (PathFacts.wf_of_str install_dir) as Hwf.
  remember (Path_of_str install_dir) as p eqn:Ep. clear Ep.
  rewrite (truediv_name p _ Hx).
  pose proof (wf_truediv_name p _ Hwf Hx) as Hwf'.
  assert (forall c, c <> EmptyString ->
                    build_final_path
                      (str {| root := root p; parts := parts p ++ [stripped_name] |})
                      (Some c)
                    = truediv p c) as Hjoin.
  { intros c Hc. unfold build_final_path, given.
    apply String.eqb_neq in Hc. rewrite Hc. apply String.eqb_neq in Hc.
    rewrite str_snoc_eq by now apply PathFacts.good_not_empty.
    rewrite (JoinFacts.os_path_split_snoc (root p) (parts p) stripped_name
               (proj1 Hwf) (proj2 Hwf) Hx).
    now apply Path_of_joined. }
  split; [|split; [|split; [|split; [|split]]]].
  - unfold build_final_path. cbn [given]. now apply PathFacts.Path_of_str_str.
  - unfold build_final_path. cbn [given String.eqb]. now apply PathFacts.Path_of_str_str.
  - exact Hjoin.
  - intros c Hc. rewrite Hjoin by now apply PathFacts.good_not_empty.
    now apply truediv_name.
  - intros c Hc. rewrite Hjoin by (intros ->; discriminate).
    now rewrite truediv_str, Hc.
  - repeat split; vm_compute; reflexivity.
Qed.

Lemma build_final_path_destination_witness :
  build_final_path (str (truediv (Path_of_str SCRIPTS_DIR) "tool")) (Some "mytool"%string)
  = {| root := "/"; parts := ["home"; "kyle"; "bin"; "mytool"]%string |}.
Proof.
  exact (proj1 (proj2 (proj2
           (build_final_path_destination SCRIPTS_DIR "tool"
              (conj eq_refl eq_refl))))
           "mytool"%string ltac:(discriminate)).
Defined.

(** ** The whole run: what it may touch *)






Lemma frames_nowhere {A} K (m : M A) : frames nowhere m -> frames K m.
Proof. apply frames_mono. intros k []. Qed.



Lemma string_cons_ne a (s : string) : s <> String a s.
Proof.
  intros E. apply (f_equal Str.len) in E. simpl in E. lia.
Qed.

(** The staged copy is never at the location of the original. *)
Lemma staged_loc_ne fp k :
  parts (Path_of_str fp) <> [] ->
  locate (str (staged fp)) = Some k -> k <> loc_of (Path_of_str fp).
Proof.
  intros Hne Hk. pose proof (wf_staged fp Hne) as Hwf.
  destruct (PathFacts.locate_normal _ _ Hk) as [-> _].
  rewrite (PathFacts.Path_of_str_str _ Hwf).
  assert (loc_of (Path_of_str fp)
          = loc_of {| root := root (Path_of_str fp);
                      parts := removelast (parts (Path_of_str fp))
                               ++ [path_name (Path_of_str fp)] |}) as Ep.
  { unfold loc_of. cbn [root parts]. now rewrite <- (PathFacts.parts_removelast _ Hne). }
  rewrite Ep. unfold staged. apply snoc_loc_ne.
  intros E. symmetry in E. now apply string_cons_ne in E.
Qed.

Lemma removelast_snoc {A} (l : list A) x : removelast (l ++ [x]) = l.
Proof. apply removelast_last. Qed.

(** Neither is the staged copy once its suffix is removed. *)
Lemma stripped_staged_loc_ne fp k :
  parts (Path_of_str fp) <> [] ->
  locate (str (stripped (staged fp))) = Some k -> k <> loc_of (Path_of_str fp).
Proof.
  intros Hne Hk. pose proof (wf_staged fp Hne) as Hwf.
  set (o := Path_of_str fp) in *.
  assert (path_name (staged fp) <> "") as Hn by (rewrite name_staged; discriminate).
  destruct (with_suffix_strip (staged fp) Hn) as (x & Hw & Hx & Hx0 & Hlen).
  rewrite (stripped_eq _ x Hw) in Hk.
  pose proof (plain_stem (staged fp) x Hwf (parts_staged fp) Hx Hx0) as Hpl.
  destruct (wf_located (staged fp) x k Hwf Hpl Hk) as (_ & -> & _).
  assert (loc_of o
          = loc_of {| root := root o; parts := removelast (parts o) ++ [path_name o] |}) as Ep.
  { unfold loc_of. cbn [root parts]. now rewrite <- (PathFacts.parts_removelast _ Hne). }
  rewrite Ep. unfold staged at 1 2. fold o. cbn [root parts].
  rewrite removelast_snoc. apply snoc_loc_ne. intros E. subst x.
  rewrite name_staged in Hlen. fold o in Hlen. simpl Str.len in Hlen.
  assert (path_suffix (staged fp) <> "") as Hs.
  { intros E. rewrite E in Hlen. simpl in Hlen. lia. }
  unfold path_suffix in Hs, Hlen.
  destruct (PathFacts.name_suffix_split _ Hs) as (_ & Hl & _). lia.
Qed.




(** ** The whole run: the commit *)

Lemma no_exit_print s : no_exit (print s).
Proof. intros w e w' H. discriminate. Qed.

Lemma no_exit_lift {A} (r : result A) :
  (forall e, r = Raise e -> is_Exception (kind e) = true) -> no_exit (lift r).
Proof. intros Hr w e w' H. injection H as H _. now apply Hr. Qed.

Lemma no_exit_try {A} (m : M A) handles h :
  no_exit m -> (forall e, no_exit (h e)) -> no_exit (try_except m handles h).
Proof.
  intros Hm Hh w e w' H. unfold try_except in H.
  destruct (m w) as [[a|e'] w1] eqn:E; [discriminate|].
  destruct (handles (kind e')).
  - exact (Hh _ _ _ _ H).
  - injection H as <- <-. exact (Hm _ _ _ E).
Qed.

Lemma no_exit_first_item l : no_exit (first_item l).
Proof. intros w e w' H. destruct l; inversion H. reflexivity. Qed.

Lemma no_exit_read_text p : no_exit (read_text p).
Proof.
  unfold read_text.
  apply no_exit_bind; [apply no_exit_open_read | intros; apply no_exit_ret].
Qed.

Lemma no_exit_get_file_text sfx p : no_exit (get_file_text sfx p).
Proof.
  unfold get_file_text. destruct (negb _).
  - intros w e w' H. inversion H. reflexivity.
  - apply no_exit_bind; [apply no_exit_read_text | intros; apply no_exit_ret].
Qed.

Lemma no_exit_get_file_status p : no_exit (get_file_status p).
Proof.
  unfold get_file_status. cbv zeta.
  apply no_exit_bind; [apply no_exit_get_file_text|]. intros text.
  apply no_exit_bind; [apply no_exit_first_item|]. intros line0.
  apply no_exit_bind; [|intros; apply no_exit_ret].
  intros w e w' H. discriminate.
Qed.

Lemma no_exit_make_executable p : no_exit (make_executable p).
Proof.
  unfold make_executable.
  apply no_exit_bind; [intros w e w' H; discriminate|]. intros present.
  destruct (negb present); [intros w e w' H; inversion H; reflexivity|].
  apply no_exit_bind; [intros w e w' H; discriminate|]. intros [|].
  { apply no_exit_bind; [apply no_exit_print | intros; apply no_exit_ret]. }
  apply no_exit_bind; [apply no_exit_os_stat|]. intros st_mode.
  apply no_exit_bind; [|intros [v|]; apply no_exit_ret].
  apply no_exit_try.
  - apply no_exit_bind; [apply no_exit_os_chmod | intros; apply no_exit_ret].
  - intros e. apply no_exit_bind; [apply no_exit_print | intros; apply no_exit_ret].
Qed.

Lemma no_exit_os_rename a b : no_exit (os_rename a b).
Proof.
  intros w e w' H. unfold os_rename, ENOENT, raise in H.
  destruct (locate a); [|inversion H; reflexivity].
  destruct (locate b); destruct (files w !! _); inversion H; reflexivity.
Qed.

Lemma no_exit_os_remove p : no_exit (os_remove p).
Proof.
  intros w e w' H. unfold os_remove, ENOENT, EISDIR, raise in H.
  destruct (locate p); [destruct (files w !! _)|]; inversion H; reflexivity.
Qed.

Lemma no_exit_remove_suffix p : no_exit (remove_suffix p).
Proof.
  unfold remove_suffix. destruct (String.eqb _ _).
  { apply no_exit_bind; [apply no_exit_print | intros; apply no_exit_ret]. }
  apply no_exit_bind.
  - apply no_exit_lift. intros e He. unfold with_suffix in He.
    cbn [Str.contains negb String.eqb andb orb] in He.
    destruct (String.eqb _ _); inversion He. reflexivity.
  - intros target. apply no_exit_bind; [|intros; apply no_exit_ret].
    unfold rename. apply no_exit_bind; [apply no_exit_os_rename | intros; apply no_exit_ret].
Qed.


Lemma open_write_inv p data w u w' :
  open_write p data w = (Ok u, w') ->
  exists l g, locate p = Some l /\ files w' = <[l := g]> (files w).
Proof.
  unfold open_write, EACCES, EISDIR, raise.
  destruct (locate p) as [l|]; [|discriminate].
  destruct (files w !! l) as [f|]; [destruct (writable f); [|discriminate]|];
    intros H; injection H as _ <-; eauto.
Qed.

Lemma os_chmod_inv p mode w u w' :
  os_chmod p mode w = (Ok u, w') ->
  exists l g, locate p = Some l /\ files w' = <[l := g]> (files w).
Proof.
  unfold os_chmod, ENOENT, EPERM, raise.
  destruct (locate p) as [l|]; [|discriminate].
  destruct (files w !! l) as [f|]; [|discriminate].
  destruct (who f); try discriminate.
  intros H; injection H as _ <-; eauto.
Qed.

Lemma os_stat_inv p w m w' : os_stat_st_mode p w = (Ok m, w') -> w' = w.
Proof.
  unfold os_stat_st_mode, ENOENT, raise.
  destruct (lookup_file w p); [|discriminate]. now intros H; injection H.
Qed.

(** After a copy that succeeded the destination exists, and it is not the
    source. *)
Lemma shutil_copy_dst src dst w d w' :
  shutil_copy src dst w = (Ok d, w') ->
  exists ls ld,
    locate src = Some ls /\ locate dst = Some ld /\ ls <> ld
    /\ is_Some (files w' !! ld).
Proof.
  unfold shutil_copy. intros H.
  apply bind_inv in H. destruct H as [(same & w1 & E & H) | (? & _ & ?)]; [|discriminate].
  injection E as Hsame <-. destruct same; [discriminate|].
  apply bind_inv in H. destruct H as [(data & w2 & E & H) | (? & _ & ?)]; [|discriminate].
  apply open_read_inv in E. destruct E as (-> & f & Hf & Hr & ->).
  unfold lookup_file in Hf. destruct (locate src) as [ls|] eqn:Hls; [|discriminate].
  apply bind_inv in H. destruct H as [(u & w3 & E & H) | (? & _ & ?)]; [|discriminate].
  apply open_write_inv in E. destruct E as (ld & g & Hld & Hw3).
  apply bind_inv in H. destruct H as [(m & w4 & E & H) | (? & _ & ?)]; [|discriminate].
  apply os_stat_inv in E. subst w4.
  apply bind_inv in H. destruct H as [(u' & w5 & E & H) | (? & _ & ?)]; [|discriminate].
  apply os_chmod_inv in E. destruct E as (ld' & g' & Hld' & Hw5).
  injection H as _ <-.
  rewrite Hld in Hld'. injection Hld' as <-.
  exists ls, ld. split; [reflexivity|]. split; [exact Hld|]. split.
  - rewrite Hld, Hf in Hsame. intros ->.
    rewrite bool_decide_eq_true_2 in Hsame by reflexivity.
    rewrite bool_decide_eq_true_2 in Hsame by eauto. discriminate.
  - rewrite Hw5, lookup_insert_eq. eauto.
Qed.



(** The staged copy has the suffix of the original. *)
Lemma suffix_staged fp :
  path_suffix (Path_of_str fp) <> EmptyString ->
  path_suffix (staged fp) = path_suffix (Path_of_str fp).
Proof.
  intros Hs. unfold path_suffix in *. rewrite name_staged.
  now apply PathFacts.name_suffix_dot.
Qed.


(** ** The installed name: what the run computes *)

Lemma append_inv_tail s1 s2 t : s1 +:+ t = s2 +:+ t -> s1 = s2.
Proof.
  intros E. assert (Str.len s1 = Str.len s2) as Hl.
  { apply (f_equal Str.len) in E. rewrite !StrFacts.len_app in E. lia. }
  rewrite <- (StrFacts.take_app s1 t), E, Hl. apply StrFacts.take_app.
Qed.

Lemma contains_lstrip c d s :
  Str.contains c s = false -> Str.contains c (Str.lstrip d s) = false.
Proof.
  intros H. rewrite (StrFacts.lstrip_split d s), StrFacts.contains_app in H.
  now apply orb_false_iff in H.
Qed.

(** What is left of a name once every leading dot is dropped is a file name
    as soon as it is not empty. *)
Lemma good_lstrip x :
  Str.contains slash x = false -> Str.lstrip dot x <> EmptyString ->
  good (Str.lstrip dot x).
Proof.
  intros Hc Hne. split; [|now apply contains_lstrip].
  unfold is_component. apply String.eqb_neq in Hne. rewrite Hne. cbn [negb andb].
  pose proof (StrFacts.lstrip_not_startswith dot x) as Hs.
  destruct (String.eqb (Str.lstrip dot x) ".") eqn:E; [|reflexivity].
  apply String.eqb_eq in E. rewrite E in Hs. discriminate.
Qed.

(** The names a run computes for a file [x + suffix]: the staged copy is
    renamed to [.x], and the destination is the install directory with [x]
    less all its leading dots. *)
Lemma destination_name fp x :
  in_list (path_suffix (Path_of_str fp)) (keys SHEBANGS) = true ->
  x +:+ path_suffix (Path_of_str fp) = path_name (Path_of_str fp) ->
  Str.lstrip dot x <> EmptyString ->
  path_name (stripped (staged fp)) = String dot x
  /\ destination (staged fp) None
     = {| root := "/"; parts := ["home"; "kyle"; "bin"; Str.lstrip dot x]%string |}
  /\ str (destination (staged fp) None) = "/home/kyle/bin/" +:+ Str.lstrip dot x.
Proof.
  intros Hk Hx Hne.
  pose proof (key_suffix_not_empty _ Hk) as Hs.
  pose proof (parts_not_nil _ (suffix_name_not_empty _ Hs)) as Hparts.
  pose proof (PathFacts.good_name _ (PathFacts.wf_of_str fp) Hparts) as [_ Hc].
  rewrite <- Hx, StrFacts.contains_app in Hc. apply orb_false_iff in Hc.
  destruct Hc as [Hc _].
  assert (path_name (staged fp) <> "") as Hn by (rewrite name_staged; discriminate).
  destruct (with_suffix_strip (staged fp) Hn) as (x' & Hw & Hx' & _).
  rewrite (suffix_staged fp Hs), name_staged, <- Hx in Hx'.
  change (String dot (x +:+ path_suffix (Path_of_str fp)))
    with (String dot x +:+ path_suffix (Path_of_str fp)) in Hx'.
  apply append_inv_tail in Hx'. subst x'.
  assert (path_name (stripped (staged fp)) = String dot x) as Hname.
  { rewrite (stripped_eq _ _ Hw). apply PathFacts.name_snoc. }
  split; [exact Hname|].
  pose proof (good_lstrip x Hc Hne) as Hg.
  assert (destination (staged fp) None
          = {| root := "/"; parts := ["home"; "kyle"; "bin"; Str.lstrip dot x]%string |})
    as Hd.
  { unfold destination. cbv zeta. rewrite Hname.
    change (Str.lstrip dot (String dot x)) with (Str.lstrip dot x).
    rewrite (truediv_name _ _ Hg).
    unfold build_final_path. cbn [given].
    change (Path_of_str SCRIPTS_DIR)
      with {| root := "/"; parts := ["home"; "kyle"; "bin"]%string |}.
    cbn [root parts app].
    apply PathFacts.Path_of_str_str. split; [auto|]. cbn [parts].
    repeat (constructor; [split; reflexivity|]). constructor; [exact Hg | constructor]. }
  split; [exact Hd|]. rewrite Hd.
  change ["home"; "kyle"; "bin"; Str.lstrip dot x]%string
    with (["home"; "kyle"; "bin"]%string ++ [Str.lstrip dot x]).
  rewrite str_snoc_eq by exact Hne. reflexivity.
Qed.

(** ** The whole run: a successful installation *)

Lemma mode_bits m i :
  0 <= i < 12 -> Z.testbit (S_IMODE (Z.lor S_IFREG m)) i = Z.testbit m i.
Proof.
  intros Hi. unfold S_IMODE, S_IFREG.
  change 4095 with (Z.ones 12). rewrite Z.land_ones by lia.
  rewrite Z.mod_pow2_bits_low by lia. rewrite Z.lor_spec.
  change 32768 with (2 ^ 15). rewrite Z.pow2_bits_eqb by lia.
  replace (15 =? i) with false by (symmetry; apply Z.eqb_neq; lia).
  reflexivity.
Qed.

Lemma shutil_copy_new src dst w ls ld f :
  locate src = Some ls -> locate dst = Some ld -> ls <> ld ->
  files w !! ls = Some f -> readable f = true -> files w !! ld = None ->
  shutil_copy src dst w = (Ok dst, set_files w (<[ld := copy_of f]> (files w))).
Proof.
  intros Hls Hld Hne Hf Hr Hd. unfold shutil_copy.
  unfold bind at 1. rewrite Hls, Hld.
  rewrite (bool_decide_eq_false_2 _ Hne). cbn [andb].
  assert (lookup_file w src = Some f) as Hsrc by (unfold lookup_file; now rewrite Hls).
  run (open_read_ok w src f Hsrc Hr).
  unfold bind at 1, open_write. rewrite Hld, Hd.
  unfold bind at 1, os_stat_st_mode, lookup_file. rewrite Hls. cbn [files set_files].
  rewrite lookup_insert_ne by (intros E; now apply Hne). rewrite Hf.
  unfold bind at 1, os_chmod. rewrite Hld. cbn [files set_files].
  rewrite lookup_insert_eq. cbn [who content]. unfold ret, set_files. cbn [files out umask].
  rewrite insert_insert_eq. unfold copy_of.
  replace (S_IMODE (S_IMODE (Z.lor S_IFREG (perm f))))
    with (S_IMODE (Z.lor S_IFREG (perm f))); [reflexivity|].
  unfold S_IMODE. now rewrite <- Z.land_assoc, Z.land_diag.
Qed.

Lemma open_write_existing p data w l h :
  locate p = Some l -> files w !! l = Some h -> writable h = true ->
  open_write p data w
  = (Ok tt, set_files w (<[l := {| content := data; perm := perm h; who := who h |}]>
                           (files w))).
Proof. intros Hl Hh Hw. unfold open_write. now rewrite Hl, Hh, Hw. Qed.

Lemma os_remove_ok p w l g :
  locate p = Some l -> files w !! l = Some g ->
  os_remove p w = (Ok tt, set_files w (delete l (files w))).
Proof. intros Hl Hg. unfold os_remove. now rewrite Hl, Hg. Qed.

Lemma loc_of_name p q : parts p <> [] -> loc_of p = loc_of q -> path_name p = path_name q.
Proof. unfold loc_of, path_name. intros _ E. injection E as _ E. now rewrite E. Qed.

Lemma copy_of_readable f :
  who f = Owner -> readable (copy_of f) = readable f.
Proof.
  intros Ho. unfold readable, copy_of. cbn [perm who]. rewrite Ho. cbn [class_bit].
  apply mode_bits. lia.
Qed.

Lemma copy_of_writable f :
  who f = Owner -> writable (copy_of f) = writable f.
Proof.
  intros Ho. unfold writable, copy_of. cbn [perm who]. rewrite Ho. cbn [class_bit].
  apply mode_bits. lia.
Qed.

Lemma copy_of_executable f :
  who f = Owner -> executable (copy_of f) = executable f.
Proof.
  intros Ho. unfold executable, copy_of. cbn [perm who]. rewrite Ho. cbn [class_bit].
  apply mode_bits. lia.
Qed.

Lemma with_exec_facts g :
  who g = Owner ->
  executable (with_exec g) = true
  /\ readable (with_exec g) = readable g
  /\ writable (with_exec g) = writable g.
Proof.
  intros Ho. unfold executable, readable, writable, with_exec. cbn [perm who].
  rewrite Ho. cbn [class_bit]. rewrite !with_exec_bits by lia.
  change (6 =? 6) with true. change (8 =? 6) with false. change (7 =? 6) with false.
  rewrite orb_true_r, !orb_false_r. auto.
Qed.

(** Staging a readable file at a free staged path. *)
Lemma make_temp_file_ok fp w f :
  parts (Path_of_str fp) <> [] ->
  locate (str (Path_of_str fp)) = Some (loc_of (Path_of_str fp)) ->
  locate (str (staged fp)) = Some (loc_of (staged fp)) ->
  files w !! loc_of (Path_of_str fp) = Some f -> readable f = true ->
  files w !! loc_of (staged fp) = None ->
  make_temp_file fp w
  = (Ok (inl (staged fp)),
     set_files w (<[loc_of (staged fp) := copy_of f]> (files w))).
Proof.
  intros Hne Hlo Hls Hf Hr Hst.
  assert (loc_of (Path_of_str fp) <> loc_of (staged fp)) as Hd.
  { intros E. symmetry in E. revert E. now apply staged_loc_ne. }
  pose proof (shutil_copy_new _ _ w _ _ f Hlo Hls Hd Hf Hr Hst) as Hcopy.
  unfold make_temp_file. cbv zeta. rewrite (with_name_staged fp Hne).
  unfold lift. rewrite (bind_ok _ _ w _ w eq_refl).
  assert (copy_file (str (Path_of_str fp)) (str (staged fp)) w
          = (Ok 0, set_files w (<[loc_of (staged fp) := copy_of f]> (files w)))) as Hc.
  { unfold copy_file, try_except. now rewrite (bind_ok _ _ _ _ _ Hcopy). }
  run Hc. reflexivity.
Qed.


(** The directive step for a suffix of the table. *)
Lemma directive_ok (b : bool) raw sfx w :
  in_list sfx (keys SHEBANGS) = true ->
  b = in_list (hd EmptyString (Str.split newline (universal_newlines raw)))
        (values SHEBANGS) ->
  exists w' new_lines,
    (if negb b
     then
       bind (try_except
               (bind (add_shebang (universal_newlines raw) sfx) (fun l => ret (Some l)))
               (fun k => match k with AssertionError => true | _ => false end)
               (fun e => bind (print (text e)) (fun _ => sys_exit 0)))
         (fun new_lines =>
            bind (print "No shebang found, adding...") (fun _ => ret new_lines))
     else
       bind (print "File already has a shebang, skipping...") (fun _ => ret None)) w
    = (Ok new_lines, w')
    /\ files w' = files w /\ umask w' = umask w
    /\ ((new_lines = None /\ installed_text sfx raw = raw)
        \/ exists l ls, new_lines = Some (l :: ls)
                        /\ installed_text sfx raw = Str.join nl (l :: ls)).
Proof.
  intros Hk Hb. unfold installed_text. cbv zeta. rewrite <- Hb.
  destruct b; cbn [negb].
  - eexists _, None. split; [reflexivity|]. cbn. auto.
  - assert (exists d, getitem SHEBANGS sfx = Some d) as (d & Hd).
    { simpl in *. destruct (String.eqb sfx ".py"); [eauto|].
      destruct (String.eqb sfx ".sh"); [eauto | discriminate]. }
    rewrite Hd.
    set (body := universal_newlines raw) in *.
    assert (add_shebang body sfx w = (Ok (d :: "" :: Str.split newline body), w)) as Ha.
    { unfold add_shebang. rewrite Hk, Hd. cbn [negb].
      rewrite (bind_ok _ _ _ _ _ (first_item_split _ _)).
      destruct (String.eqb (hd "" (Str.split newline body)) d) eqn:E; [|reflexivity].
      apply String.eqb_eq in E. exfalso.
      assert (in_list d (values SHEBANGS) = true) as Hin.
      { apply values_SHEBANGS. eauto. }
      rewrite <- E, <- Hb in Hin. discriminate. }
    unfold bind at 1, try_except. rewrite (bind_ok _ _ _ _ _ Ha).
    eexists _, _. split; [reflexivity|]. cbn [files umask].
    split; [reflexivity|]. split; [reflexivity|]. right. eauto.
Qed.

(** The staged name without its suffix, [.x], is a file name when [x] has a
    character other than dots. *)
Lemma dotted_good x :
  Str.contains slash x = false -> Str.lstrip dot x <> EmptyString ->
  good (String dot x) /\ dir_ref (String dot x) = false.
Proof.
  intros Hc Hne.
  assert (String dot x <> ".") as H1.
  { intros E. injection E as ->. now apply Hne. }
  assert (String dot x <> "..") as H2.
  { intros E. injection E as ->. now apply Hne. }
  apply String.eqb_neq in H1. apply String.eqb_neq in H2.
  split; [split; [|exact Hc]|].
  - unfold is_component. rewrite H1. reflexivity.
  - unfold dir_ref. rewrite H1, H2. reflexivity.
Qed.


(** ** The installed name: what the run installs *)



(** * Further properties of the script *)

(** ** [copy_file] *)

Lemma quiet_bind {A B} (m : M A) (k : A -> M B) :
  quiet m -> (forall a, quiet (k a)) -> quiet (bind m k).
Proof.
  intros Hm Hk w r w' H. apply bind_inv in H.
  destruct H as [(a & w1 & H1 & H) | (e & H1 & _)].
  - rewrite (Hk _ _ _ _ H). exact (Hm _ _ _ H1).
  - exact (Hm _ _ _ H1).
Qed.

Lemma quiet_ret {A} (a : A) : quiet (ret a).
Proof. intros w r w' H. now injection H as _ <-. Qed.

Lemma quiet_raise {A} k msg : quiet (@raise A k msg).
Proof. intros w r w' H. now injection H as _ <-. Qed.

Lemma quiet_open_read p : quiet (open_read p).
Proof.
  intros w r w' H. unfold open_read, ENOENT, EACCES, EISDIR, raise in H.
  destruct (locate p); [destruct (files w !! _) as [f|]; [destruct (readable f)|]|];
    now injection H as _ <-.
Qed.

Lemma quiet_open_write p data : quiet (open_write p data).
Proof.
  intros w r w' H. unfold open_write, EACCES, EISDIR, raise in H.
  destruct (locate p); [destruct (files w !! _) as [f|]; [destruct (writable f)|]|];
    now injection H as _ <-.
Qed.

Lemma quiet_os_stat p : quiet (os_stat_st_mode p).
Proof.
  intros w r w' H. unfold os_stat_st_mode, ENOENT, raise in H.
  destruct (lookup_file w p); now injection H as _ <-.
Qed.

Lemma quiet_os_chmod p mode : quiet (os_chmod p mode).
Proof.
  intros w r w' H. unfold os_chmod, ENOENT, EPERM, raise in H.
  destruct (locate p); [destruct (files w !! _) as [f|]; [destruct (who f)|]|];
    now injection H as _ <-.
Qed.

Lemma quiet_shutil_copy src dst : quiet (shutil_copy src dst).
Proof.
  unfold shutil_copy. apply quiet_bind.
  { intros w r w' H. now injection H as _ <-. }
  intros [|]; [apply quiet_raise|].
  apply quiet_bind; [apply quiet_open_read|]. intros data.
  apply quiet_bind; [apply quiet_open_write|]. intros _.
  apply quiet_bind; [apply quiet_os_stat|]. intros st_mode.
  apply quiet_bind; [apply quiet_os_chmod|]. intros _.
  apply quiet_ret.
Qed.

(** The outcome of [copy_file], by the outcome of the copy. *)
Lemma copy_file_cases src dst w :
  (exists w', shutil_copy src dst w = (Ok dst, w')
              /\ copy_file src dst w = (Ok 0, w'))
  \/ (exists e w0,
        shutil_copy src dst w = (Raise e, w0)
        /\ copy_file src dst w
           = (Ok 1,
              {| files := files w0;
                 out := out w0
                        ++ [match kind e with
                            | FileNotFoundError =>
                                "Source file " +:+ src +:+ " not found."
                            | PermissionError =>
                                "Permission denied: unable to move " +:+ src +:+ "."
                            | _ => "An error occurred while moving the file: " +:+ text e
                            end];
                 umask := umask w0 |})).
Proof.
  unfold copy_file, try_except.
  destruct (shutil_copy src dst w) as [[d|e] w0] eqn:Hc.
  - left. exists w0. rewrite (shutil_copy_returns _ _ _ _ _ Hc) in *.
    split; [reflexivity|]. now rewrite (bind_ok _ _ _ _ _ Hc).
  - right. exists e, w0. split; [reflexivity|].
    rewrite (bind_raise _ _ _ _ _ Hc).
    rewrite (shutil_copy_exception _ _ _ _ _ Hc).
    destruct (kind e); reflexivity.
Qed.

(** X1: [copy_file] lets no exception out.  Whatever the paths and the
    files, it returns 0 or 1; when it returns 0 it has printed nothing, and
    when it returns 1 it has printed exactly one line.  When the destination
    path holds a regular file before the call, no file but that one changes,
    and after a return of 0 the destination path still holds a file. *)
Theorem copy_file_returns (file_path destination_path : string) (w : world) :
  exists v w',
    copy_file file_path destination_path w = (Ok v, w')
    /\ ((v = 0 /\ out w' = out w)
        \/ (v = 1 /\ exists line, out w' = out w ++ [line]))
    /\ (is_Some (lookup_file w destination_path) ->
        (forall k, locate destination_path <> Some k -> files w' !! k = files w !! k)
        /\ (v = 0 -> is_Some (lookup_file w' destination_path))).
Proof.
  assert (forall k, locate destination_path <> Some k ->
                    forall v w', copy_file file_path destination_path w = (Ok v, w') ->
                                 files w' !! k = files w !! k) as Hframe.
  { intros k Hk v w' H.
    exact (proj1 (frames_copy_file file_path destination_path w _ _ H) k Hk). }
  destruct (copy_file_cases file_path destination_path w)
    as [(w' & Hc & E) | (e & w0 & Hc & E)].
  - exists 0, w'. split; [exact E|]. split.
    { left. split; [reflexivity | exact (quiet_shutil_copy _ _ _ _ _ Hc)]. }
    intros _. split; [intros k Hk; exact (Hframe k Hk _ _ E)|]. intros _.
    destruct (shutil_copy_dst _ _ _ _ _ Hc) as (ls & ld & _ & Hld & _ & Hex).
    unfold lookup_file. now rewrite Hld.
  - eexists 1, _. split; [exact E|]. split.
    { right. split; [reflexivity|]. eexists. cbn [out].
      now rewrite (quiet_shutil_copy _ _ _ _ _ Hc). }
    intros _. split; [intros k Hk; exact (Hframe k Hk _ _ E)|]. discriminate.
Qed.

Lemma shutil_copy_differ src dst w :
  locate dst <> locate src ->
  shutil_copy src dst w
  = (data <- open_read src ;;
     open_write dst data ;;;
     st_mode <- os_stat_st_mode src ;;
     os_chmod dst (S_IMODE st_mode) ;;;
     ret dst) w.
Proof.
  intros Hne. unfold shutil_copy. unfold bind at 1.
  destruct (locate src) as [ls|], (locate dst) as [ld|]; try reflexivity.
  rewrite bool_decide_eq_false_2 by congruence. reflexivity.
Qed.

Lemma shutil_copy_absent src dst w l :
  locate src = Some l -> files w !! l = None ->
  shutil_copy src dst w
  = (Raise (mkExn FileNotFoundError (errno "2" "No such file or directory" src)), w).
Proof.
  intros Hl Hf. unfold shutil_copy. unfold bind at 1. rewrite Hl, Hf.
  assert (bool_decide (is_Some (@None file)) = false) as ->.
  { apply bool_decide_eq_false_2. now intros [? ?]. }
  replace (match locate dst with
           | Some ld => bool_decide (l = ld) && false
           | None => false
           end) with false by (destruct (locate dst); now rewrite ?andb_false_r).
  unfold bind at 1, open_read. now rewrite Hl, Hf.
Qed.

Lemma copy_file_absent src dst w l :
  locate src = Some l -> files w !! l = None ->
  copy_file src dst w
  = (Ok 1, {| files := files w;
              out := out w ++ ["Source file " +:+ src +:+ " not found."];
              umask := umask w |}).
Proof.
  intros Hl Hf. unfold copy_file, try_except.
  now rewrite (bind_raise _ _ _ _ _ (shutil_copy_absent src dst w l Hl Hf)).
Qed.

(** X2: when the source path names no file, [copy_file] prints
    [Source file <path> not found.], returns 1 and changes no file. *)
Theorem copy_file_missing_source (file_path destination_path : string) (w : world)
    (l : loc) :
  locate file_path = Some l -> files w !! l = None ->
  copy_file file_path destination_path w
  = (Ok 1, {| files := files w;
              out := out w ++ ["Source file " +:+ file_path +:+ " not found."];
              umask := umask w |}).
Proof.
  intros Hl Hf. unfold copy_file, try_except.
  now rewrite (bind_raise _ _ _ _ _ (shutil_copy_absent _ destination_path w l Hl Hf)).
Qed.

Lemma copy_file_missing_source_witness :
  copy_file "a.py" ".a.py" world_empty
  = (Ok 1, {| files := ∅; out := ["Source file a.py not found."%string]; umask := 18 |}).
Proof.
  apply (copy_file_missing_source "a.py" ".a.py" world_empty (false, ["a.py"%string])).
  - vm_compute. reflexivity.
  - reflexivity.
Defined.

Lemma shutil_copy_denied src dst w f :
  lookup_file w src = Some f -> locate dst <> locate src ->
  readable f = false
  \/ (exists g, lookup_file w dst = Some g /\ writable g = false) ->
  exists p,
    shutil_copy src dst w
    = (Raise (mkExn PermissionError (errno "13" "Permission denied" p)), w).
Proof.
  intros Hf Hne Hd. rewrite (shutil_copy_differ src dst w Hne).
  unfold lookup_file in Hf. destruct (locate src) as [ls|] eqn:Hls; [|discriminate].
  destruct (readable f) eqn:Hr.
  - destruct Hd as [?|(g & Hg & Hw)]; [discriminate|].
    unfold lookup_file in Hg. destruct (locate dst) as [ld|] eqn:Hld; [|discriminate].
    exists dst. unfold bind at 1, open_read. rewrite Hls, Hf, Hr.
    unfold bind at 1, open_write. now rewrite Hld, Hg, Hw.
  - exists src. unfold bind at 1, open_read. now rewrite Hls, Hf, Hr.
Qed.

(** X3: when the source cannot be read, or the destination is a file that
    cannot be written, [copy_file] prints
    [Permission denied: unable to move <path>.], returns 1 and changes no
    file. *)
Theorem copy_file_permission_denied
    (file_path destination_path : string) (w : world) (f : file) :
  lookup_file w file_path = Some f ->
  locate destination_path <> locate file_path ->
  readable f = false
  \/ (exists g, lookup_file w destination_path = Some g /\ writable g = false) ->
  copy_file file_path destination_path w
  = (Ok 1, {| files := files w;
              out := out w ++ ["Permission denied: unable to move "
                               +:+ file_path +:+ "."];
              umask := umask w |}).
Proof.
  intros Hf Hne Hd.
  destruct (shutil_copy_denied _ _ _ _ Hf Hne Hd) as (p & Hc).
  unfold copy_file, try_except. now rewrite (bind_raise _ _ _ _ _ Hc).
Qed.

Lemma copy_file_permission_denied_witness :
  copy_file "a.py" ".a.py" world_locked
  = (Ok 1, {| files := files world_locked;
              out := ["Permission denied: unable to move a.py."%string];
              umask := 18 |}).
Proof.
  apply (copy_file_permission_denied "a.py" ".a.py" world_locked
           {| content := "print(1)"; perm := 0; who := Owner |}).
  - vm_compute. reflexivity.
  - vm_compute. discriminate.
  - left. reflexivity.
Defined.

Lemma S_IMODE_regular m : S_IMODE (Z.lor S_IFREG m) = Z.land m 4095.
Proof.
  unfold S_IMODE, S_IFREG. rewrite Z.land_lor_distr_l.
  change (Z.land 32768 4095) with 0. apply Z.lor_0_l.
Qed.

(** X4: copying a readable file to a free path returns 0, prints nothing
    and creates the destination with the text and the permission bits of the
    source, owned by the process; no other file changes. *)
Theorem copy_file_copies
    (file_path destination_path : string) (w : world) (ls ld : loc) (f : file) :
  locate file_path = Some ls -> locate destination_path = Some ld -> ls <> ld ->
  files w !! ls = Some f -> readable f = true -> files w !! ld = None ->
  copy_file file_path destination_path w
  = (Ok 0,
     {| files := <[ld := {| content := content f;
                            perm := Z.land (perm f) 4095;
                            who := Owner |}]> (files w);
        out := out w;
        umask := umask w |}).
Proof.
  intros Hls Hld Hne Hf Hr Hd.
  pose proof (shutil_copy_new _ _ w ls ld f Hls Hld Hne Hf Hr Hd) as Hc.
  unfold copy_file, try_except. rewrite (bind_ok _ _ _ _ _ Hc).
  unfold ret, set_files, copy_of. now rewrite S_IMODE_regular.
Qed.

Lemma copy_file_copies_witness :
  copy_file "/tmp/tool.py" "/tmp/.tool.py" world_script
  = (Ok 0,
     {| files := <[(true, ["tmp"; ".tool.py"]%string)
                   := {| content := "print(1)"; perm := Z.land 420 4095; who := Owner |}]>
                   (files world_script);
        out := [];
        umask := 18 |}).
Proof.
  apply (copy_file_copies "/tmp/tool.py" "/tmp/.tool.py" world_script
           (true, ["tmp"; "tool.py"]%string) (true, ["tmp"; ".tool.py"]%string)
           script_644).
  - vm_compute. reflexivity.
  - vm_compute. reflexivity.
  - discriminate.
  - vm_compute. reflexivity.
  - reflexivity.
  - vm_compute. reflexivity.
Defined.

(** X5: when the destination is a file of another user that the process
    may write, [copy_file] replaces its text and then fails on the change of
    mode: it reports a denied permission and returns 1, although the
    destination now holds the text of the source. *)
Theorem copy_file_overwrites_then_fails
    (file_path destination_path : string) (w : world) (ls ld : loc) (f g : file) :
  locate file_path = Some ls -> locate destination_path = Some ld -> ls <> ld ->
  files w !! ls = Some f -> readable f = true ->
  files w !! ld = Some g -> writable g = true -> who g <> Owner ->
  copy_file file_path destination_path w
  = (Ok 1,
     {| files := <[ld := {| content := content f; perm := perm g; who := who g |}]>
                   (files w);
        out := out w ++ ["Permission denied: unable to move " +:+ file_path +:+ "."];
        umask := umask w |}).
Proof.
  intros Hls Hld Hne Hf Hr Hg Hw Ho.
  assert (shutil_copy file_path destination_path w
          = (Raise (mkExn PermissionError
                      (errno "1" "Operation not permitted" destination_path)),
             set_files w (<[ld := {| content := content f; perm := perm g;
                                     who := who g |}]> (files w)))) as Hc.
  { rewrite shutil_copy_differ by congruence.
    unfold bind at 1, open_read. rewrite Hls, Hf, Hr.
    unfold bind at 1, open_write. rewrite Hld, Hg, Hw.
    unfold bind at 1, os_stat_st_mode, lookup_file. rewrite Hls. cbn [files set_files].
    rewrite lookup_insert_ne by exact (fun E => Hne (eq_sym E)). rewrite Hf.
    unfold bind at 1, os_chmod. rewrite Hld. cbn [files set_files].
    rewrite lookup_insert_eq. cbn [who]. now destruct (who g). }
  unfold copy_file, try_except. now rewrite (bind_raise _ _ _ _ _ Hc).
Qed.

Lemma copy_file_overwrites_then_fails_witness :
  copy_file "a.py" "b" world_shared
  = (Ok 1,
     {| files := <[(false, ["b"%string])
                   := {| content := "print(1)"; perm := 436; who := Group |}]>
                   (files world_shared);
        out := ["Permission denied: unable to move a.py."%string];
        umask := 18 |}).
Proof.
  apply (copy_file_overwrites_then_fails "a.py" "b" world_shared
           (false, ["a.py"%string]) (false, ["b"%string]) script_644
           {| content := "old"; perm := 436; who := Group |});
    try (vm_compute; reflexivity); discriminate.
Defined.

(** ** [make_temp_file] *)

(** A path string that names a file: its parsed path has a name, and the
    normal form names the same file. *)
Lemma located_path fp l :
  locate fp = Some l ->
  l = loc_of (Path_of_str fp)
  /\ parts (Path_of_str fp) <> []
  /\ locate (str (Path_of_str fp)) = Some l
  /\ good (path_name (Path_of_str fp)).
Proof.
  intros H. destruct (PathFacts.locate_normal fp l H) as [-> Hl].
  assert (parts (Path_of_str fp) <> []) as Hne.
  { intros E. unfold locate in H.
    rewrite PathFacts.parts_of_str in E.
    destruct (dir_ref _) eqn:Hd; [discriminate|].
    destruct (StrFacts.split_cons slash fp) as (x & t & Hxl). rewrite Hxl in *.
    assert (x :: t <> []) as Hnn by discriminate.
    destruct (exists_last Hnn) as (l' & a & Ha). rewrite Ha in *.
    rewrite last_last in Hd. rewrite List.filter_app in E. simpl in E.
    unfold dir_ref in Hd. unfold is_component in E.
    destruct (String.eqb a ""); [discriminate|].
    destruct (String.eqb a "."); [discriminate|]. simpl in E.
    now destruct (List.filter _ l'). }
  split; [reflexivity|]. split; [exact Hne|]. split; [exact Hl|].
  apply PathFacts.good_name; [apply PathFacts.wf_of_str | exact Hne].
Qed.

Lemma locate_staged fp :
  parts (Path_of_str fp) <> [] ->
  locate (str (staged fp)) = Some (loc_of (staged fp)).
Proof.
  intros Hne.
  pose proof (PathFacts.good_name _ (PathFacts.wf_of_str fp) Hne) as Hg.
  apply PathFacts.locate_str; [now apply wf_staged | apply parts_staged |].
  rewrite name_staged. intros E. injection E as E.
  now apply PathFacts.good_not_dot in Hg.
Qed.

Lemma shutil_copy_existing src dst w ls ld f h :
  locate src = Some ls -> locate dst = Some ld -> ls <> ld ->
  files w !! ls = Some f -> readable f = true ->
  files w !! ld = Some h -> writable h = true -> who h = Owner ->
  shutil_copy src dst w = (Ok dst, set_files w (<[ld := copy_of f]> (files w))).
Proof.
  intros Hls Hld Hne Hf Hr Hh Hw Ho.
  rewrite shutil_copy_differ by congruence.
  unfold bind at 1, open_read. rewrite Hls, Hf, Hr.
  unfold bind at 1, open_write. rewrite Hld, Hh, Hw.
  unfold bind at 1, os_stat_st_mode, lookup_file. rewrite Hls. cbn [files set_files].
  rewrite lookup_insert_ne by exact (fun E => Hne (eq_sym E)). rewrite Hf.
  unfold bind at 1, os_chmod. rewrite Hld. cbn [files set_files].
  rewrite lookup_insert_eq. cbn [who content]. rewrite Ho.
  unfold ret, set_files. cbn [files out umask].
  rewrite insert_insert_eq. unfold copy_of.
  replace (S_IMODE (S_IMODE (Z.lor S_IFREG (perm f))))
    with (S_IMODE (Z.lor S_IFREG (perm f))); [reflexivity|].
  unfold S_IMODE. now rewrite <- Z.land_assoc, Z.land_diag.
Qed.

(** X6: staging a readable file returns the path of its sibling whose name
    is the original name behind a dot.  The staged file holds the text and
    the permission bits of the original and belongs to the process; a file
    that was already there, owned and writable, is overwritten; nothing is
    printed and no other file, the original included, changes. *)
Theorem make_temp_file_stages (file_path : string) (w : world) (f : file) :
  lookup_file w file_path = Some f -> readable f = true ->
  let original_path := Path_of_str file_path in
  let temp_file_path :=
    {| root := root original_path;
       parts := removelast (parts original_path)
                ++ ["." +:+ path_name original_path] |} in
  lookup_file w (str temp_file_path) = None
  \/ (exists h, lookup_file w (str temp_file_path) = Some h
                /\ writable h = true /\ who h = Owner) ->
  exists w',
    make_temp_file file_path w = (Ok (inl temp_file_path), w')
    /\ out w' = out w
    /\ lookup_file w' (str temp_file_path)
       = Some {| content := content f; perm := Z.land (perm f) 4095; who := Owner |}
    /\ (forall q, locate q <> locate (str temp_file_path) ->
                  lookup_file w' q = lookup_file w q).
Proof.
  intros Hf Hr original_path temp_file_path Hfree.
  change temp_file_path with (staged file_path) in *. clear temp_file_path.
  subst original_path.
  unfold lookup_file in Hf. destruct (locate file_path) as [l|] eqn:Hl; [|discriminate].
  destruct (located_path file_path l Hl) as (-> & Hne & Hlo & _).
  pose proof (locate_staged file_path Hne) as Hls.
  unfold lookup_file in Hfree. rewrite Hls in Hfree.
  assert (loc_of (Path_of_str file_path) <> loc_of (staged file_path)) as Hd.
  { intros E. symmetry in E. revert E. now apply staged_loc_ne. }
  assert (shutil_copy (str (Path_of_str file_path)) (str (staged file_path)) w
          = (Ok (str (staged file_path)),
             set_files w (<[loc_of (staged file_path) := copy_of f]> (files w)))) as Hcopy.
  { destruct Hfree as [Hfree | (h & Hh & Hw & Ho)].
    - exact (shutil_copy_new _ _ w _ _ f Hlo Hls Hd Hf Hr Hfree).
    - exact (shutil_copy_existing _ _ w _ _ f h Hlo Hls Hd Hf Hr Hh Hw Ho). }
  assert (make_temp_file file_path w
          = (Ok (inl (staged file_path)),
             set_files w (<[loc_of (staged file_path) := copy_of f]> (files w)))) as E.
  { unfold make_temp_file. cbv zeta. rewrite (with_name_staged file_path Hne).
    unfold lift. rewrite (bind_ok _ _ w _ w eq_refl).
    unfold copy_file, try_except. unfold bind at 1.
    now rewrite (bind_ok _ _ _ _ _ Hcopy). }
  rewrite E. eexists. split; [reflexivity|]. split; [reflexivity|]. split.
  - unfold lookup_file. rewrite Hls. cbn [files set_files].
    rewrite lookup_insert_eq. unfold copy_of. now rewrite S_IMODE_regular.
  - intros q Hq. unfold lookup_file. rewrite Hls in Hq.
    destruct (locate q) as [k|]; [|reflexivity]. cbn [files set_files].
    apply lookup_insert_ne. congruence.
Qed.

Lemma make_temp_file_stages_witness :
  exists w',
    make_temp_file "/tmp/tool.py" world_script
    = (Ok (inl {| root := "/"; parts := ["tmp"; ".tool.py"]%string |}), w')
    /\ out w' = []
    /\ lookup_file w' "/tmp/.tool.py"
       = Some {| content := "print(1)"; perm := Z.land 420 4095; who := Owner |}
    /\ (forall q, locate q <> locate "/tmp/.tool.py" ->
                  lookup_file w' q = lookup_file world_script q).
Proof.
  apply (make_temp_file_stages "/tmp/tool.py" world_script script_644).
  - vm_compute. reflexivity.
  - reflexivity.
  - left. vm_compute. reflexivity.
Defined.

(** X7: staging a path that names no file does not raise: it returns 1
    after printing two lines, the first of which names the path in
    [pathlib]'s normal form, and it changes no file. *)
Theorem make_temp_file_missing (file_path : string) (w : world) (l : loc) :
  locate file_path = Some l -> files w !! l = None ->
  make_temp_file file_path w
  = (Ok (inr 1),
     {| files := files w;
        out := out w ++ ["Source file " +:+ str (Path_of_str file_path) +:+ " not found.";
                         "* Error copying file *"];
        umask := umask w |}).
Proof.
  intros Hl Hf. destruct (located_path file_path l Hl) as (_ & Hne & Hlo & _).
  unfold make_temp_file. cbv zeta. rewrite (with_name_staged file_path Hne).
  unfold lift. rewrite (bind_ok _ _ w _ w eq_refl).
  rewrite (bind_ok _ _ _ _ _ (copy_file_absent _ (str (staged file_path)) w l Hlo Hf)).
  cbv beta iota zeta delta [negb Z.eqb bind print ret]. cbn [files out umask].
  now rewrite <- List.app_assoc.
Qed.

Lemma make_temp_file_missing_witness :
  make_temp_file "./a.py" world_empty
  = (Ok (inr 1),
     {| files := ∅;
        out := ["Source file a.py not found."; "* Error copying file *"]%string;
        umask := 18 |}).
Proof.
  apply (make_temp_file_missing "./a.py" world_empty (false, ["a.py"%string])).
  - vm_compute. reflexivity.
  - reflexivity.
Defined.

(** ** [make_executable] and [get_file_status] *)

(** X8: what [make_executable] returns tells what it did.  On a path that
    names no file it raises [FileNotFoundError] and prints nothing.  On a
    file it returns 0 only when the file was not executable and now is, its
    text kept and nothing printed; otherwise it returns 1, has printed one
    line and has changed no file. *)
Theorem make_executable_result (script_path : string) (w : world) :
  match lookup_file w script_path with
  | None =>
      make_executable script_path w
      = (Raise (mkExn FileNotFoundError "Specified file path does not exist"), w)
  | Some f =>
      exists w',
        (make_executable script_path w = (Ok 0, w')
         /\ executable f = false
         /\ out w' = out w
         /\ exists f', lookup_file w' script_path = Some f'
                       /\ executable f' = true /\ content f' = content f)
        \/ (make_executable script_path w = (Ok 1, w')
            /\ files w' = files w
            /\ exists line, out w' = out w ++ [line])
  end.
Proof.
  destruct (lookup_file w script_path) as [f|] eqn:H;
    [|now apply make_executable_absent].
  destruct (executable f) eqn:Hx.
  - eexists. right. rewrite (make_executable_already _ _ _ H Hx).
    split; [reflexivity|]. split; [reflexivity|]. eexists. reflexivity.
  - destruct (who f) eqn:Ho.
    + pose proof H as H'. unfold lookup_file in H'.
      destruct (locate script_path) as [l|] eqn:Hl; [|discriminate].
      eexists. left. rewrite (make_executable_changes _ _ l f Hl H' Hx Ho).
      split; [reflexivity|]. split; [reflexivity|]. split; [reflexivity|].
      exists (with_exec f). unfold lookup_file. rewrite Hl. cbn [files set_files].
      split; [apply lookup_insert_eq|]. split; [|reflexivity].
      apply with_exec_facts. exact Ho.
    + eexists. right. rewrite (make_executable_rejected _ _ _ H Hx) by congruence.
      split; [reflexivity|]. split; [reflexivity|]. eexists. reflexivity.
    + eexists. right. rewrite (make_executable_rejected _ _ _ H Hx) by congruence.
      split; [reflexivity|]. split; [reflexivity|]. eexists. reflexivity.
Qed.

(** X9: on an existing file with ASCII characters the inspector changes
    nothing; when the process may read the file the status holds the suffix
    of the path, whether the first line, as text mode reads it (a carriage
    return, alone or before a line feed, ends the line), is a directive of
    the table, and whether the process may execute the file; when it may not
    read the file the inspector raises [PermissionError]. *)
Theorem get_file_status_reads (script_path : string) (w : world) (f : file) :
  lookup_file w script_path = Some f -> is_ascii (content f) = true ->
  if readable f
  then get_file_status script_path w
       = (Ok {| suffix := path_suffix (Path_of_str script_path);
                shebang := in_list (hd EmptyString
                                      (Str.split newline
                                         (universal_newlines (content f))))
                             (values SHEBANGS);
                exec := executable f |}, w)
  else exists msg,
         get_file_status script_path w = (Raise (mkExn PermissionError msg), w).
Proof.
  intros Hf _. destruct (readable f) eqn:Hr; [now apply get_file_status_ok|].
  eexists. unfold get_file_status. cbv zeta.
  apply lookup_file_normal in Hf. unfold lookup_file in Hf.
  erewrite bind_raise; [reflexivity|].
  rewrite get_file_text_own. unfold read_text.
  erewrite bind_raise; [reflexivity|]. unfold open_read.
  destruct (locate _); [|discriminate]. rewrite Hf, Hr. reflexivity.
Qed.

Lemma get_file_status_reads_witness :
  get_file_status "x.py" world_crlf
  = (Ok {| suffix := ".py"; shebang := true; exec := false |}, world_crlf).
Proof.
  exact (get_file_status_reads "x.py" world_crlf
           {| content := "#!/bin/bash" +:+ crlf +:+ "echo hi" +:+ crlf;
              perm := 420; who := Owner |} eq_refl eq_refl).
Defined.

(** ** [add_shebang] on its own output *)

Lemma join_split c s : Str.join (String c "") (Str.split c s) = s.
Proof.
  induction s as [|a s IH]; [reflexivity|]. simpl Str.split.
  destruct (Ascii.eqb a c) eqn:A.
  - apply Ascii.eqb_eq in A. subst a.
    destruct (StrFacts.split_cons c s) as (x & l & E). rewrite E in *.
    rewrite StrFacts.join_cons, IH. reflexivity.
  - destruct (StrFacts.split_cons c s) as (piece & rest & E). rewrite E in *.
    destruct rest as [|y rest]; simpl in *; now rewrite <- IH.
Qed.

Lemma directive_no_newline sfx d :
  getitem SHEBANGS sfx = Some d -> Str.contains newline d = false.
Proof.
  unfold SHEBANGS, getitem.
  destruct (String.eqb sfx ".py"); [intros H; injection H as <-; reflexivity|].
  destruct (String.eqb sfx ".sh"); [intros H; injection H as <-; reflexivity|].
  discriminate.
Qed.

Lemma directive_no_return sfx d :
  getitem SHEBANGS sfx = Some d -> Str.contains carriage_return d = false.
Proof.
  unfold SHEBANGS, getitem.
  destruct (String.eqb sfx ".py"); [intros H; injection H as <-; reflexivity|].
  destruct (String.eqb sfx ".sh"); [intros H; injection H as <-; reflexivity|].
  discriminate.
Qed.

(** Text mode leaves a first line without line ends as it is. *)
Lemma hd_universal_newlines d s :
  Str.contains newline d = false -> Str.contains carriage_return d = false ->
  s = EmptyString \/ (exists s', s = String newline s') ->
  hd EmptyString (Str.split newline (universal_newlines (d +:+ s))) = d.
Proof.
  intros Hn Hc Hs. induction d as [|a d IH].
  - destruct Hs as [-> | (s' & ->)]; reflexivity.
  - cbn [Str.contains] in Hn, Hc.
    apply orb_false_iff in Hn. destruct Hn as (Ha & Hn).
    apply orb_false_iff in Hc. destruct Hc as (Hb & Hc).
    specialize (IH Hn Hc).
    change (String a d +:+ s) with (String a (d +:+ s)).
    cbn [universal_newlines]. rewrite Hb. cbn [Str.split]. rewrite Ha.
    destruct (StrFacts.split_cons newline (universal_newlines (d +:+ s)))
      as (x & l & E).
    rewrite E in *. cbn [hd] in *. now rewrite IH.
Qed.

(** What [add_shebang] returns when it returns: lines that begin with the
    directive of the suffix and that are the lines of their own join. *)
Lemma add_shebang_inv text sfx w l w1 :
  add_shebang text sfx w = (Ok l, w1) ->
  exists d,
    getitem SHEBANGS sfx = Some d
    /\ hd EmptyString l = d
    /\ Str.split newline (Str.join nl l) = l
    /\ files w1 = files w.
Proof.
  unfold add_shebang. destruct (in_list sfx (keys SHEBANGS)); [|discriminate].
  cbn [negb]. destruct (getitem SHEBANGS sfx) as [d|] eqn:Hd; [|discriminate].
  rewrite (bind_ok _ _ _ _ _ (first_item_split _ _)).
  destruct (String.eqb _ d) eqn:E; intros H; injection H as <- <-; exists d;
    (split; [reflexivity|]).
  - apply String.eqb_eq in E. split; [exact E|]. split; [|reflexivity].
    unfold nl. now rewrite join_split.
  - split; [reflexivity|]. split; [|reflexivity].
    apply StrFacts.split_join; [discriminate|].
    constructor; [now apply (directive_no_newline sfx)|].
    constructor; [reflexivity | apply StrFacts.split_pieces].
Qed.

(** X10: the injector is idempotent on its own output: the lines
    [add_shebang] returns, joined by newlines and given to [add_shebang]
    again with the same suffix, come back unchanged, with the notice that
    the directive is already there. *)
Theorem add_shebang_again (file_text suffix : string) (w w1 : world)
    (lines : list string) :
  add_shebang file_text suffix w = (Ok lines, w1) ->
  add_shebang (Str.join nl lines) suffix w1
  = (Ok lines, {| files := files w1;
                  out := out w1 ++ ["File already has correct shebang"%string];
                  umask := umask w1 |}).
Proof.
  intros H. destruct (add_shebang_inv _ _ _ _ _ H) as (d & Hd & Hhd & Hsp & _).
  unfold add_shebang. rewrite (getitem_keys _ _ _ Hd), Hd. cbn [negb].
  rewrite (bind_ok _ _ _ _ _ (first_item_split _ _)).
  rewrite Hsp, Hhd, String.eqb_refl. reflexivity.
Qed.

Lemma add_shebang_again_witness :
  add_shebang (Str.join nl ["#!/bin/python3"; EmptyString; "print(1)"]%string) ".py"
    world_empty
  = (Ok ["#!/bin/python3"; EmptyString; "print(1)"]%string,
     {| files := ∅; out := ["File already has correct shebang"%string]; umask := 18 |}).
Proof.
  apply (add_shebang_again "print(1)" ".py" world_empty world_empty).
  reflexivity.
Defined.

(** X11: the inspector recognises what the injector writes: a readable
    file whose text is the join of the lines [add_shebang] returned is
    reported by [get_file_status] as having a directive. *)
Theorem add_shebang_then_inspect
    (file_text suffix script_path : string) (w w1 w2 : world)
    (lines : list string) (f : file) :
  add_shebang file_text suffix w = (Ok lines, w1) ->
  lookup_file w2 script_path = Some f -> readable f = true ->
  content f = Str.join nl lines ->
  exists st, get_file_status script_path w2 = (Ok st, w2) /\ shebang st = true.
Proof.
  intros H Hf Hr Hc. destruct (add_shebang_inv _ _ _ _ _ H) as (d & Hd & Hhd & Hsp & _).
  rewrite (get_file_status_ok _ _ _ Hf Hr). eexists. split; [reflexivity|].
  cbn [shebang]. rewrite Hc.
  assert (hd EmptyString
            (Str.split newline (universal_newlines (Str.join nl lines))) = d)
    as ->; [|apply values_SHEBANGS; eauto].
  destruct lines as [|x rest]; [discriminate|]. cbn [hd] in Hhd. subst x.
  pose proof (directive_no_newline _ _ Hd) as Hn.
  pose proof (directive_no_return _ _ Hd) as Hcr.
  destruct rest as [|y rest].
  - cbn [Str.join]. rewrite <- (StrFacts.append_nil_r d) at 1.
    apply hd_universal_newlines; auto.
  - rewrite StrFacts.join_cons. apply hd_universal_newlines; eauto.
Qed.

Lemma add_shebang_then_inspect_witness :
  exists st,
    get_file_status "/home/kyle/bin/tool"
      (world_of [("/home/kyle/bin/tool"%string,
                  {| content := Str.join nl ["#!/bin/python3"; EmptyString; "print(1)"]%string;
                     perm := 484; who := Owner |})])
    = (Ok st,
       world_of [("/home/kyle/bin/tool"%string,
                  {| content := Str.join nl ["#!/bin/python3"; EmptyString; "print(1)"]%string;
                     perm := 484; who := Owner |})])
    /\ shebang st = true.
Proof.
  eapply (add_shebang_then_inspect "print(1)" ".py" "/home/kyle/bin/tool"
            world_empty world_empty).
  - reflexivity.
  - vm_compute. reflexivity.
  - reflexivity.
  - reflexivity.
Defined.

(** ** How [run_operations] and [main] end *)

Lemma exits_zero_no_exit {A} (m : M A) : no_exit m -> exits_zero m.
Proof. intros H w e w' E. left. exact (H _ _ _ E). Qed.

Lemma exits_zero_bind_dep {A B} (m : M A) (k : A -> M B) :
  exits_zero m -> (forall w a w1, m w = (Ok a, w1) -> exits_zero (k a)) ->
  exits_zero (bind m k).
Proof.
  intros Hm Hk w e w' H. apply bind_inv in H.
  destruct H as [(a & w1 & H1 & H) | (e' & H & E)].
  - exact (Hk _ _ _ H1 _ _ _ H).
  - injection E as ->. exact (Hm _ _ _ H).
Qed.

Lemma exits_zero_bind {A B} (m : M A) (k : A -> M B) :
  exits_zero m -> (forall a, exits_zero (k a)) -> exits_zero (bind m k).
Proof. intros Hm Hk. apply exits_zero_bind_dep; auto. Qed.

Lemma exits_zero_sys_exit {A} : exits_zero (@sys_exit A 0).
Proof. intros w e w' H. injection H as <- _. now right. Qed.

Lemma no_exit_raise {A} k msg : is_Exception k = true -> no_exit (@raise A k msg).
Proof. intros Hk w e w' H. injection H as <- _. exact Hk. Qed.

Lemma no_exit_copy_file src dst : no_exit (copy_file src dst).
Proof.
  unfold copy_file. apply no_exit_try.
  - apply no_exit_bind; [apply shutil_copy_no_exit | intros; apply no_exit_ret].
  - intros e. destruct (kind e);
      (apply no_exit_bind; [apply no_exit_print | intros; apply no_exit_ret]).
Qed.

Lemma no_exit_make_temp_file fp : no_exit (make_temp_file fp).
Proof.
  unfold make_temp_file. cbv zeta. apply no_exit_bind.
  - apply no_exit_lift. intros e He. unfold with_name in He.
    destruct (String.eqb _ _); [now injection He as <-|].
    destruct (_ || _)%bool; [now injection He as <- | discriminate].
  - intros t. apply no_exit_bind; [apply no_exit_copy_file|]. intros r.
    destruct (negb _); [|apply no_exit_ret].
    apply no_exit_bind; [apply no_exit_print | intros; apply no_exit_ret].
Qed.

Lemma no_exit_add_shebang text sfx : no_exit (add_shebang text sfx).
Proof.
  unfold add_shebang. destruct (negb _); [now apply no_exit_raise|]. cbv zeta.
  destruct (getitem _ _); [|now apply no_exit_raise].
  apply no_exit_bind; [apply no_exit_first_item|]. intros line0.
  destruct (String.eqb _ _); [|apply no_exit_ret].
  apply no_exit_bind; [apply no_exit_print | intros; apply no_exit_ret].
Qed.

Lemma exits_zero_run_operations fp c : exits_zero (run_operations fp c).
Proof.
  unfold run_operations.
  apply exits_zero_bind_dep; [apply exits_zero_no_exit, no_exit_make_temp_file|].
  intros w t w1 Hstage. rewrite (make_temp_file_never_zero _ _ _ _ Hstage).
  apply exits_zero_bind; [apply exits_zero_no_exit, no_exit_ret|]. intros _.
  apply exits_zero_bind; [apply exits_zero_no_exit, no_exit_get_file_status|]. intros st.
  apply exits_zero_bind; [apply exits_zero_no_exit, no_exit_get_file_text|]. intros text.
  apply exits_zero_bind.
  { apply exits_zero_no_exit. destruct (negb _); [|apply no_exit_print].
    apply no_exit_bind; [apply no_exit_print|]. intros _.
    apply no_exit_bind; [apply no_exit_make_executable | intros; apply no_exit_ret]. }
  intros _. apply exits_zero_bind.
  { destruct (negb _).
    - apply exits_zero_bind.
      + intros w2 e w' H. unfold try_except in H.
        destruct (bind (add_shebang _ _) _ w2) as [[a|e'] w3] eqn:E; [discriminate|].
        assert (is_Exception (kind e') = true) as He'.
        { revert E. apply no_exit_bind; [apply no_exit_add_shebang|].
          intros; apply no_exit_ret. }
        destruct (kind e') eqn:K; try (injection H as <- <-; left; now rewrite K).
        revert H. apply exits_zero_bind; [apply exits_zero_no_exit, no_exit_print|].
        intros _. apply exits_zero_sys_exit.
      + intros nl0. apply exits_zero_no_exit.
        apply no_exit_bind; [apply no_exit_print | intros; apply no_exit_ret].
    - apply exits_zero_no_exit.
      apply no_exit_bind; [apply no_exit_print | intros; apply no_exit_ret]. }
  intros new_lines. destruct (in_list _ _); [|apply exits_zero_no_exit, no_exit_print].
  apply exits_zero_bind.
  { apply exits_zero_no_exit. destruct t; [apply no_exit_ret | now apply no_exit_raise]. }
  intros sfx. apply exits_zero_bind; [apply exits_zero_no_exit, no_exit_print|]. intros _.
  apply exits_zero_bind; [apply exits_zero_no_exit, no_exit_remove_suffix|]. intros s.
  cbv zeta.
  apply exits_zero_bind; [apply exits_zero_no_exit, shutil_copy_no_exit|]. intros _.
  apply exits_zero_bind.
  { apply exits_zero_no_exit. destruct new_lines as [[|l ls]|]; try apply no_exit_ret.
    apply no_exit_open_write. }
  intros _. apply exits_zero_bind; [apply exits_zero_no_exit, no_exit_os_remove|].
  intros _. apply exits_zero_sys_exit.
Qed.

(** X12: however it is called, [run_operations] ends in one of three ways:
    it returns (after the unsupported-suffix notice), it ends the process
    with [sys.exit(0)], or it lets an exception out.  It never ends the
    process with [sys.exit(1)]. *)
Theorem run_operations_exits (file_path : string) (custom_name : option string)
    (w : world) :
  exists r w',
    run_operations file_path custom_name w = (r, w')
    /\ (r = Ok tt
        \/ r = Raise (mkExn (SystemExit 0) EmptyString)
        \/ exists e, r = Raise e /\ is_Exception (kind e) = true).
Proof.
  destruct (run_operations file_path custom_name w) as [[[]|e] w'] eqn:E.
  - exists (Ok tt), w'. auto.
  - exists (Raise e), w'. split; [reflexivity|]. right.
    destruct (exits_zero_run_operations _ _ _ _ _ E) as [H | ->]; eauto.
Qed.

Lemma main_absent args w :
  lookup_file w (filepath args) = None ->
  main args w
  = (Raise (mkExn (SystemExit 1) EmptyString),
     {| files := files w;
        out := out w ++ ["Specified file path does not exist"%string];
        umask := umask w |}).
Proof.
  intros H. unfold main. unfold bind at 1. unfold os_path_exists at 1.
  rewrite bool_decide_eq_false_2 by (rewrite H; now intros [? ?]).
  reflexivity.
Qed.

Lemma main_present args w :
  lookup_file w (filepath args) <> None ->
  main args w
  = (let sfx := path_suffix (Path_of_str (filepath args)) in
     if negb (in_list sfx (keys SHEBANGS))
     then
       (Raise (mkExn (SystemExit 1) EmptyString),
        {| files := files w;
           out := out w ++ ["'" +:+ sfx
                            +:+ "' is an invalid suffix, must be one of these: ['.py', '.sh']."];
           umask := umask w |})
     else if all args then run_operations (filepath args) (customname args) w
          else (Ok tt, w)).
Proof.
  intros H. unfold main. unfold bind at 1. unfold os_path_exists at 1.
  rewrite bool_decide_eq_true_2
    by (destruct (lookup_file w (filepath args)); [eauto | congruence]).
  cbv beta iota zeta delta [negb].
  destruct (in_list _ _); [now destruct (all args)|].
  unfold bind, print, sys_exit, raise. do 3 f_equal.
  unfold repr. f_equal.
  rewrite !StrFacts.append_assoc. reflexivity.
Qed.

(** X13: [main] ends with [sys.exit(1)] exactly when the path names no
    file or its suffix is not in the table; it has then printed the matching
    message and changed no file, whatever the flags.  When the file exists
    and the suffix is in the table, [main] does nothing without [--all] (no
    line printed, no file changed) and is [run_operations] on the path and
    the custom name with it. *)
Theorem main_exit_one (args : Args) (w : world) :
  let sfx := path_suffix (Path_of_str (filepath args)) in
  (fst (main args w) = Raise (mkExn (SystemExit 1) EmptyString)
   <-> lookup_file w (filepath args) = None \/ in_list sfx (keys SHEBANGS) = false)
  /\ (lookup_file w (filepath args) = None ->
      main args w
      = (Raise (mkExn (SystemExit 1) EmptyString),
         {| files := files w;
            out := out w ++ ["Specified file path does not exist"%string];
            umask := umask w |}))
  /\ (lookup_file w (filepath args) <> None -> in_list sfx (keys SHEBANGS) = false ->
      main args w
      = (Raise (mkExn (SystemExit 1) EmptyString),
         {| files := files w;
            out := out w ++ ["'" +:+ sfx
                             +:+ "' is an invalid suffix, must be one of these: ['.py', '.sh']."];
            umask := umask w |}))
  /\ (lookup_file w (filepath args) <> None -> in_list sfx (keys SHEBANGS) = true ->
      all args = false -> main args w = (Ok tt, w))
  /\ (lookup_file w (filepath args) <> None -> in_list sfx (keys SHEBANGS) = true ->
      all args = true ->
      main args w = run_operations (filepath args) (customname args) w).
Proof.
  intros sfx. subst sfx. split; [|split; [|split; [|split]]].
  - destruct (lookup_file w (filepath args)) as [f|] eqn:Hf.
    + rewrite main_present by (rewrite Hf; discriminate). cbv zeta.
      destruct (in_list _ _); cbn [negb]; [|split; [now right | reflexivity]].
      split; [|intros [?|?]; discriminate]. intros H. exfalso.
      destruct (all args); [|discriminate].
      destruct (run_operations _ _ w) as [r w'] eqn:E. cbn [fst] in H. subst r.
      destruct (exits_zero_run_operations _ _ _ _ _ E); discriminate.
    + rewrite (main_absent _ _ Hf). split; [now left | reflexivity].
  - apply main_absent.
  - intros Hf Hk. rewrite (main_present _ _ Hf). cbv zeta. now rewrite Hk.
  - intros Hf Hk Ha. rewrite (main_present _ _ Hf). cbv zeta. now rewrite Hk, Ha.
  - intros Hf Hk Ha. rewrite (main_present _ _ Hf). cbv zeta. now rewrite Hk, Ha.
Qed.

(** ** Whole runs *)

Lemma made_perm m : Z.land (Z.lor (Z.land m 4095) S_IEXEC) 4095 = Z.lor (Z.land m 4095) S_IEXEC.
Proof.
  rewrite Z.land_lor_distr_l, <- Z.land_assoc. reflexivity.
Qed.

Lemma copy_of_made f :
  who f = Owner -> executable f = true -> copy_of f = made_executable f.
Proof.
  intros Ho Hx. unfold copy_of, made_executable. f_equal.
  rewrite S_IMODE_regular. unfold executable in Hx. rewrite Ho in Hx. cbn [class_bit] in Hx.
  apply Z.bits_inj'. intros n Hn. rewrite Z.lor_spec, Z.land_spec.
  unfold S_IEXEC. change 64 with (2 ^ 6). rewrite Z.pow2_bits_eqb by lia.
  destruct (6 =? n) eqn:E; [|now rewrite orb_false_r].
  apply Z.eqb_eq in E. subst n. now rewrite Hx.
Qed.

Lemma with_exec_copy_made f : with_exec (copy_of f) = made_executable f.
Proof.
  unfold with_exec, copy_of, made_executable. cbn [content perm who]. f_equal.
  rewrite S_IMODE_regular, <- Z.lor_assoc, S_IMODE_regular. apply made_perm.
Qed.

Lemma copy_of_made_id f : copy_of (made_executable f) = made_executable f.
Proof.
  unfold copy_of, made_executable. cbn [content perm who]. f_equal.
  rewrite S_IMODE_regular. apply made_perm.
Qed.

Lemma made_executable_facts f :
  who f = Owner ->
  executable (made_executable f) = true
  /\ readable (made_executable f) = readable f
  /\ writable (made_executable f) = writable f.
Proof.
  intros Ho. rewrite <- with_exec_copy_made.
  destruct (with_exec_facts (copy_of f) eq_refl) as (H1 & H2 & H3).
  rewrite H1, H2, H3, copy_of_readable, copy_of_writable by assumption. auto.
Qed.

(** The permission step on the staged copy of a script of the user. *)
Lemma ensure_executable_made p w l f :
  locate p = Some l -> files w !! l = Some (copy_of f) -> who f = Owner ->
  exists w',
    (if negb (executable f)
     then bind (print "Making file executable...")
            (fun _ => bind (make_executable p) (fun _ => ret tt))
     else print "File already executable, skipping...") w = (Ok tt, w')
    /\ files w' = <[l := made_executable f]> (files w) /\ umask w' = umask w.
Proof.
  intros Hl Hg Ho. destruct (executable f) eqn:Hx; cbn [negb].
  - eexists. split; [reflexivity|]. cbn [files umask].
    rewrite <- (copy_of_made f Ho Hx). now rewrite (insert_id _ _ _ Hg).
  - unfold bind at 1. cbn [print].
    assert (executable (copy_of f) = false) as Hx' by now rewrite copy_of_executable.
    erewrite (bind_ok _ _ _ 0);
      [|eapply (make_executable_changes p _ l (copy_of f) Hl); eauto].
    eexists. split; [reflexivity|]. cbn [files set_files umask].
    now rewrite with_exec_copy_made.
Qed.

(** The paths of a run on a file named [x] followed by a suffix of the
    table, where [x] has a character other than dots. *)
Lemma run_paths fp x :
  in_list (path_suffix (Path_of_str fp)) (keys SHEBANGS) = true ->
  x +:+ path_suffix (Path_of_str fp) = path_name (Path_of_str fp) ->
  Str.lstrip dot x <> EmptyString ->
  parts (Path_of_str fp) <> []
  /\ wf (staged fp)
  /\ path_suffix (staged fp) = path_suffix (Path_of_str fp)
  /\ locate (str (Path_of_str fp)) = Some (loc_of (Path_of_str fp))
  /\ locate (str (staged fp)) = Some (loc_of (staged fp))
  /\ wf (stripped (staged fp))
  /\ dir_ref (path_name (stripped (staged fp))) = false
  /\ locate (str (stripped (staged fp))) = Some (loc_of (stripped (staged fp)))
  /\ locate (str (destination (staged fp) None))
     = Some (loc_of (destination (staged fp) None))
  /\ loc_of (destination (staged fp) None) <> loc_of (staged fp)
  /\ loc_of (destination (staged fp) None) <> loc_of (stripped (staged fp))
  /\ loc_of (stripped (staged fp)) <> loc_of (staged fp)
  /\ loc_of (staged fp) <> loc_of (Path_of_str fp)
  /\ loc_of (stripped (staged fp)) <> loc_of (Path_of_str fp).
Proof.
  intros Hk Hx Hne.
  pose proof (key_suffix_not_empty _ Hk) as Hs.
  pose proof (parts_not_nil _ (suffix_name_not_empty _ Hs)) as Hparts.
  pose proof (PathFacts.wf_of_str fp) as Hwfo.
  pose proof (PathFacts.good_name _ Hwfo Hparts) as Hgn.
  assert (path_name (Path_of_str fp) <> "..") as Hdd.
  { intros E. unfold path_suffix in Hs. rewrite E in Hs. now apply Hs. }
  pose proof (PathFacts.locate_str _ Hwfo Hparts Hdd) as Hlo.
  pose proof (wf_staged fp Hparts) as Hwf.
  pose proof (locate_staged fp Hparts) as Hls.
  destruct (destination_name fp x Hk Hx Hne) as (Hname & Hd & Hstr).
  assert (Str.contains slash x = false) as Hc.
  { destruct Hgn as [_ Hgn]. rewrite <- Hx, StrFacts.contains_app in Hgn.
    now apply orb_false_iff in Hgn. }
  pose proof (good_lstrip x Hc Hne) as Hgl.
  assert (path_suffix (staged fp) <> "") as Hs' by now rewrite suffix_staged.
  assert (wf (stripped (staged fp))) as HwfT.
  { assert (path_name (staged fp) <> "") as Hn by (rewrite name_staged; discriminate).
    destruct (with_suffix_strip (staged fp) Hn) as (x' & Hw' & _).
    rewrite (stripped_eq _ _ Hw') in *. rewrite PathFacts.name_snoc in Hname. subst x'.
    apply PathFacts.wf_snoc; [exact Hwf|]. apply (dotted_good x Hc Hne). }
  assert (dir_ref (path_name (stripped (staged fp))) = false) as HdT.
  { rewrite Hname. apply (dotted_good x Hc Hne). }
  assert (locate (str (stripped (staged fp))) = Some (loc_of (stripped (staged fp)))) as HlT.
  { apply PathFacts.locate_str; [exact HwfT| |].
    - intros E. unfold path_name in Hname. rewrite E in Hname. discriminate.
    - intros E. rewrite E in HdT. discriminate. }
  assert (wf (destination (staged fp) None)) as HwfD.
  { rewrite Hd. split; [auto|]. cbn [parts].
    repeat (constructor; [split; reflexivity|]). constructor; [exact Hgl | constructor]. }
  assert (path_name (destination (staged fp) None) = Str.lstrip dot x) as HnD
    by now rewrite Hd.
  assert (locate (str (destination (staged fp) None))
          = Some (loc_of (destination (staged fp) None))) as HlD.
  { apply PathFacts.locate_str; [exact HwfD | rewrite Hd; discriminate |].
    rewrite HnD. intros E.
    pose proof (StrFacts.lstrip_not_startswith dot x) as H0. rewrite E in H0. discriminate. }
  assert (forall q, Str.startswith dot (path_name q) = true ->
                    loc_of (destination (staged fp) None) <> loc_of q) as Hdot.
  { intros q Hq E. apply loc_of_name in E; [|rewrite Hd; discriminate].
    rewrite HnD in E. rewrite <- E, StrFacts.lstrip_not_startswith in Hq. discriminate. }
  split; [exact Hparts|]. split; [exact Hwf|]. split; [now apply suffix_staged|].
  split; [exact Hlo|]. split; [exact Hls|]. split; [exact HwfT|]. split; [exact HdT|].
  split; [exact HlT|]. split; [exact HlD|].
  split; [apply Hdot; now rewrite name_staged|].
  split; [apply Hdot; now rewrite Hname|].
  split; [now apply stripped_loc_ne|].
  split; [now apply staged_loc_ne|].
  now apply stripped_staged_loc_ne.
Qed.

(** A run on a readable script of the user, with the staged path free, up
    to the commit: the staged copy, made executable, sits under its name
    without the suffix, and what remains to run is the copy to the
    destination, the writing of the new lines, the removal and the exit. *)
Lemma run_operations_to_commit fp x c w f :
  in_list (path_suffix (Path_of_str fp)) (keys SHEBANGS) = true ->
  x +:+ path_suffix (Path_of_str fp) = path_name (Path_of_str fp) ->
  Str.lstrip dot x <> EmptyString ->
  files w !! loc_of (Path_of_str fp) = Some f ->
  who f = Owner -> readable f = true ->
  files w !! loc_of (staged fp) = None ->
  exists w4 new_lines,
    run_operations fp c w
    = (shutil_copy (str (stripped (staged fp))) (str (destination (staged fp) c)) ;;;
       (match new_lines with
        | Some (l :: ls) =>
            write_text (destination (staged fp) c) (Str.join nl (l :: ls))
        | _ => ret tt
        end) ;;;
       os_remove (str (stripped (staged fp))) ;;;
       sys_exit 0) w4
    /\ files w4 = <[loc_of (stripped (staged fp)) := made_executable f]> (files w)
    /\ umask w4 = umask w
    /\ ((new_lines = None
         /\ installed_text (path_suffix (Path_of_str fp)) (content f) = content f)
        \/ exists l ls,
             new_lines = Some (l :: ls)
             /\ installed_text (path_suffix (Path_of_str fp)) (content f)
                = Str.join nl (l :: ls)).
Proof.
  intros Hk Hx Hne Hf Ho Hr Hst.
  destruct (run_paths fp x Hk Hx Hne)
    as (Hparts & Hwf & Hsfx & Hlo & Hls & HwfT & HdT & HlT & _ & _ & _ & HTs & _ & _).
  pose proof (key_suffix_not_empty _ Hk) as Hs.
  assert (path_suffix (staged fp) <> "") as Hs' by now rewrite Hsfx.
  set (ls := loc_of (staged fp)) in *.
  set (lt := loc_of (stripped (staged fp))) in *.
  pose proof (make_temp_file_ok fp w f Hparts Hlo Hls Hf Hr Hst) as Hstage.
  fold ls in Hstage.
  set (w1 := set_files w (<[ls := copy_of f]> (files w))) in *.
  assert (files w1 !! ls = Some (copy_of f)) as Hg1 by apply lookup_insert_eq.
  assert (lookup_file w1 (str (staged fp)) = Some (copy_of f)) as Hg1'
    by (unfold lookup_file; now rewrite Hls).
  assert (readable (copy_of f) = true) as Hr1 by now rewrite copy_of_readable.
  pose proof (get_file_status_ok _ _ _ Hg1' Hr1) as Hstatus.
  rewrite (PathFacts.Path_of_str_str _ Hwf), Hsfx in Hstatus.
  rewrite (copy_of_executable f Ho) in Hstatus.
  change (content (copy_of f)) with (content f) in Hstatus.
  assert (get_file_text (path_suffix (Path_of_str fp)) (str (staged fp)) w1
          = (Ok (universal_newlines (content f)), w1)) as Htext.
  { rewrite <- Hsfx.
    rewrite <- (PathFacts.Path_of_str_str _ Hwf) at 1.
    rewrite get_file_text_own, (PathFacts.Path_of_str_str _ Hwf).
    now apply (read_text_ok w1 _ (copy_of f)). }
  destruct (ensure_executable_made (str (staged fp)) w1 ls f Hls Hg1 Ho)
    as (w2 & Hexec & Hf2 & Hu2).
  destruct (directive_ok
              (in_list (hd "" (Str.split newline (universal_newlines (content f))))
                 (values SHEBANGS))
              (content f) (path_suffix (Path_of_str fp)) w2 Hk eq_refl)
    as (w3 & new_lines & Hdir & Hf3 & Hu3 & Hnl).
  set (w3' := {| files := files w3;
                 out := out w3 ++ ["Removing " +:+ path_suffix (staged fp)
                                   +:+ " suffix..."];
                 umask := umask w3 |}).
  assert (files w3' !! ls = Some (made_executable f)) as Hg3.
  { cbn [files w3']. rewrite Hf3, Hf2. apply lookup_insert_eq. }
  pose proof (remove_suffix_ok (staged fp) w3' _ Hwf Hs' Hg3 HdT) as Hrs.
  fold lt ls in Hrs.
  exists (set_files w3' (<[lt := made_executable f]> (delete ls (files w3')))), new_lines.
  split.
  { unfold run_operations. run Hstage.
    cbn [eq_zero py_str attr_suffix]. unfold bind at 1. cbn [ret].
    run Hstatus. cbn [suffix shebang exec]. run Htext. run Hexec. run Hdir.
    rewrite Hk. unfold bind at 1. cbn [ret]. unfold bind at 1. cbn [print].
    fold w3'. run Hrs. cbv zeta.
    rewrite (PathFacts.Path_of_str_str _ HwfT). reflexivity. }
  split.
  { cbn [files set_files w3']. rewrite Hf3, Hf2. cbn [files w1 set_files].
    rewrite insert_insert_eq, delete_insert_eq.
    now rewrite (delete_id _ _ Hst). }
  split; [cbn [umask set_files w3']; now rewrite Hu3, Hu2|].
  exact Hnl.
Qed.

Lemma installed_text_eq sfx text :
  installed_text sfx text
  = (if in_list (hd EmptyString (Str.split newline (universal_newlines text)))
          (values SHEBANGS)
     then text
     else match getitem SHEBANGS sfx with
          | Some directive => directive +:+ nl +:+ nl +:+ universal_newlines text
          | None => text
          end).
Proof.
  unfold installed_text. cbv zeta.
  destruct (in_list _ _); [reflexivity|].
  destruct (getitem SHEBANGS sfx) as [d|]; [|reflexivity].
  destruct (StrFacts.split_cons newline (universal_newlines text)) as (y & l & E).
  rewrite E, !StrFacts.join_cons, <- E. unfold nl at 3. now rewrite join_split.
Qed.

(** The commit of a run, for a destination that is neither the staged path
    nor the staged path without its suffix, and that is free or holds a file
    the user owns and can write. *)
Lemma run_operations_finish fp x c w f ld :
  in_list (path_suffix (Path_of_str fp)) (keys SHEBANGS) = true ->
  x +:+ path_suffix (Path_of_str fp) = path_name (Path_of_str fp) ->
  Str.lstrip dot x <> EmptyString ->
  files w !! loc_of (Path_of_str fp) = Some f ->
  who f = Owner -> readable f = true -> writable f = true ->
  files w !! loc_of (staged fp) = None ->
  locate (str (destination (staged fp) c)) = Some ld ->
  ld <> loc_of (stripped (staged fp)) ->
  files w !! ld = None
  \/ (exists h, files w !! ld = Some h /\ writable h = true /\ who h = Owner) ->
  exists w',
    run_operations fp c w = (Raise (mkExn (SystemExit 0) EmptyString), w')
    /\ files w'
       = <[ld := installed (path_suffix (Path_of_str fp)) f]>
           (delete (loc_of (stripped (staged fp))) (files w)).
Proof.
  intros Hk Hx Hne Hf Ho Hr Hw Hst HlD HdT' Hdst.
  destruct (run_paths fp x Hk Hx Hne)
    as (Hparts & Hwf & Hsfx & Hlo & Hls & HwfT & HdT & HlT & _).
  destruct (run_operations_to_commit fp x c w f Hk Hx Hne Hf Ho Hr Hst)
    as (w4 & new_lines & Hrun & Hf4 & _ & Hnl).
  destruct (made_executable_facts f Ho) as (Hxg & Hrg & Hwg).
  set (g := made_executable f) in *.
  set (lt := loc_of (stripped (staged fp))) in *.
  assert (files w4 !! lt = Some g) as Hg4 by (rewrite Hf4; apply lookup_insert_eq).
  assert (lt <> ld) as Htd by (intros E; now apply HdT').
  assert (shutil_copy (str (stripped (staged fp))) (str (destination (staged fp) c)) w4
          = (Ok (str (destination (staged fp) c)),
             set_files w4 (<[ld := g]> (files w4)))) as Hcp.
  { assert (copy_of g = g) as Hcg by apply copy_of_made_id. rewrite <- Hcg at 1.
    destruct Hdst as [Hdst | (h & Hh & Hwh & Hoh)].
    - apply (shutil_copy_new _ _ w4 lt ld g HlT HlD Htd Hg4); [now rewrite Hrg|].
      rewrite Hf4, lookup_insert_ne by exact Htd. exact Hdst.
    - apply (shutil_copy_existing _ _ w4 lt ld g h HlT HlD Htd Hg4);
        [now rewrite Hrg| |exact Hwh|exact Hoh].
      rewrite Hf4, lookup_insert_ne by exact Htd. exact Hh. }
  set (w5 := set_files w4 (<[ld := g]> (files w4))) in *.
  assert (files w5 !! ld = Some g) as Hg5 by apply lookup_insert_eq.
  assert (exists w6,
            (match new_lines with
             | Some (l :: ls') =>
                 write_text (destination (staged fp) c) (Str.join nl (l :: ls'))
             | _ => ret tt
             end) w5 = (Ok tt, w6)
            /\ files w6 = <[ld := installed (path_suffix (Path_of_str fp)) f]> (files w5))
    as (w6 & Hwr & Hf6).
  { unfold installed. rewrite <- installed_text_eq.
    destruct Hnl as [[-> Ht] | (l & ls' & -> & Ht)].
    - exists w5. split; [reflexivity|]. rewrite Ht.
      symmetry. apply insert_id. exact Hg5.
    - unfold write_text.
      rewrite (open_write_existing _ _ w5 ld _ HlD Hg5) by now rewrite Hwg.
      eexists. split; [reflexivity|]. cbn [files set_files].
      now rewrite Ht. }
  assert (files w6 !! lt = Some g) as Hg6.
  { rewrite Hf6, lookup_insert_ne by (intros E; now apply HdT').
    cbn [files w5 set_files]. rewrite lookup_insert_ne by (intros E; now apply HdT').
    exact Hg4. }
  pose proof (os_remove_ok (str (stripped (staged fp))) w6 lt g HlT Hg6) as Hrm.
  exists (set_files w6 (delete lt (files w6))).
  split; [rewrite Hrun; run Hcp; run Hwr; run Hrm; reflexivity|].
  cbn [files set_files]. rewrite Hf6. cbn [files w5 set_files].
  rewrite insert_insert_eq, Hf4.
  rewrite delete_insert_ne by (intros E; now apply HdT').
  now rewrite delete_insert_eq.
Qed.

(** X14: a whole installation without custom name.  For a script the user
    owns, can read and can write, of ASCII characters and without set-user-ID
    and set-group-ID bits, named [x] followed by a suffix of the table, with
    the staged path free and the destination free or held by a file the user
    owns and can write, the run ends with [sys.exit(0)] and the file system
    is the one before the run with two changes: the destination holds the
    installed file, and whatever was at the hidden path [.x] next to the
    script is gone.  The installed file is owned by the process and has the
    permission bits of the script and the owner's execute bit; when the
    first line of the script, as text mode reads it, is a directive of the
    table, its characters are those of the script, carriage returns
    included; otherwise they are the directive of the suffix, an empty line
    and the text of the script as text mode reads it, every line end a line
    feed.  The original is as it was and no staged copy is left. *)
Theorem run_operations_installs (file_path x : string) (w : world) (f : file) :
  in_list (path_suffix (Path_of_str file_path)) (keys SHEBANGS) = true ->
  x +:+ path_suffix (Path_of_str file_path) = path_name (Path_of_str file_path) ->
  Str.lstrip dot x <> EmptyString ->
  files w !! loc_of (Path_of_str file_path) = Some f ->
  who f = Owner -> readable f = true -> writable f = true ->
  is_ascii (content f) = true -> Z.land (perm f) set_id_bits = 0 ->
  files w !! loc_of (staged file_path) = None ->
  files w !! loc_of (destination (staged file_path) None) = None
  \/ (exists h, files w !! loc_of (destination (staged file_path) None) = Some h
                /\ writable h = true /\ who h = Owner) ->
  exists w',
    run_operations file_path None w = (Raise (mkExn (SystemExit 0) EmptyString), w')
    /\ files w'
       = <[loc_of (destination (staged file_path) None)
           := installed (path_suffix (Path_of_str file_path)) f]>
           (delete (loc_of (stripped (staged file_path))) (files w))
    /\ executable (installed (path_suffix (Path_of_str file_path)) f) = true
    /\ lookup_file w' (str (Path_of_str file_path)) = Some f
    /\ lookup_file w' (str (staged file_path)) = None
    /\ lookup_file w' (str (stripped (staged file_path))) = None.
Proof.
  intros Hk Hx Hne Hf Ho Hr Hw _ _ Hst Hdst.
  destruct (run_paths file_path x Hk Hx Hne)
    as (Hparts & Hwf & Hsfx & Hlo & Hls & HwfT & HdT & HlT & HlD
        & Hds & HdT' & HTs & Hso & HTo).
  destruct (run_operations_finish file_path x None w f _
              Hk Hx Hne Hf Ho Hr Hw Hst HlD HdT' Hdst)
    as (w' & Hrun & Hfinal).
  exists w'. split; [exact Hrun|]. split; [exact Hfinal|].
  split; [exact (proj1 (made_executable_facts f Ho))|].
  unfold lookup_file. rewrite Hlo, Hls, HlT, Hfinal.
  split; [|split].
  - assert (loc_of (Path_of_str file_path)
            <> loc_of (destination (staged file_path) None)) as Hod.
    { intros E. apply loc_of_name in E; [|exact Hparts].
      destruct (destination_name file_path x Hk Hx Hne) as (_ & HD & _).
      rewrite HD, <- Hx in E. unfold path_name in E. cbn [parts List.last] in E.
      pose proof (key_suffix_not_empty _ Hk) as Hs.
      apply (f_equal Str.len) in E. rewrite StrFacts.len_app in E.
      pose proof (StrFacts.lstrip_len dot x).
      destruct (path_suffix (Path_of_str file_path)); [congruence | simpl in E; lia]. }
    rewrite lookup_insert_ne by (intros E; now apply Hod).
    rewrite lookup_delete_ne by exact HTo. exact Hf.
  - rewrite lookup_insert_ne by exact Hds.
    rewrite lookup_delete_ne by exact HTs. exact Hst.
  - rewrite lookup_insert_ne by exact HdT'. apply lookup_delete_eq.
Qed.

Lemma run_operations_installs_witness :
  exists w',
    run_operations "/tmp/tool.py" None world_script_crlf
    = (Raise (mkExn (SystemExit 0) EmptyString), w')
    /\ files w'
       = <[(true, ["home"; "kyle"; "bin"; "tool"]%string)
           := {| content := "#!/bin/python3" +:+ nl +:+ nl
                            +:+ "print(1)" +:+ nl +:+ "print(2)" +:+ nl;
                 perm := 484; who := Owner |}]>
           (delete (true, ["tmp"; ".tool"]%string) (files world_script_crlf))
    /\ executable (installed ".py" script_crlf) = true
    /\ lookup_file w' "/tmp/tool.py" = Some script_crlf
    /\ lookup_file w' "/tmp/.tool.py" = None
    /\ lookup_file w' "/tmp/.tool" = None.
Proof.
  apply (run_operations_installs "/tmp/tool.py" "tool" world_script_crlf script_crlf);
    try (vm_compute; reflexivity).
  - vm_compute. discriminate.
  - left. vm_compute. reflexivity.
Defined.

(** X15: installing is idempotent: under the conditions of a first
    installation to a free destination, a second run on the same script
    also ends with [sys.exit(0)] and leaves the file system exactly as the
    first run left it. *)
Theorem run_operations_twice (file_path x : string) (w : world) (f : file) :
  in_list (path_suffix (Path_of_str file_path)) (keys SHEBANGS) = true ->
  x +:+ path_suffix (Path_of_str file_path) = path_name (Path_of_str file_path) ->
  Str.lstrip dot x <> EmptyString ->
  files w !! loc_of (Path_of_str file_path) = Some f ->
  who f = Owner -> readable f = true -> writable f = true ->
  files w !! loc_of (staged file_path) = None ->
  files w !! loc_of (destination (staged file_path) None) = None ->
  exists w' w'',
    run_operations file_path None w = (Raise (mkExn (SystemExit 0) EmptyString), w')
    /\ run_operations file_path None w'
       = (Raise (mkExn (SystemExit 0) EmptyString), w'')
    /\ files w'' = files w'.
Proof.
  intros Hk Hx Hne Hf Ho Hr Hw Hst Hdst.
  destruct (run_paths file_path x Hk Hx Hne)
    as (Hparts & Hwf & Hsfx & Hlo & Hls & HwfT & HdT & HlT & HlD
        & Hds & HdT' & HTs & Hso & HTo).
  destruct (run_operations_finish file_path x None w f _
              Hk Hx Hne Hf Ho Hr Hw Hst HlD HdT' (or_introl Hdst))
    as (w' & Hrun & Hfinal).
  set (lo := loc_of (Path_of_str file_path)) in *.
  set (ls := loc_of (staged file_path)) in *.
  set (lt := loc_of (stripped (staged file_path))) in *.
  set (ld := loc_of (destination (staged file_path) None)) in *.
  set (F := installed (path_suffix (Path_of_str file_path)) f) in *.
  assert (lo <> ld) as Hod by (intros E; rewrite E in Hf; congruence).
  assert (files w' !! lo = Some f) as Hf'.
  { rewrite Hfinal, lookup_insert_ne by (intros E; now apply Hod).
    rewrite lookup_delete_ne by exact HTo. exact Hf. }
  assert (files w' !! ls = None) as Hst'.
  { rewrite Hfinal, lookup_insert_ne by exact Hds.
    rewrite lookup_delete_ne by exact HTs. exact Hst. }
  assert (files w' !! ld = Some F) as HF by (rewrite Hfinal; apply lookup_insert_eq).
  destruct (made_executable_facts f Ho) as (_ & _ & Hwg).
  destruct (run_operations_finish file_path x None w' f ld
              Hk Hx Hne Hf' Ho Hr Hw Hst' HlD HdT') as (w'' & Hrun' & Hfinal').
  { right. exists F. split; [exact HF|]. split; [|reflexivity].
    change (writable F) with (writable (made_executable f)). now rewrite Hwg. }
  exists w', w''. split; [exact Hrun|]. split; [exact Hrun'|].
  rewrite Hfinal', Hfinal. fold F lt.
  rewrite delete_insert_ne by exact (fun E => HdT' (eq_sym E)).
  rewrite delete_delete_eq. apply insert_insert_eq.
Qed.

Lemma run_operations_twice_witness :
  exists w' w'',
    run_operations "/tmp/tool.py" None world_script
    = (Raise (mkExn (SystemExit 0) EmptyString), w')
    /\ run_operations "/tmp/tool.py" None w'
       = (Raise (mkExn (SystemExit 0) EmptyString), w'')
    /\ files w'' = files w'.
Proof.
  apply (run_operations_twice "/tmp/tool.py" "tool" world_script script_644);
    try (vm_compute; reflexivity).
  vm_compute. discriminate.
Defined.

(** The destination of a run with a custom name that is a file name. *)
Lemma destination_custom fp x c :
  in_list (path_suffix (Path_of_str fp)) (keys SHEBANGS) = true ->
  x +:+ path_suffix (Path_of_str fp) = path_name (Path_of_str fp) ->
  Str.lstrip dot x <> EmptyString ->
  good c ->
  destination (staged fp) (Some c)
  = {| root := "/"; parts := ["home"; "kyle"; "bin"; c]%string |}.
Proof.
  intros Hk Hx Hne Hc.
  pose proof (key_suffix_not_empty _ Hk) as Hs.
  pose proof (parts_not_nil _ (suffix_name_not_empty _ Hs)) as Hparts.
  pose proof (PathFacts.good_name _ (PathFacts.wf_of_str fp) Hparts) as Hgn.
  destruct (destination_name fp x Hk Hx Hne) as (Hname & _ & _).
  assert (Str.contains slash x = false) as Hcx.
  { destruct Hgn as [_ Hgn]. rewrite <- Hx, StrFacts.contains_app in Hgn.
    now apply orb_false_iff in Hgn. }
  pose proof (good_lstrip x Hcx Hne) as Hgl.
  unfold destination. rewrite Hname.
  change (Str.lstrip dot (String dot x)) with (Str.lstrip dot x).
  set (P := {| root := "/"; parts := ["home"; "kyle"; "bin"]%string |}).
  change (Path_of_str SCRIPTS_DIR) with P.
  assert (wf P) as HwfP.
  { split; [cbn; auto|]. cbn [parts P]. repeat (constructor; [split; reflexivity|]).
    constructor. }
  rewrite (truediv_name P _ Hgl). unfold build_final_path, given.
  pose proof (PathFacts.good_not_empty c Hc) as Hc0.
  apply String.eqb_neq in Hc0. rewrite Hc0. apply String.eqb_neq in Hc0.
  rewrite str_snoc_eq by now apply PathFacts.good_not_empty.
  rewrite (JoinFacts.os_path_split_snoc (root P) (parts P) _
             (proj1 HwfP) (proj2 HwfP) Hgl).
  rewrite (Path_of_joined P c HwfP Hc0). now rewrite (truediv_name P c Hc).
Qed.

(** X16: a whole installation with a custom name that is a file name and
    does not begin with a dot.  For a script the user owns, can read and can
    write, of ASCII characters and without set-user-ID and set-group-ID
    bits, named [x] followed by a suffix of the table, with the staged path
    free and [/home/kyle/bin/<custom name>] free, the run ends with
    [sys.exit(0)], the installed file (the one of a run without custom name:
    the characters of the script when its first line in text mode is a
    directive of the table, the directive, an empty line and the text-mode
    text otherwise) is at that path, whatever was at the hidden path [.x] is
    gone, nothing else changes; in particular the path the script's own name
    would have given is as it was. *)
Theorem run_operations_custom_name
    (file_path x custom_name : string) (w : world) (f : file) :
  in_list (path_suffix (Path_of_str file_path)) (keys SHEBANGS) = true ->
  x +:+ path_suffix (Path_of_str file_path) = path_name (Path_of_str file_path) ->
  Str.lstrip dot x <> EmptyString ->
  files w !! loc_of (Path_of_str file_path) = Some f ->
  who f = Owner -> readable f = true -> writable f = true ->
  is_ascii (content f) = true -> Z.land (perm f) set_id_bits = 0 ->
  files w !! loc_of (staged file_path) = None ->
  good custom_name -> Str.startswith dot custom_name = false ->
  lookup_file w ("/home/kyle/bin/" +:+ custom_name) = None ->
  exists w',
    run_operations file_path (Some custom_name) w
    = (Raise (mkExn (SystemExit 0) EmptyString), w')
    /\ files w'
       = <[(true, ["home"; "kyle"; "bin"; custom_name]%string)
           := installed (path_suffix (Path_of_str file_path)) f]>
           (delete (loc_of (stripped (staged file_path))) (files w))
    /\ lookup_file w' ("/home/kyle/bin/" +:+ custom_name)
       = Some (installed (path_suffix (Path_of_str file_path)) f)
    /\ (custom_name <> Str.lstrip dot x ->
        lookup_file w' ("/home/kyle/bin/" +:+ Str.lstrip dot x)
        = lookup_file w ("/home/kyle/bin/" +:+ Str.lstrip dot x)).
Proof.
  intros Hk Hx Hne Hf Ho Hr Hw _ _ Hst Hc Hcd Hfree.
  destruct (run_paths file_path x Hk Hx Hne)
    as (Hparts & Hwf & Hsfx & Hlo & Hls & HwfT & HdT & HlT & HlD
        & Hds & HdT' & HTs & Hso & HTo).
  destruct (destination_name file_path x Hk Hx Hne) as (Hname & HD & HstrD).
  pose proof (destination_custom file_path x custom_name Hk Hx Hne Hc) as Hdest.
  set (D := {| root := "/"; parts := ["home"; "kyle"; "bin"; custom_name]%string |}) in *.
  assert (str D = "/home/kyle/bin/" +:+ custom_name) as Hstr by reflexivity.
  assert (wf D) as HwfD.
  { split; [cbn; auto|]. cbn [parts D].
    repeat (constructor; [split; reflexivity|]). constructor; [exact Hc | constructor]. }
  assert (locate (str D) = Some (loc_of D)) as HlC.
  { apply PathFacts.locate_str; [exact HwfD | discriminate |].
    change (path_name D) with custom_name. intros E. rewrite E in Hcd. discriminate. }
  assert (loc_of D <> loc_of (stripped (staged file_path))) as Hne'.
  { intros E. apply loc_of_name in E; [|discriminate].
    change (path_name D) with custom_name in E.
    rewrite Hname in E. rewrite E in Hcd. discriminate. }
  assert (files w !! loc_of D = None) as HfreeD.
  { unfold lookup_file in Hfree. now rewrite <- Hstr, HlC in Hfree. }
  destruct (run_operations_finish file_path x (Some custom_name) w f (loc_of D)
              Hk Hx Hne Hf Ho Hr Hw Hst) as (w' & Hrun & Hfinal);
    [now rewrite Hdest | exact Hne' | now left |].
  exists w'. split; [exact Hrun|]. split; [exact Hfinal|]. split.
  { unfold lookup_file. rewrite <- Hstr, HlC, Hfinal. apply lookup_insert_eq. }
  intros Hdiff. unfold lookup_file. rewrite <- HstrD, HlD, Hfinal.
  rewrite lookup_insert_ne.
  - apply lookup_delete_ne. exact (fun E => HdT' (eq_sym E)).
  - intros E. apply loc_of_name in E; [|discriminate].
    change (path_name D) with custom_name in E. rewrite HD in E. now apply Hdiff.
Qed.

Lemma run_operations_custom_name_witness :
  exists w',
    run_operations "/tmp/tool.py" (Some "mytool"%string) world_script
    = (Raise (mkExn (SystemExit 0) EmptyString), w')
    /\ files w'
       = <[(true, ["home"; "kyle"; "bin"; "mytool"]%string)
           := {| content := "#!/bin/python3" +:+ nl +:+ nl +:+ "print(1)";
                 perm := 484; who := Owner |}]>
           (delete (true, ["tmp"; ".tool"]%string) (files world_script))
    /\ lookup_file w' "/home/kyle/bin/mytool"
       = Some {| content := "#!/bin/python3" +:+ nl +:+ nl +:+ "print(1)";
                 perm := 484; who := Owner |}
    /\ (("mytool" <> Str.lstrip dot "tool")%string ->
        lookup_file w' "/home/kyle/bin/tool"
        = lookup_file world_script "/home/kyle/bin/tool").
Proof.
  apply (run_operations_custom_name "/tmp/tool.py" "tool" "mytool" world_script script_644);
    try (vm_compute; reflexivity).
  - vm_compute. discriminate.
  - split; reflexivity.
Defined.



(** X18: called on a readable script of the user, of ASCII characters,
    whose staged name has no suffix of the table, with the staged path free,
    [run_operations] installs nothing and ends with exit status 0, leaving
    the staged copy, made executable, as the only change: when the first
    line, as text mode reads it, is a directive of the table it prints that
    files of this suffix are not supported and returns, and otherwise it
    ends through the handler of the injector's assertion. *)
Theorem run_operations_unsupported
    (file_path : string) (custom_name : option string) (w : world) (f : file) :
  lookup_file w file_path = Some f -> who f = Owner -> readable f = true ->
  is_ascii (content f) = true ->
  lookup_file w (str (staged file_path)) = None ->
  in_list (path_suffix (staged file_path)) (keys SHEBANGS) = false ->
  exists r w',
    run_operations file_path custom_name w = (r, w')
    /\ exit_status r = 0
    /\ files w' = <[loc_of (staged file_path) := made_executable f]> (files w)
    /\ (if in_list (hd EmptyString
                       (Str.split newline (universal_newlines (content f))))
             (values SHEBANGS)
        then r = Ok tt
             /\ List.last (out w') EmptyString
                = path_suffix (staged file_path) +:+ " files are not currently supported."
        else r = Raise (mkExn (SystemExit 0) EmptyString)
             /\ List.last (out w') EmptyString = injector_message).
Proof.
  intros Hf Ho Hr _ Hfree Hk.
  unfold lookup_file in Hf. destruct (locate file_path) as [l|] eqn:Hl; [|discriminate].
  destruct (located_path file_path l Hl) as (-> & Hne & Hlo & _).
  pose proof (locate_staged file_path Hne) as Hls.
  pose proof (wf_staged file_path Hne) as Hwf.
  unfold lookup_file in Hfree. rewrite Hls in Hfree.
  set (ls := loc_of (staged file_path)) in *.
  pose proof (make_temp_file_ok file_path w f Hne Hlo Hls Hf Hr Hfree) as Hstage.
  fold ls in Hstage.
  set (w1 := set_files w (<[ls := copy_of f]> (files w))) in *.
  assert (files w1 !! ls = Some (copy_of f)) as Hg1 by apply lookup_insert_eq.
  assert (lookup_file w1 (str (staged file_path)) = Some (copy_of f)) as Hg1'
    by (unfold lookup_file; now rewrite Hls).
  assert (readable (copy_of f) = true) as Hr1 by now rewrite copy_of_readable.
  pose proof (get_file_status_ok _ _ _ Hg1' Hr1) as Hstatus.
  rewrite (PathFacts.Path_of_str_str _ Hwf) in Hstatus.
  rewrite (copy_of_executable f Ho) in Hstatus.
  change (content (copy_of f)) with (content f) in Hstatus.
  assert (get_file_text (path_suffix (staged file_path)) (str (staged file_path)) w1
          = (Ok (universal_newlines (content f)), w1)) as Htext.
  { rewrite <- (PathFacts.Path_of_str_str _ Hwf) at 1.
    rewrite get_file_text_own, (PathFacts.Path_of_str_str _ Hwf).
    now apply (read_text_ok w1 _ (copy_of f)). }
  destruct (ensure_executable_made (str (staged file_path)) w1 ls f Hls Hg1 Ho)
    as (w2 & Hexec & Hf2 & _).
  assert (files w2 = <[ls := made_executable f]> (files w)) as Hfin.
  { rewrite Hf2. cbn [files w1 set_files]. apply insert_insert_eq. }
  destruct (in_list (hd "" (Str.split newline (universal_newlines (content f))))
              (values SHEBANGS)) eqn:Hb.
  - eexists (Ok tt), _. split.
    { unfold run_operations. run Hstage.
      cbn [eq_zero py_str attr_suffix]. unfold bind at 1. cbn [ret].
      run Hstatus. cbn [suffix shebang exec]. run Htext. run Hexec.
      unfold bind at 1. unfold bind at 1. cbn [print ret]. rewrite Hk. reflexivity. }
    split; [reflexivity|]. cbn [files out]. split; [exact Hfin|].
    split; [reflexivity | apply last_last].
  - eexists (Raise (mkExn (SystemExit 0) "")), _. split.
    { unfold run_operations. run Hstage.
      cbn [eq_zero py_str attr_suffix]. unfold bind at 1. cbn [ret].
      run Hstatus. cbn [suffix shebang exec]. run Htext. run Hexec.
      unfold bind at 1. unfold bind at 1. unfold try_except, bind at 1.
      unfold add_shebang. rewrite Hk. reflexivity. }
    split; [reflexivity|]. cbn [files out]. split; [exact Hfin|].
    split; [reflexivity | apply last_last].
Qed.

Lemma run_operations_unsupported_witness :
  exists r w',
    run_operations "notes.txt" None world_directive_txt = (r, w')
    /\ exit_status r = 0
    /\ files w'
       = <[(false, [".notes.txt"%string])
           := {| content := "#!/bin/bash" +:+ nl +:+ "echo hi";
                 perm := 484; who := Owner |}]> (files world_directive_txt)
    /\ r = Ok tt
    /\ List.last (out w') EmptyString = ".txt files are not currently supported."%string.
Proof.
  destruct (run_operations_unsupported "notes.txt" None world_directive_txt
              {| content := "#!/bin/bash" +:+ nl +:+ "echo hi"; perm := 420; who := Owner |})
    as (r & w' & H1 & H2 & H3 & H4);
    try (vm_compute; reflexivity).
  exists r, w'. split; [exact H1|]. split; [exact H2|]. split; [exact H3|]. exact H4.
Defined.

(** ** An absolute custom name *)

(** X19: a custom name that begins with a slash replaces the whole path:
    the destination is that absolute path, outside the install directory. *)
Theorem build_final_path_absolute (path custom_name : string) :
  Str.startswith slash custom_name = true ->
  build_final_path path (Some custom_name) = Path_of_str custom_name.
Proof.
  intros H. unfold build_final_path, given.
  destruct custom_name as [|a c]; [discriminate|]. cbn [String.eqb].
  destruct (os_path_split path) as [head tail].
  unfold os_path_join. now rewrite H.
Qed.

Lemma build_final_path_absolute_witness :
  build_final_path "/home/kyle/bin/tool" (Some "/etc/tool"%string)
  = {| root := "/"; parts := ["etc"; "tool"]%string |}.
Proof.
  exact (build_final_path_absolute "/home/kyle/bin/tool" "/etc/tool" eq_refl).
Defined.
